(** * PrevailPay: the wage engine of [generate_submission]

  A shallow embedding of [src/main.py] (the [/submissions/generate]
  handler, lines 102-159) and of the document shapes of [src/schemas.py].

  Python [float] arithmetic is abstracted by the class [PyFloat], with
  two instances:
  - [Binary64.f64]: IEEE 754 binary64, as CPython computes, built on the
    executable specification [SpecFloat] of the standard library;
  - [Exact.exact]: the same program read in exact rational arithmetic.

  The handler itself is written once, over any [PyFloat]. *)

From Stdlib Require Import ZArith QArith Qround Qabs Qpower Qcanon SpecFloat.
From Stdlib Require Import Lia Lqa.
From stdpp Require Import gmap strings list fin_maps.

Close Scope Q_scope.
Close Scope Qc_scope.

(** ** Python floats *)

(** What the handler needs from [float]: the literals [0.0] (also
  [float(0)]), [1.0] and [0.6], [+], [*], and the builtin [round(v, 2)]. *)
Class PyFloat (F : Type) := {
  f_zero : F;
  f_one : F;
  f_0_6 : F;
  f_add : F → F → F;
  f_mul : F → F → F;
  f_round2 : F → F;
}.

(** *** Rounding a rational to an integer *)

Module Rounding.

(** Ties go to the even neighbour: the rule of Python 3's [round]. *)
Definition round_half_even (q : Q) : Z :=
  let f := Qfloor q in
  match Qcompare (q - inject_Z f) (1 # 2) with
  | Lt => f
  | Gt => (f + 1)%Z
  | Eq => if Z.even f then f else (f + 1)%Z
  end.

(** The rule named by the specification (section 4.1, step 4): ties go
    away from zero.  This definition follows the specification's words;
    no code of the repository computes it. *)
Definition round_half_away (q : Q) : Z :=
  match Qcompare q 0 with
  | Lt => (- Qfloor (Qabs q + (1 # 2)))%Z
  | _ => Qfloor (q + (1 # 2))
  end.

(** [n] is an integer nearest to [q], and the even one when [q] lies
    half-way between two integers. *)
Definition nearest_ties_even (q : Q) (n : Z) : Prop :=
  (inject_Z n - (1 # 2) <= q <= inject_Z n + (1 # 2))%Q
  ∧ ((q == inject_Z n - (1 # 2) ∨ q == inject_Z n + (1 # 2))%Q
     → Z.even n = true).

End Rounding.

(** *** IEEE 754 binary64 *)

Module Binary64.

Definition prec : Z := 53.
Definition emax : Z := 1024.

Definition add : spec_float → spec_float → spec_float := SFadd prec emax.
Definition mul : spec_float → spec_float → spec_float := SFmul prec emax.
Definition div : spec_float → spec_float → spec_float := SFdiv prec emax.

(** [float(n)] for an integer [n]. *)
Definition of_Z (n : Z) : spec_float := binary_normalize prec emax n 0 false.

(** The double nearest to [n / d] ([d] positive).  [SFdiv] rounds the
    exact quotient of its two mantissas once, whatever their size. *)
Definition of_ratio (s0 : bool) (n : Z) (d : positive) : spec_float :=
  match n with
  | Z0 => S754_zero s0
  | Zpos m => div (S754_finite false m 0) (S754_finite false d 0)
  | Zneg m => div (S754_finite true m 0) (S754_finite false d 0)
  end.

(** A decimal literal [n / 10^k], as the Python parser reads it. *)
Definition literal (n : Z) (k : positive) : spec_float :=
  of_ratio false n (10 ^ k).

Definition pow2 (e : Z) : Q := (2 ^ e)%Q.

(** The value [m * 2^e]. *)
Definition value (m e : Z) : Q := (inject_Z m * pow2 e)%Q.

(** The exact value of a finite double (0 for the other ones). *)
Definition to_Q (x : spec_float) : Q :=
  match x with
  | S754_finite s m e => value (if s then Zneg m else Zpos m) e
  | _ => 0%Q
  end.

(** A well-formed double: a finite one has its canonical mantissa and
    exponent, within the range of binary64. *)
Definition well_formed (x : spec_float) : Prop :=
  valid_binary prec emax x = true.

(** [0.0 <= x], as IEEE 754 compares: false on NaN. *)
Definition nonneg (x : spec_float) : Prop :=
  SFleb (S754_zero false) x = true.

(** Not negative: NaN, a zero, a positive finite number or [+inf]. *)
Definition not_negative (x : spec_float) : Prop :=
  match x with
  | S754_finite true _ _ | S754_infinity true => False
  | _ => True
  end.

(** [a < b] on the values of two doubles, as IEEE 754 compares them: NaN
    is below nothing and nothing is below it. *)
Definition lt_value (a b : spec_float) : Prop :=
  match a, b with
  | S754_nan, _ | _, S754_nan => False
  | S754_infinity sa, S754_infinity sb => sa = true /\ sb = false
  | S754_infinity sa, _ => sa = true
  | _, S754_infinity sb => sb = false
  | _, _ => (to_Q a < to_Q b)%Q
  end.

(** Rounding to two decimals with the integer rounding [rnd]: the exact
    value of a finite non-zero [x], times 100, is rounded to an integer
    [n], and [n / 100] is converted to the nearest double; a result of zero
    keeps the sign of [x]; zeros, infinities and NaN are returned as they
    are. *)
Definition round_to (rnd : Q → Z) (x : spec_float) : spec_float :=
  match x with
  | S754_finite s _ _ => of_ratio s (rnd (100 * to_Q x)%Q) 100
  | _ => x
  end.

(** [round(x, 2)] of CPython ([float.__round__] with [ndigits = 2]): the
    exact value of [x] correctly rounded to two decimals, ties to even. *)
Definition round2 : spec_float → spec_float :=
  round_to Rounding.round_half_even.

(** What the specification asks for instead (section 4.1, step 4). *)
Definition round2_half_away : spec_float → spec_float :=
  round_to Rounding.round_half_away.

#[global] Instance f64 : PyFloat spec_float := {|
  f_zero := S754_zero false;
  f_one := of_Z 1;
  f_0_6 := literal 6 1;
  f_add := add;
  f_mul := mul;
  f_round2 := round2;
|}.

End Binary64.

(** *** Exact arithmetic *)

Module Exact.

Definition round2 (q : Qc) : Qc :=
  Q2Qc (inject_Z (Rounding.round_half_even (100 * q)%Q) / 100)%Q.

#[global] Instance exact : PyFloat Qc := {|
  f_zero := 0%Qc;
  f_one := 1%Qc;
  f_0_6 := Q2Qc (6 # 10);
  f_add := Qcplus;
  f_mul := Qcmult;
  f_round2 := round2;
|}.

End Exact.

(** ** Documents

  The handler reads stored documents as dicts, with [d.get(key)] and
  [d.get(key, default)]: a field is [None] when the key is absent.
  Numeric fields hold numbers ([float(v)] is then the number itself).

  This first reading is the one of stored documents no key of which holds
  the value [None].  A key that holds [None] is read as it is by the
  second reading, [Raw] below, where [float(None)] raises [TypeError];
  on documents without [None] the two readings agree. *)

(** [d.get(key, default)] *)
Definition dict_get {A} (field : option A) (default : A) : A :=
  match field with
  | Some v => v
  | None => default
  end.

(** [schemas.WageRate], as an element of a project's ["wage_templates"]. *)
Module WageRate.
Record t (F : Type) := mk {
  craft : option string;
  base_rate : option F;
  fringe_rate : option F;
  apprentice_factor : option F;
}.
Arguments mk {F}.
Arguments craft {F}.
Arguments base_rate {F}.
Arguments fringe_rate {F}.
Arguments apprentice_factor {F}.
End WageRate.

(** [schemas.Project]: the fields the handler reads.  [_id] is the
  rendering [str(p.get("_id"))] of the identifier given by the store. *)
Module Project.
Record t (F : Type) := mk {
  _id : string;
  wage_templates : option (list (WageRate.t F));
}.
Arguments mk {F}.
Arguments _id {F}.
Arguments wage_templates {F}.
End Project.

(** [schemas.TimesheetEntry]: the fields the handler and its query read. *)
Module TimesheetEntry.
Record t (F : Type) := mk {
  project_id : option string;
  week_ending : option string;
  craft : option string;
  hours : option F;
  apprentice : option bool;
}.
Arguments mk {F}.
Arguments project_id {F}.
Arguments week_ending {F}.
Arguments craft {F}.
Arguments hours {F}.
Arguments apprentice {F}.
End TimesheetEntry.

(** A value of the dict [rate_map] (main.py, lines 119-123). *)
Module Rate.
Record t (F : Type) := mk {
  base : F;
  fringe : F;
  apprentice_factor : F;
}.
Arguments mk {F}.
Arguments base {F}.
Arguments fringe {F}.
Arguments apprentice_factor {F}.
End Rate.

(** The dict [totals] (main.py, lines 125-130): its four fixed keys. *)
Module Totals.
Record t (F : Type) := mk {
  hours : F;
  base_pay : F;
  fringe : F;
  gross : F;
}.
Arguments mk {F}.
Arguments hours {F}.
Arguments base_pay {F}.
Arguments fringe {F}.
Arguments gross {F}.
End Totals.

(** [schemas.Submission] *)
Module Submission.
Record t (F : Type) := mk {
  project_id : string;
  week_ending : string;
  totals : Totals.t F;
  warnings : list string;
  signer_name : option string;
  signer_title : option string;
  signed_at : option string;
  status : string;
}.
Arguments mk {F}.
Arguments project_id {F}.
Arguments week_ending {F}.
Arguments totals {F}.
Arguments warnings {F}.
Arguments signer_name {F}.
Arguments signer_title {F}.
Arguments signed_at {F}.
Arguments status {F}.
End Submission.

(** [main.GenerateRequest] *)
Module GenerateRequest.
Record t := mk {
  project_id : string;
  week_ending : string;
}.
End GenerateRequest.

(** [fastapi.HTTPException] *)
Record HTTPException := {
  status_code : nat;
  detail : string;
}.

(** ** The document store

  [database.py] lies outside the verified sources; its two functions are
  taken from section 6 of the specification. *)
Module Store.
(** The three collections the handler touches, in insertion order. *)
Record t (F : Type) := mk {
  project : list (Project.t F);
  timesheetentry : list (TimesheetEntry.t F);
  submission : list (Submission.t F);
}.
Arguments mk {F}.
Arguments project {F}.
Arguments timesheetentry {F}.
Arguments submission {F}.
End Store.

Section Database.
Context {F : Type}.

(** Modelled from the spec: [database.get_documents] on the collection
    ["project"] with the filter [{"_id": {"$exists": True}}].  Section 6:
    the query "returns all documents whose fields exactly match filter";
    every stored document has an [_id], so all projects are returned.
    The store is not changed. *)
Definition get_documents_project (db : Store.t F) : list (Project.t F) :=
  Store.project db.

(** Modelled from the spec: [database.get_documents] on the collection
    ["timesheetentry"] with the filter
    [{"project_id": project_id, "week_ending": week_ending}].  Section 6:
    "returns all documents whose fields exactly match filter".  The store
    is not changed. *)
Definition get_documents_timesheetentry (db : Store.t F)
    (project_id week_ending : string) : list (TimesheetEntry.t F) :=
  filter (λ t, TimesheetEntry.project_id t = Some project_id
               ∧ TimesheetEntry.week_ending t = Some week_ending)
         (Store.timesheetentry db).

(** Modelled from the spec: [database.create_document] on the collection
    ["submission"].  Section 6: "persists a new immutable document,
    returns a newly assigned identifier".  The identifier is the position
    of the document in its collection. *)
Definition create_document_submission (db : Store.t F)
    (sub : Submission.t F) : nat * Store.t F :=
  (length (Store.submission db),
   Store.mk (Store.project db) (Store.timesheetentry db)
            (Store.submission db ++ [sub])).
End Database.

(** ** The handler [generate_submission] (main.py, lines 102-159) *)

(** [str(craft)] inside the f-string of line 138: the string itself, and
    ["None"] for the value [t.get("craft")] of a row without the key. *)
Definition py_str (craft : option string) : string :=
  match craft with
  | Some s => s
  | None => "None"
  end.

(** Line 138: [f"Missing wage rate for craft '{craft}'"]. *)
Definition missing_rate_warning (craft : option string) : string :=
  "Missing wage rate for craft '" +:+ py_str craft +:+ "'".

(** The two accumulators of the loop over the rows (lines 125-131). *)
Record Accumulators (F : Type) := {
  totals : Totals.t F;
  warnings : list string;
}.
Arguments Build_Accumulators {F}.
Arguments totals {F}.
Arguments warnings {F}.

Section WageEngine.
Context {F : Type} `{PyFloat F}.

(** Lines 119-123: the value stored under a template's craft, for a
    template whose numbers are absent or numbers ([Raw.rate_map_entry]
    reads a stored [None]). *)
Definition rate_map_entry (r : WageRate.t F) : Rate.t F :=
  {| Rate.base := dict_get (WageRate.base_rate r) f_zero;
     Rate.fringe := dict_get (WageRate.fringe_rate r) f_zero;
     Rate.apprentice_factor := dict_get (WageRate.apprentice_factor r) f_0_6 |}.

(** Lines 116-123: the loop [for r in rates: rate_map[craft] = ...].  The
    key is [r.get("craft")], which is [None] for a template without one. *)
Definition build_rate_map (rates : list (WageRate.t F))
    : gmap (option string) (Rate.t F) :=
  foldl (λ rate_map r, <[WageRate.craft r := rate_map_entry r]> rate_map)
        ∅ rates.

(** Lines 125-131. *)
Definition initial : Accumulators F :=
  {| totals := Totals.mk f_zero f_zero f_zero f_zero; warnings := [] |}.

(** Lines 134-149: the body of [for t in rows]. *)
Definition row_step (rate_map : gmap (option string) (Rate.t F))
    (acc : Accumulators F) (t : TimesheetEntry.t F) : Accumulators F :=
  let craft := TimesheetEntry.craft t in
  let hours := dict_get (TimesheetEntry.hours t) f_zero in
  let apprentice := dict_get (TimesheetEntry.apprentice t) false in
  match rate_map !! craft with
  | None =>
      {| totals := totals acc;
         warnings := warnings acc ++ [missing_rate_warning craft] |}
  | Some rm =>
      let base_rate :=
        f_mul (Rate.base rm)
              (if apprentice then Rate.apprentice_factor rm else f_one) in
      let fringe_rate := Rate.fringe rm in
      let base_pay := f_mul base_rate hours in
      let fringe_pay := f_mul fringe_rate hours in
      let gross := f_add base_pay fringe_pay in
      {| totals :=
           {| Totals.hours := f_add (Totals.hours (totals acc)) hours;
              Totals.base_pay := f_add (Totals.base_pay (totals acc)) base_pay;
              Totals.fringe := f_add (Totals.fringe (totals acc)) fringe_pay;
              Totals.gross := f_add (Totals.gross (totals acc)) gross |};
         warnings := warnings acc |}
  end.

(** Lines 115-149: the accumulators when the loop over [rows] ends, before
    any rounding. *)
Definition accumulate (rates : list (WageRate.t F))
    (rows : list (TimesheetEntry.t F)) : Accumulators F :=
  foldl (row_step (build_rate_map rates)) initial rows.

(** Line 154: [{k: round(v, 2) for k, v in totals.items()}]. *)
Definition round_totals (t : Totals.t F) : Totals.t F :=
  {| Totals.hours := f_round2 (Totals.hours t);
     Totals.base_pay := f_round2 (Totals.base_pay t);
     Totals.fringe := f_round2 (Totals.fringe t);
     Totals.gross := f_round2 (Totals.gross t) |}.

(** Lines 115-155, the wage aggregator of the specification: from the
    templates and the rows to the totals and the warnings of the
    submission. *)
Definition aggregate (rates : list (WageRate.t F))
    (rows : list (TimesheetEntry.t F)) : Totals.t F * list string :=
  let acc := accumulate rates rows in
  (round_totals (totals acc), warnings acc).

(** Line 106: [next((p for p in projects if str(p.get("_id")) ==
    req.project_id), None)]. *)
Definition find_project (projects : list (Project.t F)) (project_id : string)
    : option (Project.t F) :=
  List.find (λ p, bool_decide (Project._id p = project_id)) projects.

(** The whole handler: the response (an error, or the identifier and the
    submission) and the store afterwards.  On the documents of this
    reading nothing raises once the project is found;
    [Raw.generate_submission] is the handler on documents that may hold
    [None]. *)
Definition generate_submission (req : GenerateRequest.t) (db : Store.t F)
    : (HTTPException + nat * Submission.t F) * Store.t F :=
  let projects := get_documents_project db in
  match find_project projects (GenerateRequest.project_id req) with
  | None =>
      (inl {| status_code := 404; detail := "Project not found" |}, db)
  | Some proj =>
      let rates := dict_get (Project.wage_templates proj) [] in
      let rows :=
        get_documents_timesheetentry db (GenerateRequest.project_id req)
                                     (GenerateRequest.week_ending req) in
      let '(totals, warnings) := aggregate rates rows in
      let sub :=
        {| Submission.project_id := GenerateRequest.project_id req;
           Submission.week_ending := GenerateRequest.week_ending req;
           Submission.totals := totals;
           Submission.warnings := warnings;
           Submission.signer_name := None;
           Submission.signer_title := None;
           Submission.signed_at := None;
           Submission.status := "generated" |} in
      let '(sub_id, db') := create_document_submission db sub in
      (inr (sub_id, sub), db')
  end.

End WageEngine.

(** ** The scenarios of the specification (section 8), in binary64 *)

Module Scenario.
Import Binary64.

(** [{craft: "Electrician", base_rate: 50, fringe_rate: 5,
     apprentice_factor: 0.6}] *)
Definition electrician : WageRate.t spec_float :=
  {| WageRate.craft := Some "Electrician";
     WageRate.base_rate := Some (of_Z 50);
     WageRate.fringe_rate := Some (of_Z 5);
     WageRate.apprentice_factor := Some (literal 6 1) |}.

(** A row [{craft: craft, hours: hours, apprentice: apprentice}]. *)
Definition row (craft : string) (hours : spec_float) (apprentice : bool)
    : TimesheetEntry.t spec_float :=
  {| TimesheetEntry.project_id := None;
     TimesheetEntry.week_ending := None;
     TimesheetEntry.craft := Some craft;
     TimesheetEntry.hours := Some hours;
     TimesheetEntry.apprentice := Some apprentice |}.

Definition templates_A : list (WageRate.t spec_float) := [electrician].
Definition rows_A : list (TimesheetEntry.t spec_float) :=
  [row "Electrician" (of_Z 8) false].

(** A row of 0.125 hours: its total lies half-way between 0.12 and 0.13. *)
Definition rows_eighth : list (TimesheetEntry.t spec_float) :=
  [row "Electrician" (literal 125 3) false].

(** A Plumber row and an Electrician row, then an apprentice row. *)
Definition rows_mixed : list (TimesheetEntry.t spec_float) :=
  [row "Plumber" (of_Z 5) false; row "Electrician" (of_Z 8) false].

Definition apprentice_row : TimesheetEntry.t spec_float :=
  row "Electrician" (of_Z 10) true.

(** Rates 0.1 and 0.2 with rows of 3 and 8 hours: a case where binary64
    sums do not regroup. *)
Definition templates_tenths : list (WageRate.t spec_float) :=
  [{| WageRate.craft := Some "Laborer";
      WageRate.base_rate := Some (literal 1 1);
      WageRate.fringe_rate := Some (literal 2 1);
      WageRate.apprentice_factor := None |}].

Definition rows_tenths : list (TimesheetEntry.t spec_float) :=
  [row "Laborer" (of_Z 3) false; row "Laborer" (of_Z 8) false].

(** A store with one project and entries of two projects and two weeks. *)
Definition entry (project_id week_ending craft : string) (hours : spec_float)
    : TimesheetEntry.t spec_float :=
  {| TimesheetEntry.project_id := Some project_id;
     TimesheetEntry.week_ending := Some week_ending;
     TimesheetEntry.craft := Some craft;
     TimesheetEntry.hours := Some hours;
     TimesheetEntry.apprentice := Some false |}.

Definition db : Store.t spec_float :=
  {| Store.project :=
       [{| Project._id := "p1"; Project.wage_templates := Some templates_A |}];
     Store.timesheetentry :=
       [entry "p1" "2024-01-07" "Electrician" (of_Z 8);
        entry "p2" "2024-01-07" "Electrician" (of_Z 3);
        entry "p1" "2024-01-14" "Electrician" (of_Z 4);
        entry "p1" "2024-01-07" "Plumber" (of_Z 5)];
     Store.submission := [] |}.

Definition request : GenerateRequest.t :=
  {| GenerateRequest.project_id := "p1";
     GenerateRequest.week_ending := "2024-01-07" |}.

(** The submission expected for [request] on [db]: only the two entries of
    project p1 and week 2024-01-07 count, and the Plumber one is unmatched. *)
Definition submission_A : Submission.t spec_float :=
  {| Submission.project_id := "p1";
     Submission.week_ending := "2024-01-07";
     Submission.totals :=
       {| Totals.hours := of_Z 8;
          Totals.base_pay := of_Z 400;
          Totals.fringe := of_Z 40;
          Totals.gross := of_Z 440 |};
     Submission.warnings := ["Missing wage rate for craft 'Plumber'"];
     Submission.signer_name := None;
     Submission.signer_title := None;
     Submission.signed_at := None;
     Submission.status := "generated" |}.

Definition db_after : Store.t spec_float :=
  {| Store.project := Store.project db;
     Store.timesheetentry := Store.timesheetentry db;
     Store.submission := [submission_A] |}.

Definition request_unknown : GenerateRequest.t :=
  {| GenerateRequest.project_id := "p9";
     GenerateRequest.week_ending := "2024-01-07" |}.

End Scenario.

(** The same Electrician template and rows in exact arithmetic. *)
Module ScenarioExact.

Definition electrician : WageRate.t Qc :=
  {| WageRate.craft := Some "Electrician";
     WageRate.base_rate := Some (Q2Qc 50);
     WageRate.fringe_rate := Some (Q2Qc 5);
     WageRate.apprentice_factor := Some (Q2Qc (6 # 10)) |}.

Definition row (craft : string) (hours : Qc) (apprentice : bool)
    : TimesheetEntry.t Qc :=
  {| TimesheetEntry.project_id := None;
     TimesheetEntry.week_ending := None;
     TimesheetEntry.craft := Some craft;
     TimesheetEntry.hours := Some hours;
     TimesheetEntry.apprentice := Some apprentice |}.

Definition templates : list (WageRate.t Qc) := [electrician].

Definition rows : list (TimesheetEntry.t Qc) :=
  [row "Plumber" (Q2Qc 5) false; row "Electrician" (Q2Qc 8) false].

Definition apprentice_row : TimesheetEntry.t Qc :=
  row "Electrician" (Q2Qc 10) true.

End ScenarioExact.

(** ** Documents of well-formed doubles *)

Definition well_formed_template (r : WageRate.t spec_float) : Prop :=
  (∀ x, WageRate.base_rate r = Some x → Binary64.well_formed x)
  ∧ (∀ x, WageRate.fringe_rate r = Some x → Binary64.well_formed x)
  ∧ (∀ x, WageRate.apprentice_factor r = Some x → Binary64.well_formed x).

Definition well_formed_row (t : TimesheetEntry.t spec_float) : Prop :=
  ∀ h, TimesheetEntry.hours t = Some h → Binary64.well_formed h.

Definition well_formed_totals (v : Totals.t spec_float) : Prop :=
  Binary64.well_formed (Totals.hours v)
  ∧ Binary64.well_formed (Totals.base_pay v)
  ∧ Binary64.well_formed (Totals.fringe v)
  ∧ Binary64.well_formed (Totals.gross v).

(** ** The other handlers of main.py *)

(** *** Queries by optional parameters (lines 87-94 and 179-186) *)

(** [if v:] on a parameter [v: str = None]: [None] and the empty string
    are falsy. *)
Definition truthy (v : option string) : bool :=
  match v with
  | Some s => bool_decide (s ≠ "")
  | None => false
  end.

(** Lines 89-93 and 181-185: the dict [filt], which gets a key only for a
    truthy parameter. *)
Definition query_filter (project_id week_ending : option string)
    : gmap string string :=
  let filt : gmap string string := ∅ in
  let filt :=
    match project_id with
    | Some v => if truthy project_id then <["project_id" := v]> filt else filt
    | None => filt
    end in
  let filt :=
    match week_ending with
    | Some v => if truthy week_ending then <["week_ending" := v]> filt else filt
    | None => filt
    end in
  filt.

(** Modelled from the spec: [database.get_documents(collection, filt)] for
    a filter of string values.  Section 6: "returns all documents whose
    fields exactly match filter (empty filter = all documents)".  [field]
    reads a string-valued key of a document. *)
Definition get_documents {D : Type} (field : D → string → option string)
    (docs : list D) (filt : gmap string string) : list D :=
  filter (λ d, map_Forall (λ k v, field d k = Some v) filt) docs.

(** The string-valued keys of the stored documents. *)
Definition timesheetentry_field {F : Type} (t : TimesheetEntry.t F)
    (key : string) : option string :=
  if decide (key = "project_id") then TimesheetEntry.project_id t
  else if decide (key = "week_ending") then TimesheetEntry.week_ending t
  else if decide (key = "craft") then TimesheetEntry.craft t
  else None.

Definition submission_field {F : Type} (s : Submission.t F)
    (key : string) : option string :=
  if decide (key = "project_id") then Some (Submission.project_id s)
  else if decide (key = "week_ending") then Some (Submission.week_ending s)
  else if decide (key = "signer_name") then Submission.signer_name s
  else if decide (key = "signer_title") then Submission.signer_title s
  else if decide (key = "signed_at") then Submission.signed_at s
  else if decide (key = "status") then Some (Submission.status s)
  else None.

(** [main.SignRequest] *)
Module SignRequest.
Record t := mk {
  submission_id : string;
  signer_name : string;
  signer_title : string;
}.
End SignRequest.

(** The dict [sig] of [sign_submission] (lines 169-175). *)
Module Signature.
Record t := mk {
  submission_id : string;
  signer_name : string;
  signer_title : string;
  signed_at : string;
  type : string;
}.
End Signature.

(** The store with the collection ["signature"] beside the three others. *)
Module Db.
Record t (F : Type) := mk {
  store : Store.t F;
  signature : list Signature.t;
}.
Arguments mk {F}.
Arguments store {F}.
Arguments signature {F}.
End Db.

Section Handlers.
Context {F : Type} `{PyFloat F}.

(** Lines 87-94. *)
Definition list_timesheets (db : Store.t F)
    (project_id week_ending : option string) : list (TimesheetEntry.t F) :=
  get_documents timesheetentry_field (Store.timesheetentry db)
                (query_filter project_id week_ending).

(** Lines 179-186. *)
Definition list_submissions (db : Store.t F)
    (project_id week_ending : option string) : list (Submission.t F) :=
  get_documents submission_field (Store.submission db)
                (query_filter project_id week_ending).

(** Modelled from the spec: [database.create_document] on the collection
    ["timesheetentry"]; the identifier is the position of the document. *)
Definition create_document_timesheetentry (db : Store.t F)
    (entry : TimesheetEntry.t F) : nat * Store.t F :=
  (length (Store.timesheetentry db),
   Store.mk (Store.project db) (Store.timesheetentry db ++ [entry])
            (Store.submission db)).

(** Lines 80-85: one [create_document] per entry, in order; the response
    is [{"inserted": len(ids), "ids": ids}]. *)
Definition upload_timesheets (entries : list (TimesheetEntry.t F))
    (db : Store.t F) : (nat * list nat) * Store.t F :=
  let '(ids, db') :=
    foldl (λ '(ids, db) entry,
             let '(id, db') := create_document_timesheetentry db entry in
             (ids ++ [id], db'))
          ([], db) entries in
  ((length ids, ids), db').

(** Lines 166-177.  [utcnow] is [datetime.utcnow().isoformat()] at the
    call.  The response is the identifier of the signature (its position)
    and the status "signed". *)
Definition sign_submission (utcnow : string) (req : SignRequest.t)
    (db : Db.t F) : (nat * string) * Db.t F :=
  let sig :=
    {| Signature.submission_id := SignRequest.submission_id req;
       Signature.signer_name := SignRequest.signer_name req;
       Signature.signer_title := SignRequest.signer_title req;
       Signature.signed_at := utcnow;
       Signature.type := "statement_of_compliance" |} in
  ((length (Db.signature db), "signed"),
   Db.mk (Db.store db) (Db.signature db ++ [sig])).

End Handlers.

(** *** Stored keys that hold [None] (lines 117-136)

    A finer reading of the same loops: a key of a stored dict is absent,
    present with [None], or present with a value.  [float(None)] raises
    [TypeError]; [bool(None)] is [False]; [d.get("craft")] is [None] for an
    absent key and for a key that holds [None]. *)

Module Raw.

Inductive field (A : Type) :=
  | Absent
  | Null
  | Value (a : A).
Arguments Absent {A}.
Arguments Null {A}.
Arguments Value {A}.

Inductive exn := TypeError.

Record WageRateDoc (F : Type) := {
  wr_craft : field string;
  wr_base_rate : field F;
  wr_fringe_rate : field F;
  wr_apprentice_factor : field F;
}.
Arguments Build_WageRateDoc {F}.
Arguments wr_craft {F}.
Arguments wr_base_rate {F}.
Arguments wr_fringe_rate {F}.
Arguments wr_apprentice_factor {F}.

Record TimesheetEntryDoc (F : Type) := {
  ts_craft : field string;
  ts_hours : field F;
  ts_apprentice : field bool;
}.
Arguments Build_TimesheetEntryDoc {F}.
Arguments ts_craft {F}.
Arguments ts_hours {F}.
Arguments ts_apprentice {F}.

(** [d.get(key)] *)
Definition get {A : Type} (v : field A) : option A :=
  match v with
  | Value a => Some a
  | _ => None
  end.

(** [float(d.get(key, default))] *)
Definition float_get {F : Type} (v : field F) (default : F) : exn + F :=
  match v with
  | Absent => inr default
  | Null => inl TypeError
  | Value x => inr x
  end.

(** [bool(d.get(key, False))] *)
Definition bool_get (v : field bool) : bool :=
  match v with
  | Value b => b
  | _ => false
  end.

Section RawEngine.
Context {F : Type} `{PyFloat F}.

(** Lines 119-123: the three conversions, in this order. *)
Definition rate_map_entry (r : WageRateDoc F) : exn + Rate.t F :=
  match float_get (wr_base_rate r) f_zero with
  | inl e => inl e
  | inr base =>
      match float_get (wr_fringe_rate r) f_zero with
      | inl e => inl e
      | inr fringe =>
          match float_get (wr_apprentice_factor r) f_0_6 with
          | inl e => inl e
          | inr apprentice_factor =>
              inr {| Rate.base := base;
                     Rate.fringe := fringe;
                     Rate.apprentice_factor := apprentice_factor |}
          end
      end
  end.

(** Lines 116-123. *)
Definition build_rate_map (rates : list (WageRateDoc F))
    : exn + gmap (option string) (Rate.t F) :=
  foldl (λ acc r,
           match acc with
           | inl e => inl e
           | inr rate_map =>
               match rate_map_entry r with
               | inl e => inl e
               | inr entry => inr (<[get (wr_craft r) := entry]> rate_map)
               end
           end)
        (inr ∅) rates.

(** Lines 134-149: [hours] is converted before the craft is looked up. *)
Definition row_step (rate_map : gmap (option string) (Rate.t F))
    (acc : Accumulators F) (t : TimesheetEntryDoc F) : exn + Accumulators F :=
  let craft := get (ts_craft t) in
  match float_get (ts_hours t) f_zero with
  | inl e => inl e
  | inr hours =>
      let apprentice := bool_get (ts_apprentice t) in
      match rate_map !! craft with
      | None =>
          inr {| totals := totals acc;
                 warnings := warnings acc ++ [missing_rate_warning craft] |}
      | Some rm =>
          let base_rate :=
            f_mul (Rate.base rm)
                  (if apprentice then Rate.apprentice_factor rm else f_one) in
          let fringe_rate := Rate.fringe rm in
          let base_pay := f_mul base_rate hours in
          let fringe_pay := f_mul fringe_rate hours in
          let gross := f_add base_pay fringe_pay in
          inr {| totals :=
                   {| Totals.hours := f_add (Totals.hours (totals acc)) hours;
                      Totals.base_pay :=
                        f_add (Totals.base_pay (totals acc)) base_pay;
                      Totals.fringe :=
                        f_add (Totals.fringe (totals acc)) fringe_pay;
                      Totals.gross := f_add (Totals.gross (totals acc)) gross |};
                 warnings := warnings acc |}
      end
  end.

(** Lines 115-155: the rate lookup is built first, then the rows are
    read in order; the first [TypeError] ends the computation. *)
Definition aggregate (rates : list (WageRateDoc F))
    (rows : list (TimesheetEntryDoc F)) : exn + Totals.t F * list string :=
  match build_rate_map rates with
  | inl e => inl e
  | inr rate_map =>
      match foldl (λ acc t,
                     match acc with
                     | inl e => inl e
                     | inr a => row_step rate_map a t
                     end)
                  (inr initial) rows with
      | inl e => inl e
      | inr acc => inr (round_totals (totals acc), warnings acc)
      end
  end.

End RawEngine.

(** The documents of the first reading, as raw documents without [None]. *)
Definition of_option {A : Type} (v : option A) : field A :=
  match v with
  | Some a => Value a
  | None => Absent
  end.

Definition of_template {F : Type} (r : WageRate.t F) : WageRateDoc F :=
  {| wr_craft := of_option (WageRate.craft r);
     wr_base_rate := of_option (WageRate.base_rate r);
     wr_fringe_rate := of_option (WageRate.fringe_rate r);
     wr_apprentice_factor := of_option (WageRate.apprentice_factor r) |}.

Definition of_row {F : Type} (t : TimesheetEntry.t F) : TimesheetEntryDoc F :=
  {| ts_craft := of_option (TimesheetEntry.craft t);
     ts_hours := of_option (TimesheetEntry.hours t);
     ts_apprentice := of_option (TimesheetEntry.apprentice t) |}.

(** Back to the first reading: a key that holds [None] reads as an
    absent one. *)
Definition to_template {F : Type} (r : WageRateDoc F) : WageRate.t F :=
  {| WageRate.craft := get (wr_craft r);
     WageRate.base_rate := get (wr_base_rate r);
     WageRate.fringe_rate := get (wr_fringe_rate r);
     WageRate.apprentice_factor := get (wr_apprentice_factor r) |}.

Definition to_row {F : Type} (t : TimesheetEntryDoc F) : TimesheetEntry.t F :=
  {| TimesheetEntry.project_id := None;
     TimesheetEntry.week_ending := None;
     TimesheetEntry.craft := get (ts_craft t);
     TimesheetEntry.hours := get (ts_hours t);
     TimesheetEntry.apprentice := get (ts_apprentice t) |}.

(** A template, a row: no number of it is [None]. *)
Definition template_without_None {F : Type} (r : WageRateDoc F) : Prop :=
  wr_base_rate r ≠ Null ∧ wr_fringe_rate r ≠ Null
  ∧ wr_apprentice_factor r ≠ Null.

Definition row_without_None {F : Type} (t : TimesheetEntryDoc F) : Prop :=
  ts_hours t ≠ Null.

(** Two stored templates with the same craft, base rate and fringe rate,
    key by key. *)
Definition same_pay {F : Type} (r r' : WageRateDoc F) : Prop :=
  wr_craft r = wr_craft r'
  ∧ wr_base_rate r = wr_base_rate r'
  ∧ wr_fringe_rate r = wr_fringe_rate r'.

(** The documents with the default written under every absent key; a key
    that holds [None] is left as it is. *)
Definition with_default {A : Type} (v : field A) (default : A) : field A :=
  match v with
  | Absent => Value default
  | _ => v
  end.

Section RawDefaults.
Context {F : Type} `{PyFloat F}.

Definition template_with_defaults (r : WageRateDoc F) : WageRateDoc F :=
  {| wr_craft := wr_craft r;
     wr_base_rate := with_default (wr_base_rate r) f_zero;
     wr_fringe_rate := with_default (wr_fringe_rate r) f_zero;
     wr_apprentice_factor := with_default (wr_apprentice_factor r) f_0_6 |}.

Definition row_with_defaults (t : TimesheetEntryDoc F) : TimesheetEntryDoc F :=
  {| ts_craft := ts_craft t;
     ts_hours := with_default (ts_hours t) f_zero;
     ts_apprentice := with_default (ts_apprentice t) false |}.

End RawDefaults.

(** **** The handlers on such documents

    The store holds the documents key by key.  An [_id] is on every stored
    document. *)

Record ProjectDoc (F : Type) := {
  pr_id : string;
  pr_wage_templates : field (list (WageRateDoc F));
}.
Arguments Build_ProjectDoc {F}.
Arguments pr_id {F}.
Arguments pr_wage_templates {F}.

(** A stored timesheet entry: the two keys of the query and the keys of
    the row. *)
Record EntryDoc (F : Type) := {
  en_project_id : field string;
  en_week_ending : field string;
  en_row : TimesheetEntryDoc F;
}.
Arguments Build_EntryDoc {F}.
Arguments en_project_id {F}.
Arguments en_week_ending {F}.
Arguments en_row {F}.

Record Collections (F : Type) := {
  projects : list (ProjectDoc F);
  entries : list (EntryDoc F);
  submissions : list (Submission.t F);
}.
Arguments Build_Collections {F}.
Arguments projects {F}.
Arguments entries {F}.
Arguments submissions {F}.

(** What a call of [generate_submission] ends in: the [HTTPException] of
    line 108, an exception of the computation, which the handler does not
    catch, or the response of line 159. *)
Inductive outcome (F : Type) :=
  | NotFound (e : HTTPException)
  | Raised (e : exn)
  | Created (sub_id : nat) (sub : Submission.t F).
Arguments NotFound {F}.
Arguments Raised {F}.
Arguments Created {F}.

#[global] Instance field_eq_dec {A : Type} `{EqDecision A} :
  EqDecision (field A).
Proof. solve_decision. Defined.

(** Lines 110 and 117: [proj.get("wage_templates", [])], then
    [for r in rates], which raises [TypeError] on [None]. *)
Definition iter_get {A : Type} (v : field (list A)) : exn + list A :=
  match v with
  | Absent => inr []
  | Null => inl TypeError
  | Value l => inr l
  end.

(** The validated body of [POST /projects]: a [schemas.WageRate], whose
    [apprentice_factor] is [Optional[float]] and may be [None]. *)
Record WageRateModel (F : Type) := {
  m_craft : string;
  m_base_rate : F;
  m_fringe_rate : F;
  m_apprentice_factor : option F;
}.
Arguments Build_WageRateModel {F}.
Arguments m_craft {F}.
Arguments m_base_rate {F}.
Arguments m_fringe_rate {F}.
Arguments m_apprentice_factor {F}.

(** Modelled from the spec: the document [database.create_document] keeps
    of a [schemas.WageRate].  Section 6: it "persists a new immutable
    document"; every field of the model is a key of the document, and
    [None] is kept as [None]. *)
Definition stored_template {F : Type} (m : WageRateModel F) : WageRateDoc F :=
  {| wr_craft := Value (m_craft m);
     wr_base_rate := Value (m_base_rate m);
     wr_fringe_rate := Value (m_fringe_rate m);
     wr_apprentice_factor :=
       match m_apprentice_factor m with
       | Some x => Value x
       | None => Null
       end |}.

Section RawHandlers.
Context {F : Type} `{PyFloat F}.

(** Modelled from the spec: [database.get_documents] on the collection
    ["project"] with the filter [{"_id": {"$exists": True}}].  Section 6:
    the query "returns all documents whose fields exactly match filter";
    every stored document has an [_id], so all projects are returned. *)
Definition get_documents_project (db : Collections F) : list (ProjectDoc F) :=
  projects db.

(** Modelled from the spec: [database.get_documents] on the collection
    ["timesheetentry"] with the filter of line 113.  Section 6: "returns
    all documents whose fields exactly match filter": the entries that
    hold the two strings under ["project_id"] and ["week_ending"]. *)
Definition get_documents_timesheetentry (db : Collections F)
    (project_id week_ending : string) : list (EntryDoc F) :=
  filter (λ e, en_project_id e = Value project_id
               ∧ en_week_ending e = Value week_ending)
         (entries db).

(** Modelled from the spec: [database.create_document] on the collection
    ["submission"].  Section 6: "persists a new immutable document,
    returns a newly assigned identifier".  The identifier is the position
    of the document in its collection. *)
Definition create_document_submission (db : Collections F)
    (sub : Submission.t F) : nat * Collections F :=
  (length (submissions db),
   {| projects := projects db;
      entries := entries db;
      submissions := submissions db ++ [sub] |}).

(** Modelled from the spec: [database.create_document] on the collection
    ["project"].  The store chooses the identifier; [new_id] is its
    rendering as a string.  The document holds the templates of the
    payload, each as [stored_template] keeps it. *)
Definition create_document_project (new_id : string) (db : Collections F)
    (wage_templates : list (WageRateModel F)) : string * Collections F :=
  (new_id,
   {| projects :=
        projects db
        ++ [{| pr_id := new_id;
               pr_wage_templates := Value (stored_template <$> wage_templates) |}];
      entries := entries db;
      submissions := submissions db |}).

(** Line 106. *)
Definition find_project (docs : list (ProjectDoc F)) (project_id : string)
    : option (ProjectDoc F) :=
  List.find (λ p, bool_decide (pr_id p = project_id)) docs.

(** Line 113, and what the loop of lines 133-136 reads of each entry. *)
Definition get_rows (db : Collections F) (project_id week_ending : string)
    : list (TimesheetEntryDoc F) :=
  en_row <$> get_documents_timesheetentry db project_id week_ending.

(** Lines 102-159.  An exception leaves the store as it was: the only
    write is the [create_document] of line 158. *)
Definition generate_submission (req : GenerateRequest.t) (db : Collections F)
    : outcome F * Collections F :=
  let docs := get_documents_project db in
  match find_project docs (GenerateRequest.project_id req) with
  | None =>
      (NotFound {| status_code := 404; detail := "Project not found" |}, db)
  | Some proj =>
      let rows :=
        get_rows db (GenerateRequest.project_id req)
                 (GenerateRequest.week_ending req) in
      match iter_get (pr_wage_templates proj) with
      | inl e => (Raised e, db)
      | inr rates =>
          match aggregate rates rows with
          | inl e => (Raised e, db)
          | inr (totals, warnings) =>
              let sub :=
                {| Submission.project_id := GenerateRequest.project_id req;
                   Submission.week_ending := GenerateRequest.week_ending req;
                   Submission.totals := totals;
                   Submission.warnings := warnings;
                   Submission.signer_name := None;
                   Submission.signer_title := None;
                   Submission.signed_at := None;
                   Submission.status := "generated" |} in
              let '(sub_id, db') := create_document_submission db sub in
              (Created sub_id sub, db')
          end
      end
  end.

(** Lines 54-57; the response is [{"id": project_id}]. *)
Definition create_project (new_id : string)
    (wage_templates : list (WageRateModel F)) (db : Collections F)
    : string * Collections F :=
  create_document_project new_id db wage_templates.

(** Lines 59-61: [get_documents("project", {})]. *)
Definition list_projects (db : Collections F) : list (ProjectDoc F) :=
  projects db.

End RawHandlers.

(** The stores of the first reading, as stores of raw documents. *)
Definition of_project {F : Type} (p : Project.t F) : ProjectDoc F :=
  {| pr_id := Project._id p;
     pr_wage_templates :=
       of_option (fmap (M := list) of_template <$> Project.wage_templates p) |}.

Definition of_entry {F : Type} (t : TimesheetEntry.t F) : EntryDoc F :=
  {| en_project_id := of_option (TimesheetEntry.project_id t);
     en_week_ending := of_option (TimesheetEntry.week_ending t);
     en_row := of_row t |}.

Definition of_store {F : Type} (db : Store.t F) : Collections F :=
  {| projects := of_project <$> Store.project db;
     entries := of_entry <$> Store.timesheetentry db;
     submissions := Store.submission db |}.

Definition of_response {F : Type} (r : HTTPException + nat * Submission.t F)
    : outcome F :=
  match r with
  | inl e => NotFound e
  | inr (sub_id, sub) => Created sub_id sub
  end.

End Raw.

(** *** The constraints of schemas.py, in exact arithmetic

    [WageRate]: [base_rate] with [ge=0], [fringe_rate] with [ge=0],
    [apprentice_factor] with [ge=0, le=1].  [TimesheetEntry]: [hours] with
    [ge=0].  Each constraint bears on the value of a key that is present. *)

Module Schema.

Definition WageRate_ok (r : WageRate.t Qc) : Prop :=
  (∀ x, WageRate.base_rate r = Some x → (0 ≤ x)%Qc)
  ∧ (∀ x, WageRate.fringe_rate r = Some x → (0 ≤ x)%Qc)
  ∧ (∀ x, WageRate.apprentice_factor r = Some x → (0 ≤ x)%Qc ∧ (x ≤ 1)%Qc).

Definition TimesheetEntry_ok (t : TimesheetEntry.t Qc) : Prop :=
  ∀ h, TimesheetEntry.hours t = Some h → (0 ≤ h)%Qc.

(** Totals none of which is negative. *)
Definition Totals_nonneg (v : Totals.t Qc) : Prop :=
  (0 ≤ Totals.hours v)%Qc ∧ (0 ≤ Totals.base_pay v)%Qc
  ∧ (0 ≤ Totals.fringe v)%Qc ∧ (0 ≤ Totals.gross v)%Qc.

End Schema.

(** *** Sums of totals, in exact arithmetic *)

Definition totals_plus (a b : Totals.t Qc) : Totals.t Qc :=
  {| Totals.hours := (Totals.hours a + Totals.hours b)%Qc;
     Totals.base_pay := (Totals.base_pay a + Totals.base_pay b)%Qc;
     Totals.fringe := (Totals.fringe a + Totals.fringe b)%Qc;
     Totals.gross := (Totals.gross a + Totals.gross b)%Qc |}.

(** *** Three rows whose order matters in binary64

    One Laborer template at 41.1 and rows of 5.0, 4.75 and 9.5 hours: the
    exact base pay is 791.175. *)

Module ScenarioOrder.
Import Binary64.

Definition laborer : WageRate.t spec_float :=
  {| WageRate.craft := Some "Laborer";
     WageRate.base_rate := Some (literal 411 1);
     WageRate.fringe_rate := Some (S754_zero false);
     WageRate.apprentice_factor := None |}.

Definition rows_a : list (TimesheetEntry.t spec_float) :=
  [Scenario.row "Laborer" (of_Z 5) false;
   Scenario.row "Laborer" (literal 475 2) false;
   Scenario.row "Laborer" (literal 95 1) false].

Definition rows_b : list (TimesheetEntry.t spec_float) :=
  [Scenario.row "Laborer" (of_Z 5) false;
   Scenario.row "Laborer" (literal 95 1) false;
   Scenario.row "Laborer" (literal 475 2) false].

End ScenarioOrder.

(** *** Templates compared without their apprentice factor *)

Section SameRates.
Context {F : Type}.

(** Two templates with the same craft, base rate and fringe rate. *)
Definition same_pay (r r' : WageRate.t F) : Prop :=
  WageRate.craft r = WageRate.craft r'
  ∧ WageRate.base_rate r = WageRate.base_rate r'
  ∧ WageRate.fringe_rate r = WageRate.fringe_rate r'.

(** Two rate lookups with the same keys and, under each key, the same
    base and fringe. *)
Definition same_rates (m m' : gmap (option string) (Rate.t F)) : Prop :=
  ∀ craft,
    option_Forall2
      (λ e e', Rate.base e = Rate.base e' ∧ Rate.fringe e = Rate.fringe e')
      (m !! craft) (m' !! craft).

End SameRates.

(** A row with its apprentice flag cleared. *)
Definition journeyman {F : Type} (t : TimesheetEntry.t F) : TimesheetEntry.t F :=
  {| TimesheetEntry.project_id := TimesheetEntry.project_id t;
     TimesheetEntry.week_ending := TimesheetEntry.week_ending t;
     TimesheetEntry.craft := TimesheetEntry.craft t;
     TimesheetEntry.hours := TimesheetEntry.hours t;
     TimesheetEntry.apprentice := Some false |}.

(** *** A row whose rounded pays do not add up

    One Laborer template at 1.0 and 1.0 and a row of 0.125 hours: base pay
    and fringe are 0.125 each and the gross is 0.25, all exact in
    binary64. *)

Module ScenarioCents.

Definition laborer : WageRate.t spec_float :=
  {| WageRate.craft := Some "Laborer";
     WageRate.base_rate := Some (Binary64.of_Z 1);
     WageRate.fringe_rate := Some (Binary64.of_Z 1);
     WageRate.apprentice_factor := None |}.

Definition rows : list (TimesheetEntry.t spec_float) :=
  [Scenario.row "Laborer" (Binary64.literal 125 3) false].

Definition laborer_exact : WageRate.t Qc :=
  {| WageRate.craft := Some "Laborer";
     WageRate.base_rate := Some (Q2Qc 1);
     WageRate.fringe_rate := Some (Q2Qc 1);
     WageRate.apprentice_factor := None |}.

Definition rows_exact : list (TimesheetEntry.t Qc) :=
  [ScenarioExact.row "Laborer" (Q2Qc (1 # 8)) false].

End ScenarioCents.

(** *** From [Qc] to [Q]

    Order and arithmetic of [Qc] are those of [Q] on the reduced
    fractions: the tactic states a goal and its hypotheses over [Q]. *)

Ltac qc_to_q :=
  unfold Qcle, Qclt, Qcminus, Qcopp, Qcplus, Qcmult, Q2Qc in *;
  cbn [this] in *;
  rewrite ?Qred_correct in *.

(** *** Stored documents with [None], in binary64

    What [POST /projects] keeps of a template sent with
    ["apprentice_factor": null]: the key is there and holds [None]. *)

Module ScenarioNone.
Import Binary64.

Definition template (craft : string) (base_rate fringe_rate : Z)
    (apprentice_factor : Raw.field spec_float) : Raw.WageRateDoc spec_float :=
  {| Raw.wr_craft := Raw.Value craft;
     Raw.wr_base_rate := Raw.Value (of_Z base_rate);
     Raw.wr_fringe_rate := Raw.Value (of_Z fringe_rate);
     Raw.wr_apprentice_factor := apprentice_factor |}.

Definition electrician : Raw.WageRateDoc spec_float :=
  template "Electrician" 50 5 (Raw.Value (literal 6 1)).

Definition electrician_None : Raw.WageRateDoc spec_float :=
  template "Electrician" 50 5 Raw.Null.

Definition electrician_later : Raw.WageRateDoc spec_float :=
  template "Electrician" 60 6 (Raw.Value (literal 6 1)).

Definition roofer_None : Raw.WageRateDoc spec_float :=
  template "Roofer" 40 4 Raw.Null.

Definition row (craft : string) (hours : Z) (apprentice : bool)
    : Raw.TimesheetEntryDoc spec_float :=
  {| Raw.ts_craft := Raw.Value craft;
     Raw.ts_hours := Raw.Value (of_Z hours);
     Raw.ts_apprentice := Raw.Value apprentice |}.

(** One Electrician row of 8 hours, not an apprentice. *)
Definition rows_A : list (Raw.TimesheetEntryDoc spec_float) :=
  [row "Electrician" 8 false].

(** Documents that omit keys: a template with a craft and a base rate
    only, an apprentice row of 10 hours, and a row with nothing but its
    craft. *)
Definition electrician_sparse : Raw.WageRateDoc spec_float :=
  {| Raw.wr_craft := Raw.Value "Electrician";
     Raw.wr_base_rate := Raw.Value (of_Z 50);
     Raw.wr_fringe_rate := Raw.Absent;
     Raw.wr_apprentice_factor := Raw.Absent |}.

Definition rows_sparse : list (Raw.TimesheetEntryDoc spec_float) :=
  [row "Electrician" 10 true;
   {| Raw.ts_craft := Raw.Value "Electrician";
      Raw.ts_hours := Raw.Absent;
      Raw.ts_apprentice := Raw.Absent |}].

(** The scenario store, key by key, and a store whose project holds the
    sparse template and whose entries are the sparse rows. *)
Definition db : Raw.Collections spec_float := Raw.of_store Scenario.db.

Definition db_sparse : Raw.Collections spec_float :=
  {| Raw.projects :=
       [{| Raw.pr_id := "p1";
           Raw.pr_wage_templates := Raw.Value [electrician_sparse] |}];
     Raw.entries :=
       (λ t, {| Raw.en_project_id := Raw.Value "p1";
                Raw.en_week_ending := Raw.Value "2024-01-07";
                Raw.en_row := t |}) <$> rows_sparse;
     Raw.submissions := [] |}.

(** Two bodies of [POST /projects]: an Electrician template with the
    factor 0.6, and the same with ["apprentice_factor": null]. *)
Definition payload : list (Raw.WageRateModel spec_float) :=
  [{| Raw.m_craft := "Electrician";
      Raw.m_base_rate := of_Z 50;
      Raw.m_fringe_rate := of_Z 5;
      Raw.m_apprentice_factor := Some (literal 6 1) |}].

Definition payload_None : list (Raw.WageRateModel spec_float) :=
  [{| Raw.m_craft := "Electrician";
      Raw.m_base_rate := of_Z 50;
      Raw.m_fringe_rate := of_Z 5;
      Raw.m_apprentice_factor := None |}].

(** A request for project p2, which has one stored entry of 3 hours. *)
Definition request_p2 : GenerateRequest.t :=
  {| GenerateRequest.project_id := "p2";
     GenerateRequest.week_ending := "2024-01-07" |}.

End ScenarioNone.

(** ** Facts about the rate lookup and the loop over the rows

    These hold for any arithmetic. *)

Lemma last_shadowed {A} (l1 l2 l3 : list A) (x y : A) :
  last (l1 ++ x :: l2 ++ y :: l3) = last (l1 ++ l2 ++ y :: l3).
Proof.
  transitivity (last (y :: l3)).
  - change (x :: l2 ++ y :: l3) with ((x :: l2) ++ y :: l3).
    by rewrite app_assoc, last_app_cons.
  - by rewrite app_assoc, last_app_cons.
Qed.

Section WageEngineFacts.
Context {F : Type} `{PyFloat F}.
Implicit Types (rates : list (WageRate.t F)) (r : WageRate.t F).
Implicit Types (rows : list (TimesheetEntry.t F)) (t : TimesheetEntry.t F).
Implicit Types (rate_map : gmap (option string) (Rate.t F)).
Implicit Types (acc : Accumulators F) (craft : option string).

Lemma build_rate_map_snoc rates r :
  build_rate_map (rates ++ [r])
  = <[WageRate.craft r := rate_map_entry r]> (build_rate_map rates).
Proof. unfold build_rate_map. by rewrite foldl_snoc. Qed.

(** The lookup holds, for each craft, the entry of the last template that
    names it. *)
Lemma build_rate_map_lookup rates craft :
  build_rate_map rates !! craft
  = rate_map_entry <$> last (filter (λ r, WageRate.craft r = craft) rates).
Proof.
  induction rates as [|r rates IH] using rev_ind; [done|].
  rewrite build_rate_map_snoc, filter_app.
  destruct (decide (WageRate.craft r = craft)) as [Heq|Hne].
  - rewrite filter_cons_True by done. rewrite filter_nil, last_snoc.
    subst craft. by rewrite lookup_insert_eq.
  - rewrite filter_cons_False by done. rewrite filter_nil, app_nil_r.
    by rewrite lookup_insert_ne.
Qed.

Lemma build_rate_map_lookup_last rates r post :
  (∀ r', r' ∈ post → WageRate.craft r' ≠ WageRate.craft r) →
  build_rate_map (rates ++ r :: post) !! WageRate.craft r
  = Some (rate_map_entry r).
Proof.
  intros Hpost. rewrite build_rate_map_lookup, filter_app.
  rewrite filter_cons_True by done.
  replace (filter (λ r', WageRate.craft r' = WageRate.craft r) post)
    with (@nil (WageRate.t F)).
  - by rewrite last_snoc.
  - symmetry. induction post as [|r' post IH]; [done|].
    rewrite filter_cons_False; [apply IH|apply Hpost; left].
    intros r'' Hin. apply Hpost. by right.
Qed.

Lemma build_rate_map_lookup_Some rates craft rm :
  build_rate_map rates !! craft = Some rm →
  ∃ r, r ∈ rates ∧ WageRate.craft r = craft ∧ rm = rate_map_entry r.
Proof.
  rewrite build_rate_map_lookup. intros Hl.
  destruct (last _) as [r|] eqn:Hlast; [|done].
  injection Hl as <-. exists r.
  apply last_Some_elem_of in Hlast.
  apply list_elem_of_filter in Hlast as [Hcraft Hin]. eauto.
Qed.

(** A template shadowed by a later one of the same craft leaves no trace. *)
Lemma build_rate_map_shadowed pre r mid r' post :
  WageRate.craft r = WageRate.craft r' →
  build_rate_map (pre ++ r :: mid ++ r' :: post)
  = build_rate_map (pre ++ mid ++ r' :: post).
Proof.
  intros Hcraft. apply map_eq. intros craft.
  rewrite !build_rate_map_lookup. f_equal.
  rewrite !filter_app.
  destruct (decide (WageRate.craft r = craft)) as [Heq|Hne].
  - rewrite (filter_cons_True _ r) by done.
    rewrite filter_app, (filter_cons_True _ r') by congruence.
    apply last_shadowed.
  - rewrite (filter_cons_False _ r) by done. by rewrite filter_app.
Qed.

Lemma accumulate_snoc rates rows t :
  accumulate rates (rows ++ [t])
  = row_step (build_rate_map rates) (accumulate rates rows) t.
Proof. unfold accumulate. by rewrite foldl_snoc. Qed.

Lemma row_step_matched rate_map acc t rm :
  rate_map !! TimesheetEntry.craft t = Some rm →
  row_step rate_map acc t
  = let hours := dict_get (TimesheetEntry.hours t) f_zero in
    let base_pay :=
      f_mul (f_mul (Rate.base rm)
                   (if dict_get (TimesheetEntry.apprentice t) false
                    then Rate.apprentice_factor rm else f_one))
            hours in
    let fringe_pay := f_mul (Rate.fringe rm) hours in
    {| totals :=
         {| Totals.hours := f_add (Totals.hours (totals acc)) hours;
            Totals.base_pay := f_add (Totals.base_pay (totals acc)) base_pay;
            Totals.fringe := f_add (Totals.fringe (totals acc)) fringe_pay;
            Totals.gross :=
              f_add (Totals.gross (totals acc)) (f_add base_pay fringe_pay) |};
       warnings := warnings acc |}.
Proof. intros Hrm. unfold row_step. by rewrite Hrm. Qed.

Lemma row_step_unmatched rate_map acc t :
  rate_map !! TimesheetEntry.craft t = None →
  row_step rate_map acc t
  = {| totals := totals acc;
       warnings :=
         warnings acc ++ [missing_rate_warning (TimesheetEntry.craft t)] |}.
Proof. intros Hrm. unfold row_step. by rewrite Hrm. Qed.

(** The warnings: one per unmatched row, in the order of the rows. *)
Lemma foldl_row_step_warnings rate_map acc rows :
  warnings (foldl (row_step rate_map) acc rows)
  = warnings acc
    ++ ((missing_rate_warning ∘ TimesheetEntry.craft)
        <$> filter (λ t, rate_map !! TimesheetEntry.craft t = None) rows).
Proof.
  revert acc. induction rows as [|t rows IH]; intros acc; simpl.
  - by rewrite app_nil_r.
  - rewrite IH.
    destruct (rate_map !! TimesheetEntry.craft t) as [rm|] eqn:Hrm.
    + rewrite filter_cons_False by (rewrite Hrm; done).
      by rewrite (row_step_matched _ _ _ rm).
    + rewrite filter_cons_True by done.
      rewrite row_step_unmatched by done. simpl. by rewrite <- app_assoc.
Qed.

(** The totals: those of the matched rows alone. *)
Lemma foldl_row_step_totals rate_map acc acc' rows :
  totals acc = totals acc' →
  totals (foldl (row_step rate_map) acc rows)
  = totals (foldl (row_step rate_map) acc'
              (filter (λ t, is_Some (rate_map !! TimesheetEntry.craft t)) rows)).
Proof.
  revert acc acc'. induction rows as [|t rows IH]; intros acc acc' Htot; simpl.
  - done.
  - destruct (rate_map !! TimesheetEntry.craft t) as [rm|] eqn:Hrm.
    + rewrite filter_cons_True by (rewrite Hrm; eauto). simpl.
      apply IH. rewrite !(row_step_matched _ _ _ rm) by done. simpl.
      by rewrite Htot.
    + rewrite filter_cons_False by (rewrite Hrm; by intros [? ?]).
      apply IH. by rewrite row_step_unmatched.
Qed.

End WageEngineFacts.

(** ** Facts about rounding *)

Lemma round_half_even_spec (q : Q) :
  Rounding.nearest_ties_even q (Rounding.round_half_even q).
Proof.
  unfold Rounding.nearest_ties_even, Rounding.round_half_even.
  pose proof (Qfloor_le q) as Hlo. pose proof (Qlt_floor q) as Hhi.
  rewrite inject_Z_plus in Hhi. change (inject_Z 1) with 1%Q in Hhi.
  destruct (Qcompare_spec (q - inject_Z (Qfloor q)) (1 # 2)) as [Heq|Hlt|Hgt].
  - destruct (Z.even (Qfloor q)) eqn:Hev.
    + split; [lra|done].
    + rewrite inject_Z_plus. change (inject_Z 1) with 1%Q.
      split; [lra|]. intros _. rewrite Z.even_add, Hev. reflexivity.
  - split; [lra|]. intros [Ht|Ht]; lra.
  - rewrite inject_Z_plus. change (inject_Z 1) with 1%Q.
    split; [lra|]. intros [Ht|Ht]; lra.
Qed.

(** The characterisation fixes the integer. *)
Lemma nearest_ties_even_unique (q : Q) (n n' : Z) :
  Rounding.nearest_ties_even q n → Rounding.nearest_ties_even q n' → n = n'.
Proof.
  intros [[H1 H2] He] [[H1' H2'] He'].
  assert (Hle : (n <= n' + 1)%Z).
  { rewrite Zle_Qle, inject_Z_plus. change (inject_Z 1) with 1%Q. lra. }
  assert (Hge : (n' <= n + 1)%Z).
  { rewrite Zle_Qle, inject_Z_plus. change (inject_Z 1) with 1%Q. lra. }
  destruct (Z.eq_dec n n') as [|Hne]; [done|exfalso].
  assert (Hcase : n = (n' + 1)%Z ∨ n' = (n + 1)%Z) by lia.
  destruct Hcase as [->| ->].
  - rewrite inject_Z_plus in H1, He. change (inject_Z 1) with 1%Q in H1, He.
    assert (Hev : Z.even (n' + 1) = true) by (apply He; left; lra).
    assert (Hev' : Z.even n' = true) by (apply He'; right; lra).
    rewrite Z.even_add, Hev' in Hev. discriminate.
  - rewrite inject_Z_plus in H1', He'.
    change (inject_Z 1) with 1%Q in H1', He'.
    assert (Hev : Z.even (n + 1) = true) by (apply He'; left; lra).
    assert (Hev' : Z.even n = true) by (apply He; right; lra).
    rewrite Z.even_add, Hev' in Hev. discriminate.
Qed.

(** ** Facts about the handler and the store *)

Section HandlerFacts.
Context {F : Type} `{PyFloat F}.

Lemma find_project_None (projects : list (Project.t F)) (project_id : string) :
  (∀ p, p ∈ projects → Project._id p ≠ project_id) →
  find_project projects project_id = None.
Proof.
  unfold find_project. induction projects as [|p projects IH]; intros Hall.
  - done.
  - simpl. rewrite bool_decide_eq_false_2 by (apply Hall; left).
    apply IH. intros p' Hin. apply Hall. by right.
Qed.

Lemma find_project_Some (projects : list (Project.t F)) (project_id : string)
    (proj : Project.t F) :
  find_project projects project_id = Some proj →
  proj ∈ projects ∧ Project._id proj = project_id.
Proof.
  unfold find_project. intros [Hin Hid]%List.find_some.
  split; [by apply list_elem_of_In|by apply bool_decide_eq_true in Hid].
Qed.

(** What the handler does once the project is found. *)
Lemma generate_submission_found (req : GenerateRequest.t) (db : Store.t F)
    (proj : Project.t F) :
  find_project (Store.project db) (GenerateRequest.project_id req) = Some proj →
  let rows :=
    filter (λ t, TimesheetEntry.project_id t
                 = Some (GenerateRequest.project_id req)
                 ∧ TimesheetEntry.week_ending t
                   = Some (GenerateRequest.week_ending req))
           (Store.timesheetentry db) in
  let result := aggregate (dict_get (Project.wage_templates proj) []) rows in
  let sub :=
    {| Submission.project_id := GenerateRequest.project_id req;
       Submission.week_ending := GenerateRequest.week_ending req;
       Submission.totals := result.1;
       Submission.warnings := result.2;
       Submission.signer_name := None;
       Submission.signer_title := None;
       Submission.signed_at := None;
       Submission.status := "generated" |} in
  generate_submission req db
  = (inr (length (Store.submission db), sub),
     {| Store.project := Store.project db;
        Store.timesheetentry := Store.timesheetentry db;
        Store.submission := Store.submission db ++ [sub] |}).
Proof.
  intros Hfind. unfold generate_submission, get_documents_project.
  rewrite Hfind. reflexivity.
Qed.

End HandlerFacts.

(** ** Facts of exact arithmetic *)

Lemma Qcle_plus_nonneg (x c : Qc) : (0 ≤ c)%Qc → (x ≤ x + c)%Qc.
Proof.
  intros Hc. rewrite <- (Qcplus_0_r x) at 1. by apply Qcplus_le_mono_l.
Qed.

Lemma foldl_row_step_gross (rate_map : gmap (option string) (Rate.t Qc))
    (acc : Accumulators Qc) (rows : list (TimesheetEntry.t Qc)) :
  Totals.gross (totals acc)
  = (Totals.base_pay (totals acc) + Totals.fringe (totals acc))%Qc →
  let v := totals (foldl (row_step rate_map) acc rows) in
  Totals.gross v = (Totals.base_pay v + Totals.fringe v)%Qc.
Proof.
  revert acc. induction rows as [|t rows IH]; intros acc Hacc; simpl.
  - done.
  - apply IH. unfold row_step.
    destruct (rate_map !! TimesheetEntry.craft t) as [rm|]; simpl.
    + rewrite Hacc. ring.
    + done.
Qed.

(** The lookup built from non-negative templates holds non-negative rates;
    the defaults 0 and 0.6 are non-negative too. *)
Lemma rate_map_entry_nonneg (r : WageRate.t Qc) :
  (∀ x, WageRate.base_rate r = Some x → (0 ≤ x)%Qc) →
  (∀ x, WageRate.fringe_rate r = Some x → (0 ≤ x)%Qc) →
  (∀ x, WageRate.apprentice_factor r = Some x → (0 ≤ x)%Qc) →
  (0 ≤ Rate.base (rate_map_entry r))%Qc
  ∧ (0 ≤ Rate.fringe (rate_map_entry r))%Qc
  ∧ (0 ≤ Rate.apprentice_factor (rate_map_entry r))%Qc.
Proof.
  intros Hb Hf Ha. unfold rate_map_entry. simpl.
  destruct (WageRate.base_rate r), (WageRate.fringe_rate r),
    (WageRate.apprentice_factor r); simpl; repeat split;
    try (by eauto); by vm_compute.
Qed.


(** ** Facts about binary64

    Rounding is monotone: adding a number that is not negative to a
    well-formed double never gives a smaller double.  The proofs follow
    [binary_round_aux] of SpecFloat through its two right shifts. *)

Module Binary64Facts.
Import Binary64.
Local Open Scope Z_scope.

Lemma pow2_pos (e : Z) : (0 < pow2 e)%Q.
Proof. unfold pow2. apply Qpower_0_lt. reflexivity. Qed.

Lemma pow2_add (a b : Z) : (pow2 (a + b) == pow2 a * pow2 b)%Q.
Proof. unfold pow2. apply Qpower_plus. discriminate. Qed.

Lemma pow2_le (a b : Z) : a <= b -> (pow2 a <= pow2 b)%Q.
Proof.
  intros Hab. unfold pow2. apply Qpower_le_compat_l; [exact Hab|].
  discriminate.
Qed.

Lemma pow2_lt_inv (a b : Z) : (pow2 a < pow2 b)%Q -> a < b.
Proof.
  intros Hlt. destruct (Z.lt_ge_cases a b) as [|Hge]; [assumption|].
  apply pow2_le in Hge. lra.
Qed.

Lemma pow2_Z (k : Z) : 0 <= k -> (pow2 k == inject_Z (2 ^ k))%Q.
Proof. intros Hk. unfold pow2. symmetry. by apply Zpower_Qpower. Qed.

Lemma digits2_pos_bounds (m : positive) :
  2 ^ (Zpos (digits2_pos m) - 1) <= Zpos m < 2 ^ Zpos (digits2_pos m).
Proof.
  induction m as [m IH|m IH|]; simpl digits2_pos.
  - rewrite Pos2Z.inj_succ.
    replace (Z.succ (Zpos (digits2_pos m)) - 1) with (Z.succ (Zpos (digits2_pos m) - 1)) by lia.
    rewrite !Z.pow_succ_r by lia. lia.
  - rewrite Pos2Z.inj_succ.
    replace (Z.succ (Zpos (digits2_pos m)) - 1) with (Z.succ (Zpos (digits2_pos m) - 1)) by lia.
    rewrite !Z.pow_succ_r by lia. lia.
  - simpl. lia.
Qed.

Lemma value_mono (m1 m2 e : Z) : m1 <= m2 -> (value m1 e <= value m2 e)%Q.
Proof.
  intros Hm. unfold value. apply Qmult_le_compat_r.
  - by rewrite <- Zle_Qle.
  - apply Qlt_le_weak, pow2_pos.
Qed.

Lemma value_mono_lt (m1 m2 e : Z) : m1 < m2 -> (value m1 e < value m2 e)%Q.
Proof.
  intros Hm. unfold value. apply Qmult_lt_compat_r.
  - apply pow2_pos.
  - by rewrite <- Zlt_Qlt.
Qed.

Lemma value_mono_inv (m1 m2 e : Z) : (value m1 e <= value m2 e)%Q -> m1 <= m2.
Proof.
  intros Hv. destruct (Z.le_gt_cases m1 m2) as [|Hgt]; [assumption|].
  apply (value_mono_lt _ _ e) in Hgt. lra.
Qed.

Lemma value_mono_lt_inv (m1 m2 e : Z) : (value m1 e < value m2 e)%Q -> m1 < m2.
Proof.
  intros Hv. destruct (Z.lt_ge_cases m1 m2) as [|Hge]; [assumption|].
  apply (value_mono _ _ e) in Hge. lra.
Qed.

(** Changing the exponent: [m * 2^k * 2^e = m * 2^(e + k)]. *)
Lemma value_shift (m e k : Z) :
  0 <= k -> (value (m * 2 ^ k) e == value m (e + k))%Q.
Proof.
  intros Hk. unfold value. rewrite inject_Z_mult, pow2_add.
  rewrite <- (pow2_Z k Hk). ring.
Qed.

Lemma value_pow2 (d e : Z) : 0 <= d -> (value (2 ^ d) e == pow2 (d + e))%Q.
Proof.
  intros Hd. unfold value. rewrite pow2_add, <- (pow2_Z d Hd). reflexivity.
Qed.

Lemma value_bounds (m : positive) (e : Z) :
  (pow2 (Zpos (digits2_pos m) + e - 1) <= value (Zpos m) e
   < pow2 (Zpos (digits2_pos m) + e))%Q.
Proof.
  destruct (digits2_pos_bounds m) as [Hlo Hhi].
  assert (Hd : 0 <= Zpos (digits2_pos m) - 1) by lia.
  split.
  - replace (Zpos (digits2_pos m) + e - 1) with ((Zpos (digits2_pos m) - 1) + e) by lia.
    rewrite <- value_pow2 by assumption. by apply value_mono.
  - rewrite <- value_pow2 by lia. by apply value_mono_lt.
Qed.

(** A larger value has at least as large a magnitude. *)
Lemma mag_mono (m1 m2 : positive) (e1 e2 : Z) :
  (value (Zpos m1) e1 <= value (Zpos m2) e2)%Q ->
  Zpos (digits2_pos m1) + e1 <= Zpos (digits2_pos m2) + e2.
Proof.
  intros Hv.
  destruct (value_bounds m1 e1) as [Hlo1 _].
  destruct (value_bounds m2 e2) as [_ Hhi2].
  assert (Hlt : (pow2 (Zpos (digits2_pos m1) + e1 - 1)
                 < pow2 (Zpos (digits2_pos m2) + e2))%Q) by lra.
  apply pow2_lt_inv in Hlt. lia.
Qed.

Lemma fexp_mono (a b : Z) : a <= b -> fexp prec emax a <= fexp prec emax b.
Proof. unfold fexp, emin, prec, emax. lia. Qed.

(** Right shifts. *)
Lemma shr_1_m (mrs : shr_record) :
  0 <= shr_m mrs -> shr_m (shr_1 mrs) = shr_m mrs / 2.
Proof.
  destruct mrs as [m r s]. cbn [shr_m]. intros Hm.
  destruct m as [|[p|p|]|p]; cbn [shr_1 shr_m]; try lia.
  - reflexivity.
  - rewrite Pos2Z.inj_xI. apply Z.div_unique with 1; lia.
  - rewrite Pos2Z.inj_xO. apply Z.div_unique with 0; lia.
  - reflexivity.
Qed.

Lemma iter_pos_shr_1_m (p : positive) (mrs : shr_record) :
  0 <= shr_m mrs ->
  shr_m (SpecFloat.iter_pos shr_1 p mrs) = shr_m mrs / 2 ^ Zpos p.
Proof.
  revert mrs. induction p as [p IH|p IH|]; intros mrs Hm; simpl SpecFloat.iter_pos.
  - assert (H1 : 0 <= shr_m (shr_1 mrs)).
    { rewrite shr_1_m by assumption. apply Z.div_pos; lia. }
    assert (H2 : 0 <= shr_m (SpecFloat.iter_pos shr_1 p (shr_1 mrs))).
    { rewrite IH by assumption. apply Z.div_pos; lia. }
    rewrite IH, IH, shr_1_m by assumption.
    rewrite !Z.div_div by lia. f_equal.
    assert (Hp : Z.pos p~1 = Z.pos p + Z.pos p + 1) by lia.
    rewrite Hp, !Z.pow_add_r by lia. change (2 ^ 1) with 2. ring.
  - assert (H2 : 0 <= shr_m (SpecFloat.iter_pos shr_1 p mrs)).
    { rewrite IH by assumption. apply Z.div_pos; lia. }
    rewrite IH, IH by assumption.
    rewrite !Z.div_div by lia. f_equal.
    assert (Hp : Z.pos p~0 = Z.pos p + Z.pos p) by lia.
    rewrite Hp, !Z.pow_add_r by lia. ring.
  - rewrite shr_1_m by assumption. reflexivity.
Qed.

Lemma shr_m_of_loc (m : Z) (l : location) : shr_m (shr_record_of_loc m l) = m.
Proof. by destruct l as [|[]]. Qed.

Lemma shr_fexp_spec (m e : Z) (l : location) :
  0 <= m ->
  let k := Z.max 0 (fexp prec emax (Zdigits2 m + e) - e) in
  shr_m (shr_fexp prec emax m e l).1 = m / 2 ^ k
  /\ (shr_fexp prec emax m e l).2 = e + k.
Proof.
  intros Hm k. unfold shr_fexp, shr. fold (fexp prec emax (Zdigits2 m + e)).
  subst k. destruct (fexp prec emax (Zdigits2 m + e) - e) as [|p|p] eqn:Hk;
    cbn [fst snd].
  - rewrite shr_m_of_loc. change (Z.max 0 0) with 0.
    rewrite Z.pow_0_r, Z.div_1_r. split; [reflexivity|lia].
  - rewrite iter_pos_shr_1_m by (by rewrite shr_m_of_loc).
    rewrite shr_m_of_loc.
    replace (Z.max 0 (Z.pos p)) with (Z.pos p) by lia. split; reflexivity.
  - rewrite shr_m_of_loc.
    replace (Z.max 0 (Z.neg p)) with 0 by lia.
    rewrite Z.pow_0_r, Z.div_1_r. split; [reflexivity|lia].
Qed.

Lemma round_nearest_even_cases (m : Z) (l : location) :
  round_nearest_even m l = m \/ round_nearest_even m l = m + 1.
Proof.
  destruct l as [|[]]; cbn [round_nearest_even]; auto.
  destruct (Z.even m); auto.
Qed.

(** Flooring a value to a coarser exponent. *)
Lemma value_floor (M e k : Z) :
  0 <= k ->
  (value (M / 2 ^ k) (e + k) <= value M e
   /\ value M e < value (M / 2 ^ k + 1) (e + k))%Q.
Proof.
  intros Hk.
  assert (Hpow : 0 < 2 ^ k) by (apply Z.pow_pos_nonneg; lia).
  pose proof (Z.div_mod M (2 ^ k) ltac:(lia)) as Hdiv.
  pose proof (Z.mod_pos_bound M (2 ^ k) Hpow) as Hmod.
  rewrite <- !value_shift by assumption.
  split; [apply value_mono|apply value_mono_lt]; nia.
Qed.

Lemma Zdigits2_pos (M : Z) : 0 < M -> exists p, M = Zpos p.
Proof. destruct M; try lia. eauto. Qed.

Lemma mag_mono_Z (m1 m2 e1 e2 : Z) :
  0 < m1 -> 0 < m2 ->
  (value m1 e1 <= value m2 e2)%Q ->
  Zdigits2 m1 + e1 <= Zdigits2 m2 + e2.
Proof.
  intros [p1 ->]%Zdigits2_pos [p2 ->]%Zdigits2_pos. apply mag_mono.
Qed.

(** The first half of rounding keeps a rounded value above a
    representable one below it. *)
Lemma floor_above (mx : positive) (ex M E : Z) :
  fexp prec emax (Zpos (digits2_pos mx) + ex) = ex ->
  0 < M ->
  (value (Zpos mx) ex <= value M E)%Q ->
  let k := Z.max 0 (fexp prec emax (Zdigits2 M + E) - E) in
  (value (Zpos mx) ex <= value (M / 2 ^ k) (E + k))%Q.
Proof.
  intros Hcanon HM Hle k.
  destruct (Z.eq_dec k 0) as [Hk0|Hk0].
  { rewrite Hk0, Z.pow_0_r, Z.div_1_r, Z.add_0_r. exact Hle. }
  assert (Hk : 0 < k) by lia.
  assert (Hf : fexp prec emax (Zdigits2 M + E) = E + k) by lia.
  pose proof (mag_mono_Z (Zpos mx) M ex E ltac:(lia) HM Hle) as Hmag.
  cbn [Zdigits2] in Hmag.
  pose proof (fexp_mono _ _ Hmag) as Hfexp. rewrite Hcanon, Hf in Hfexp.
  assert (Hpow : 0 < 2 ^ k) by (apply Z.pow_pos_nonneg; lia).
  destruct (Z.eq_dec ex (E + k)) as [Heq|Hne].
  - rewrite Heq in Hle |- *.
    rewrite <- value_shift in Hle by lia.
    apply value_mono_inv in Hle.
    apply value_mono. apply Z.div_le_lower_bound; lia.
  - assert (Hlt : ex < E + k) by lia.
    destruct (Zdigits2_pos M HM) as [pM ->]. cbn [Zdigits2] in *.
    destruct (digits2_pos_bounds pM) as [HloM _].
    destruct (value_bounds mx ex) as [_ Hhi].
    unfold fexp, emin, prec, emax in Hcanon, Hf.
    assert (Hk' : k = Zpos (digits2_pos pM) - 53) by lia.
    assert (Hm1 : 2 ^ 52 <= Zpos pM / 2 ^ k).
    { apply Z.div_le_lower_bound; [lia|].
      rewrite <- Z.pow_add_r by lia.
      replace (k + 52) with (Zpos (digits2_pos pM) - 1) by lia. exact HloM. }
    apply (value_mono _ _ (E + k)) in Hm1.
    rewrite value_pow2 in Hm1 by lia.
    assert (Hp : (pow2 (Zpos (digits2_pos mx) + ex) <= pow2 (52 + (E + k)))%Q)
      by (apply pow2_le; lia).
    lra.
Qed.

Lemma fexp_ge_emin (a : Z) : -1074 <= fexp prec emax a.
Proof. unfold fexp, emin, prec, emax. lia. Qed.

(** The exponent chosen for a value not above a representable one. *)
Lemma fexp_below (mx : positive) (ex M E : Z) :
  fexp prec emax (Zpos (digits2_pos mx) + ex) = ex ->
  0 <= M -> E <= ex ->
  (value M E <= value (Zpos mx) ex)%Q ->
  fexp prec emax (Zdigits2 M + E) <= ex.
Proof.
  intros Hcanon HM HE Hle.
  destruct (Z.eq_dec M 0) as [->|Hne].
  - cbn [Zdigits2]. pose proof (fexp_ge_emin (Zpos (digits2_pos mx) + ex)).
    unfold fexp, emin, prec, emax in *. lia.
  - rewrite <- Hcanon. apply fexp_mono.
    apply (mag_mono_Z M (Zpos mx) E ex); [lia|lia|exact Hle].
Qed.

(** The first half of rounding keeps a value strictly below a
    representable one at most at it, even when rounded up. *)
Lemma floor_below (mx : positive) (ex M E : Z) :
  fexp prec emax (Zpos (digits2_pos mx) + ex) = ex ->
  0 <= M -> E <= ex ->
  (value M E < value (Zpos mx) ex)%Q ->
  let k := Z.max 0 (fexp prec emax (Zdigits2 M + E) - E) in
  E + k <= ex
  /\ (value (M / 2 ^ k + 1) (E + k) <= value (Zpos mx) ex)%Q.
Proof.
  intros Hcanon HM HE Hlt k.
  pose proof (fexp_below mx ex M E Hcanon HM HE ltac:(lra)) as Hf.
  assert (Hk : 0 <= k) by lia.
  assert (Hek : E + k <= ex) by lia.
  split; [exact Hek|].
  assert (Hpow : 0 < 2 ^ k) by (apply Z.pow_pos_nonneg; lia).
  assert (Hx : (value (Zpos mx) ex
                == value (Zpos mx * 2 ^ (ex - (E + k))) (E + k))%Q).
  { rewrite value_shift by lia. by replace (E + k + (ex - (E + k))) with ex by lia. }
  rewrite Hx in Hlt |- *.
  rewrite <- (value_shift _ E k) in Hlt by lia.
  apply value_mono_lt_inv in Hlt.
  apply value_mono.
  assert (Hq : M / 2 ^ k < Zpos mx * 2 ^ (ex - (E + k))).
  { apply Z.div_lt_upper_bound; lia. }
  lia.
Qed.

(** What [binary_round_aux] computes on a positive integer. *)
Lemma binary_round_aux_cases (s : bool) (M E : Z) (l : location) :
  0 < M ->
  let k1 := Z.max 0 (fexp prec emax (Zdigits2 M + E) - E) in
  let m1 := M / 2 ^ k1 in
  let e1 := E + k1 in
  exists m2 : Z,
    (m2 = m1 \/ m2 = m1 + 1)
    /\ let k2 := Z.max 0 (fexp prec emax (Zdigits2 m2 + e1) - e1) in
       let m3 := m2 / 2 ^ k2 in
       let e3 := e1 + k2 in
       binary_round_aux prec emax s M E l
       = match m3 with
         | Z0 => S754_zero s
         | Zpos m => if e3 <=? emax - prec
                     then S754_finite s m e3 else S754_infinity s
         | Zneg _ => S754_nan
         end.
Proof.
  intros HM k1 m1 e1. unfold binary_round_aux.
  destruct (shr_fexp_spec M E l ltac:(lia)) as [Hm1 He1].
  destruct (shr_fexp prec emax M E l) as [mrs1 e1'] eqn:Hs1.
  cbn [fst snd] in Hm1, He1. fold k1 in Hm1, He1. fold m1 in Hm1.
  fold e1 in He1. subst e1'.
  set (m2 := round_nearest_even (shr_m mrs1) (loc_of_shr_record mrs1)).
  assert (Hm1pos : 0 <= m1).
  { subst m1. apply Z.div_pos; [lia|]. apply Z.pow_pos_nonneg; lia. }
  assert (Hm2 : m2 = m1 \/ m2 = m1 + 1).
  { subst m2. rewrite <- Hm1. apply round_nearest_even_cases. }
  exists m2. split; [exact Hm2|]. cbv zeta.
  destruct (shr_fexp_spec m2 e1 loc_Exact ltac:(lia)) as [Hm3 He3].
  destruct (shr_fexp prec emax m2 e1 loc_Exact) as [mrs2 e2'] eqn:Hs2.
  cbn [fst snd] in Hm3, He3. rewrite Hm3, He3. reflexivity.
Qed.

Lemma value_0 (e : Z) : (value 0 e == 0)%Q.
Proof. unfold value. ring. Qed.

Lemma value_pos (m e : Z) : 0 < m -> (0 < value m e)%Q.
Proof. intros Hm. rewrite <- (value_0 e). by apply value_mono_lt. Qed.

Lemma value_pos_inv (m e : Z) : (0 < value m e)%Q -> 0 < m.
Proof. intros Hv. rewrite <- (value_0 e) in Hv. by apply value_mono_lt_inv in Hv. Qed.

(** Rounding a value above a representable [x] gives [+inf] or a float
    whose value is still above [x]. *)
Lemma round_above (mx : positive) (ex M E : Z) (l : location) :
  fexp prec emax (Zpos (digits2_pos mx) + ex) = ex ->
  0 < M ->
  (value (Zpos mx) ex <= value M E)%Q ->
  binary_round_aux prec emax false M E l = S754_infinity false
  \/ exists (m : positive) (e : Z),
       binary_round_aux prec emax false M E l = S754_finite false m e
       /\ (value (Zpos mx) ex <= value (Zpos m) e)%Q.
Proof.
  intros Hcanon HM Hle.
  destruct (binary_round_aux_cases false M E l HM) as (m2 & Hm2 & Heq).
  cbv zeta in Heq.
  pose proof (value_pos (Zpos mx) ex ltac:(lia)) as Hxpos.
  pose proof (floor_above mx ex M E Hcanon HM Hle) as H1. cbv zeta in H1.
  set (k1 := Z.max 0 (fexp prec emax (Zdigits2 M + E) - E)) in *.
  set (m1 := M / 2 ^ k1) in *.
  assert (Hm1 : 0 < m1) by (apply (value_pos_inv m1 (E + k1)); lra).
  assert (Hm2pos : 0 < m2) by lia.
  assert (H2 : (value (Zpos mx) ex <= value m2 (E + k1))%Q).
  { pose proof (value_mono m1 m2 (E + k1) ltac:(lia)). lra. }
  pose proof (floor_above mx ex m2 (E + k1) Hcanon Hm2pos H2) as H3.
  cbv zeta in H3.
  set (k2 := Z.max 0 (fexp prec emax (Zdigits2 m2 + (E + k1)) - (E + k1))) in *.
  set (m3 := m2 / 2 ^ k2) in *.
  assert (Hm3 : 0 < m3) by (apply (value_pos_inv m3 (E + k1 + k2)); lra).
  destruct m3 as [|p3|p3]; try lia.
  rewrite Heq. destruct (E + k1 + k2 <=? emax - prec); [right|left; reflexivity].
  eauto.
Qed.

(** Rounding a positive value strictly below a representable [x] gives
    zero or a float whose value is at most [x]; no overflow occurs. *)
Lemma round_below (s : bool) (mx : positive) (ex M E : Z) (l : location) :
  fexp prec emax (Zpos (digits2_pos mx) + ex) = ex ->
  ex <= emax - prec ->
  0 < M -> E <= ex ->
  (value M E < value (Zpos mx) ex)%Q ->
  binary_round_aux prec emax s M E l = S754_zero s
  \/ exists (m : positive) (e : Z),
       binary_round_aux prec emax s M E l = S754_finite s m e
       /\ (value (Zpos m) e <= value (Zpos mx) ex)%Q.
Proof.
  intros Hcanon Hbound HM HE Hlt.
  destruct (binary_round_aux_cases s M E l HM) as (m2 & Hm2 & Heq).
  cbv zeta in Heq.
  destruct (floor_below mx ex M E Hcanon ltac:(lia) HE Hlt) as [He1 H1].
  set (k1 := Z.max 0 (fexp prec emax (Zdigits2 M + E) - E)) in *.
  set (m1 := M / 2 ^ k1) in *.
  assert (Hm1 : 0 <= m1).
  { subst m1. apply Z.div_pos; [lia|]. apply Z.pow_pos_nonneg; lia. }
  assert (Hm2pos : 0 <= m2) by lia.
  assert (H2 : (value m2 (E + k1) <= value (Zpos mx) ex)%Q).
  { pose proof (value_mono m2 (m1 + 1) (E + k1) ltac:(lia)). lra. }
  pose proof (fexp_below mx ex m2 (E + k1) Hcanon Hm2pos He1 H2) as Hf.
  set (k2 := Z.max 0 (fexp prec emax (Zdigits2 m2 + (E + k1)) - (E + k1))) in *.
  assert (Hk2 : 0 <= k2) by lia.
  destruct (value_floor m2 (E + k1) k2 Hk2) as [H3 _].
  set (m3 := m2 / 2 ^ k2) in *.
  assert (Hm3 : 0 <= m3).
  { subst m3. apply Z.div_pos; [lia|]. apply Z.pow_pos_nonneg; lia. }
  destruct m3 as [|p3|p3]; try lia.
  - left. exact Heq.
  - right. rewrite Heq.
    replace (E + k1 + k2 <=? emax - prec) with true
      by (symmetry; apply Z.leb_le; lia).
    exists p3, (E + k1 + k2). split; [reflexivity|lra].
Qed.

(** Rounding never changes the sign. *)
Lemma round_sign (s : bool) (M E : Z) (l : location) :
  0 < M ->
  binary_round_aux prec emax s M E l = S754_zero s
  \/ binary_round_aux prec emax s M E l = S754_infinity s
  \/ exists (m : positive) (e : Z),
       binary_round_aux prec emax s M E l = S754_finite s m e.
Proof.
  intros HM.
  destruct (binary_round_aux_cases s M E l HM) as (m2 & Hm2 & Heq).
  cbv zeta in Heq.
  set (k1 := Z.max 0 (fexp prec emax (Zdigits2 M + E) - E)) in *.
  set (m1 := M / 2 ^ k1) in *.
  assert (Hm1 : 0 <= m1).
  { subst m1. apply Z.div_pos; [lia|]. apply Z.pow_pos_nonneg; lia. }
  set (k2 := Z.max 0 (fexp prec emax (Zdigits2 m2 + (E + k1)) - (E + k1))) in *.
  set (m3 := m2 / 2 ^ k2) in *.
  assert (Hm3 : 0 <= m3).
  { subst m3. apply Z.div_pos; [lia|]. apply Z.pow_pos_nonneg; lia. }
  rewrite Heq. destruct m3 as [|p3|p3]; try lia; [by left|].
  destruct (E + k1 + k2 <=? emax - prec); eauto.
Qed.

Lemma pos_iter_xO (m d : positive) :
  Zpos (Pos.iter xO m d) = Zpos m * 2 ^ Zpos d.
Proof.
  induction d as [|d IH] using Pos.peano_ind.
  - cbn [Pos.iter]. rewrite Pos2Z.inj_xO. change (2 ^ 1) with 2. lia.
  - rewrite Pos.iter_succ, Pos2Z.inj_xO, IH, Pos2Z.inj_succ.
    rewrite Z.pow_succ_r by lia. lia.
Qed.

(** Aligning a mantissa to a lower exponent keeps the value. *)
Lemma shl_align_spec (m : positive) (e e' : Z) :
  (shl_align m e e').2 = Z.min e e'
  /\ (value (Zpos (shl_align m e e').1) (shl_align m e e').2
      == value (Zpos m) e)%Q.
Proof.
  unfold shl_align. destruct (e' - e) as [|d|d] eqn:Hd; cbn [fst snd].
  - split; [lia|reflexivity].
  - split; [lia|reflexivity].
  - split; [lia|]. rewrite pos_iter_xO.
    rewrite value_shift by lia.
    by replace (e' + Z.pos d) with e by lia.
Qed.

Lemma binary_round_aux_not_negative (M E : Z) (l : location) :
  0 < M -> not_negative (binary_round_aux prec emax false M E l).
Proof.
  intros HM.
  destruct (round_sign false M E l HM) as [-> |[-> |(m & e & ->)]]; exact I.
Qed.

Lemma binary_round_not_negative (m : positive) (e : Z) :
  not_negative (binary_round prec emax false m e).
Proof.
  unfold binary_round. destruct (shl_align _ _ _) as [mz ez].
  apply binary_round_aux_not_negative. lia.
Qed.

Lemma mul_not_negative (x y : spec_float) :
  not_negative x -> not_negative y -> not_negative (mul x y).
Proof.
  unfold mul, SFmul.
  destruct x as [sx|[]| |[] mx ex], y as [sy|[]| |[] my ey];
    cbn [not_negative]; try tauto; intros _ _; try exact I.
  apply binary_round_aux_not_negative. lia.
Qed.

Lemma add_not_negative (x y : spec_float) :
  not_negative x -> not_negative y -> not_negative (add x y).
Proof.
  unfold add, SFadd.
  destruct x as [[]|[]| |[] mx ex], y as [[]|[]| |[] my ey];
    cbn [not_negative]; try tauto; intros _ _; try exact I.
  cbn [cond_Zopp]. unfold binary_normalize.
  destruct (shl_align mx ex (Z.min ex ey)) as [mx' ex'].
  destruct (shl_align my ey (Z.min ex ey)) as [my' ey']. cbn [fst].
  change (Z.pos mx' + Z.pos my') with (Z.pos (mx' + my')).
  apply binary_round_not_negative.
Qed.

Lemma to_Q_finite (s : bool) (m : positive) (e : Z) :
  to_Q (S754_finite s m e) = value (if s then Zneg m else Zpos m) e.
Proof. by destruct s. Qed.

Lemma value_opp (m : positive) (e : Z) :
  (value (Zneg m) e == - value (Zpos m) e)%Q.
Proof.
  unfold value. change (Zneg m) with (- Zpos m). rewrite inject_Z_opp. ring.
Qed.

Lemma well_formed_finite (s : bool) (m : positive) (e : Z) :
  valid_binary prec emax (S754_finite s m e) = true ->
  fexp prec emax (Zpos (digits2_pos m) + e) = e /\ e <= emax - prec.
Proof.
  cbn [valid_binary]. unfold bounded, canonical_mantissa.
  intros [H1 H2]%andb_true_iff.
  split; [by apply Z.eqb_eq|by apply Z.leb_le].
Qed.

Lemma binary_round_above (mx p : positive) (ex ez : Z) :
  fexp prec emax (Zpos (digits2_pos mx) + ex) = ex ->
  (value (Zpos mx) ex <= value (Zpos p) ez)%Q ->
  ~ lt_value (binary_round prec emax false p ez) (S754_finite false mx ex).
Proof.
  intros Hcanon Hle. unfold binary_round.
  destruct (shl_align_spec p ez (fexp prec emax (Zpos (digits2_pos p) + ez)))
    as [_ Hval].
  destruct (shl_align p ez _) as [mz ez2]. cbn [fst snd] in Hval.
  rewrite <- Hval in Hle.
  destruct (round_above mx ex (Zpos mz) ez2 loc_Exact Hcanon ltac:(lia) Hle)
    as [-> |(m & e & -> & Hm)]; cbn [lt_value].
  - discriminate.
  - rewrite !to_Q_finite. lra.
Qed.

Lemma binary_round_below (mx p : positive) (ex ez : Z) :
  fexp prec emax (Zpos (digits2_pos mx) + ex) = ex ->
  ex <= emax - prec -> ez <= ex ->
  (value (Zpos p) ez < value (Zpos mx) ex)%Q ->
  ~ lt_value (binary_round prec emax true p ez) (S754_finite true mx ex).
Proof.
  intros Hcanon Hbound Hez Hlt. unfold binary_round.
  destruct (shl_align_spec p ez (fexp prec emax (Zpos (digits2_pos p) + ez)))
    as [Hmin Hval].
  destruct (shl_align p ez _) as [mz ez2]. cbn [fst snd] in Hval, Hmin.
  rewrite <- Hval in Hlt.
  pose proof (value_pos (Zpos mx) ex ltac:(lia)) as Hxpos.
  destruct (round_below true mx ex (Zpos mz) ez2 loc_Exact Hcanon Hbound
              ltac:(lia) ltac:(lia) Hlt)
    as [-> |(m & e & -> & Hm)]; cbn [lt_value].
  - rewrite to_Q_finite, value_opp. cbn [to_Q]. lra.
  - rewrite !to_Q_finite, !value_opp. lra.
Qed.

Lemma to_Q_pos (m : positive) (e : Z) :
  (to_Q (S754_finite false m e) == value (Zpos m) e)%Q.
Proof. reflexivity. Qed.

Lemma to_Q_neg (m : positive) (e : Z) :
  (to_Q (S754_finite true m e) == - value (Zpos m) e)%Q.
Proof. rewrite to_Q_finite. apply value_opp. Qed.

Lemma to_Q_zero (s : bool) : (to_Q (S754_zero s) == 0)%Q.
Proof. reflexivity. Qed.

(** Adding a number that is not negative to a well-formed double never
    gives a smaller double. *)
Lemma add_not_below (x y : spec_float) :
  valid_binary prec emax x = true ->
  not_negative y ->
  ~ lt_value (add x y) x.
Proof.
  intros Hvalid Hy. unfold add, SFadd.
  destruct x as [sx|sx| |sx mx ex], y as [sy|sy| |sy my ey];
    cbn [not_negative] in Hy; try (destruct sy; try tauto);
    try (destruct sx); cbn [lt_value]; try tauto;
    try (intros []; discriminate); try discriminate;
    rewrite ?to_Q_pos, ?to_Q_neg, ?to_Q_zero; try lra.
  1-2: pose proof (value_pos (Zpos my) ey ltac:(lia)) as Hypos; lra.
  all: destruct (well_formed_finite _ _ _ Hvalid) as [Hcanon Hbound].
  all: pose proof (value_pos (Zpos mx) ex ltac:(lia)) as Hxpos.
  all: pose proof (value_pos (Zpos my) ey ltac:(lia)) as Hypos.
  all: destruct (shl_align_spec mx ex (Z.min ex ey)) as [Hex HX].
  all: destruct (shl_align_spec my ey (Z.min ex ey)) as [Hey HY].
  all: destruct (shl_align mx ex (Z.min ex ey)) as [X ex'].
  all: destruct (shl_align my ey (Z.min ex ey)) as [Y ey'].
  all: cbn [fst snd cond_Zopp] in *.
  all: assert (Hex' : ex' = Z.min ex ey) by lia.
  all: assert (Hey' : ey' = Z.min ex ey) by lia.
  all: clear Hex Hey; subst ex' ey'.
  - (* x negative *)
    unfold binary_normalize.
    destruct (- Z.pos X + Z.pos Y) as [|p|p] eqn:Hsum.
    + cbn [lt_value]. rewrite to_Q_neg, to_Q_zero. lra.
    + pose proof (binary_round_not_negative p (Z.min ex ey)) as Hnn.
      destruct (binary_round prec emax false p (Z.min ex ey)) as [s|[]| |[] m e];
        cbn [not_negative lt_value] in *; try tauto; try discriminate;
        rewrite ?to_Q_pos, ?to_Q_neg, ?to_Q_zero.
      * lra.
      * pose proof (value_pos (Zpos m) e ltac:(lia)). lra.
    + apply binary_round_below; try assumption; try lia.
      rewrite <- HX. apply value_mono_lt. lia.
  - (* x positive *)
    unfold binary_normalize.
    change (Z.pos X + Z.pos Y) with (Z.pos (X + Y)).
    apply binary_round_above; [assumption|].
    rewrite <- HX. apply value_mono. lia.
Qed.

(** *** Well-formed doubles stay well-formed *)

Lemma Zdigits2_bounds (M : Z) :
  0 < M -> 2 ^ (Zdigits2 M - 1) <= M < 2 ^ Zdigits2 M.
Proof. intros [p ->]%Zdigits2_pos. apply digits2_pos_bounds. Qed.

Lemma Zdigits2_ge_1 (M : Z) : 0 < M -> 1 <= Zdigits2 M.
Proof. intros [p ->]%Zdigits2_pos. cbn [Zdigits2]. lia. Qed.

Lemma Zdigits2_unique (M d : Z) :
  2 ^ (d - 1) <= M < 2 ^ d -> 1 <= d -> Zdigits2 M = d.
Proof.
  intros [Hlo Hhi] Hd.
  assert (HM : 0 < M).
  { pose proof (Z.pow_pos_nonneg 2 (d - 1) ltac:(lia) ltac:(lia)). lia. }
  destruct (Zdigits2_bounds M HM) as [Hlo' Hhi'].
  pose proof (Zdigits2_ge_1 M HM) as Hd'.
  assert (H1 : d - 1 < Zdigits2 M).
  { apply (Z.pow_lt_mono_r_iff 2); lia. }
  assert (H2 : Zdigits2 M - 1 < d).
  { apply (Z.pow_lt_mono_r_iff 2); lia. }
  lia.
Qed.

Lemma Zdigits2_mono (a b : Z) : 0 < a -> a <= b -> Zdigits2 a <= Zdigits2 b.
Proof.
  intros Ha Hab.
  destruct (Zdigits2_bounds a Ha) as [Hlo _].
  destruct (Zdigits2_bounds b ltac:(lia)) as [_ Hhi].
  pose proof (Zdigits2_ge_1 b ltac:(lia)).
  assert (H1 : Zdigits2 a - 1 < Zdigits2 b).
  { apply (Z.pow_lt_mono_r_iff 2); lia. }
  lia.
Qed.

Lemma Zdigits2_div (M k : Z) :
  0 < M -> 0 <= k -> 0 < M / 2 ^ k ->
  Zdigits2 (M / 2 ^ k) = Zdigits2 M - k.
Proof.
  intros HM Hk Hq.
  destruct (Zdigits2_bounds M HM) as [Hlo Hhi].
  pose proof (Zdigits2_ge_1 M HM) as Hd.
  assert (Hpow : 0 < 2 ^ k) by (apply Z.pow_pos_nonneg; lia).
  assert (Hkd : k < Zdigits2 M).
  { apply (Z.pow_lt_mono_r_iff 2); [lia|lia|].
    pose proof (Z.mul_div_le M (2 ^ k) Hpow). nia. }
  apply Zdigits2_unique; [|lia]. split.
  - apply Z.div_le_lower_bound; [lia|].
    rewrite <- Z.pow_add_r by lia.
    by replace (k + (Zdigits2 M - k - 1)) with (Zdigits2 M - 1) by lia.
  - apply Z.div_lt_upper_bound; [lia|].
    rewrite <- Z.pow_add_r by lia.
    by replace (k + (Zdigits2 M - k)) with (Zdigits2 M) by lia.
Qed.

Lemma Zdigits2_mul_pow2 (M k : Z) :
  0 < M -> 0 <= k -> Zdigits2 (M * 2 ^ k) = Zdigits2 M + k.
Proof.
  intros HM Hk.
  destruct (Zdigits2_bounds M HM) as [Hlo Hhi].
  pose proof (Zdigits2_ge_1 M HM) as Hd.
  assert (Hpow : 0 < 2 ^ k) by (apply Z.pow_pos_nonneg; lia).
  apply Zdigits2_unique; [|lia]. split.
  - replace (Zdigits2 M + k - 1) with ((Zdigits2 M - 1) + k) by lia.
    rewrite Z.pow_add_r by lia. nia.
  - rewrite Z.pow_add_r by lia. nia.
Qed.

Lemma Zdigits2_mul (a b : Z) :
  0 < a -> 0 < b -> Zdigits2 a + Zdigits2 b - 1 <= Zdigits2 (a * b).
Proof.
  intros Ha Hb.
  destruct (Zdigits2_bounds a Ha) as [Hloa _].
  destruct (Zdigits2_bounds b Hb) as [Hlob _].
  destruct (Zdigits2_bounds (a * b) ltac:(nia)) as [_ Hhi].
  pose proof (Zdigits2_ge_1 a Ha). pose proof (Zdigits2_ge_1 b Hb).
  pose proof (Zdigits2_ge_1 (a * b) ltac:(nia)).
  assert (Hp : 2 ^ (Zdigits2 a - 1 + (Zdigits2 b - 1)) <= a * b).
  { rewrite Z.pow_add_r by lia.
    pose proof (Z.pow_pos_nonneg 2 (Zdigits2 a - 1) ltac:(lia) ltac:(lia)).
    pose proof (Z.pow_pos_nonneg 2 (Zdigits2 b - 1) ltac:(lia) ltac:(lia)).
    nia. }
  assert (Hdig : Zdigits2 a - 1 + (Zdigits2 b - 1) < Zdigits2 (a * b)).
  { apply (Z.pow_lt_mono_r_iff 2); lia. }
  lia.
Qed.

Lemma binary_round_aux_well_formed (s : bool) (M E : Z) (l : location) :
  0 < M ->
  E <= fexp prec emax (Zdigits2 M + E) ->
  valid_binary prec emax (binary_round_aux prec emax s M E l) = true.
Proof.
  intros HM HE.
  destruct (binary_round_aux_cases s M E l HM) as (m2 & Hm2 & Heq).
  cbv zeta in Heq. rewrite Heq. clear Heq.
  set (k1 := Z.max 0 (fexp prec emax (Zdigits2 M + E) - E)) in *.
  set (m1 := M / 2 ^ k1) in *.
  set (e1 := E + k1) in *.
  assert (He1 : e1 = fexp prec emax (Zdigits2 M + E)) by lia.
  assert (Hk1 : 0 <= k1) by lia.
  assert (Hpow1 : 0 < 2 ^ k1) by (apply Z.pow_pos_nonneg; lia).
  assert (Hm1 : 0 <= m1) by (subst m1; apply Z.div_pos; lia).
  assert (HA : 0 < m2 -> e1 <= fexp prec emax (Zdigits2 m2 + e1)).
  { intros Hm2pos. destruct (Z.eq_dec m1 0) as [Hz|Hnz].
    - assert (m2 = 1) by lia. subst m2. cbn [Zdigits2].
      assert (HMlt : M < 2 ^ k1).
      { destruct (Z.lt_ge_cases M (2 ^ k1)) as [|Hge]; [assumption|].
        assert (1 <= m1) by (subst m1; apply Z.div_le_lower_bound; lia).
        lia. }
      destruct (Zdigits2_bounds M HM) as [Hlo _].
      pose proof (Zdigits2_ge_1 M HM).
      assert (Hdk : Zdigits2 M - 1 < k1).
      { apply (Z.pow_lt_mono_r_iff 2); lia. }
      unfold fexp, emin, prec, emax in *. lia.
    - assert (Hd1 : Zdigits2 m1 = Zdigits2 M - k1)
        by (subst m1; apply Zdigits2_div; lia).
      pose proof (Zdigits2_mono m1 m2 ltac:(lia) ltac:(lia)) as Hmono.
      rewrite He1 at 1.
      apply fexp_mono. lia. }
  set (k2 := Z.max 0 (fexp prec emax (Zdigits2 m2 + e1) - e1)) in *.
  assert (Hk2 : 0 <= k2) by lia.
  assert (Hpow2 : 0 < 2 ^ k2) by (apply Z.pow_pos_nonneg; lia).
  destruct (m2 / 2 ^ k2) as [|p3|p3] eqn:Hm3; [reflexivity| |reflexivity].
  destruct (e1 + k2 <=? emax - prec) eqn:Hb; [|reflexivity].
  cbn [valid_binary]. unfold bounded, canonical_mantissa.
  rewrite Hb, andb_true_r. apply Z.eqb_eq.
  assert (Hm2pos : 0 < m2).
  { destruct (Z.lt_ge_cases 0 m2) as [|Hle]; [assumption|].
    assert (m2 = 0) by lia. subst m2. rewrite Z.div_0_l in Hm3 by lia.
    discriminate. }
  specialize (HA Hm2pos).
  pose proof (Zdigits2_div m2 k2 Hm2pos Hk2 ltac:(lia)) as Hd3.
  rewrite Hm3 in Hd3. cbn [Zdigits2] in Hd3. rewrite Hd3.
  replace (Zdigits2 m2 - k2 + (e1 + k2)) with (Zdigits2 m2 + e1) by lia.
  lia.
Qed.

Lemma binary_round_well_formed (s : bool) (p : positive) (e : Z) :
  valid_binary prec emax (binary_round prec emax s p e) = true.
Proof.
  unfold binary_round, shl_align.
  destruct (fexp prec emax (Z.pos (digits2_pos p) + e) - e) as [|d|d] eqn:Hd.
  - apply binary_round_aux_well_formed; [lia|]. cbn [Zdigits2]. lia.
  - apply binary_round_aux_well_formed; [lia|]. cbn [Zdigits2]. lia.
  - apply binary_round_aux_well_formed; [lia|].
    rewrite pos_iter_xO, Zdigits2_mul_pow2 by lia. cbn [Zdigits2].
    replace (Z.pos (digits2_pos p) + Z.pos d
             + fexp prec emax (Z.pos (digits2_pos p) + e))
      with (Z.pos (digits2_pos p) + e) by lia.
    lia.
Qed.

Lemma mul_well_formed (x y : spec_float) :
  valid_binary prec emax x = true ->
  valid_binary prec emax y = true ->
  valid_binary prec emax (mul x y) = true.
Proof.
  intros Hx Hy. unfold mul, SFmul.
  destruct x as [sx|sx| |sx mx ex], y as [sy|sy| |sy my ey]; try reflexivity.
  destruct (well_formed_finite _ _ _ Hx) as [Hcx Hbx].
  destruct (well_formed_finite _ _ _ Hy) as [Hcy Hby].
  apply binary_round_aux_well_formed; [lia|].
  pose proof (Zdigits2_mul (Zpos mx) (Zpos my) ltac:(lia) ltac:(lia)) as Hd.
  cbn [Zdigits2] in Hd.
  change (Z.pos (mx * my)) with (Z.pos mx * Z.pos my).
  pose proof (Zdigits2_ge_1 (Zpos mx) ltac:(lia)) as H1x.
  pose proof (Zdigits2_ge_1 (Zpos my) ltac:(lia)) as H1y.
  cbn [Zdigits2] in H1x, H1y.
  unfold fexp, emin, prec, emax in *. lia.
Qed.

Lemma add_well_formed (x y : spec_float) :
  valid_binary prec emax x = true ->
  valid_binary prec emax y = true ->
  valid_binary prec emax (add x y) = true.
Proof.
  intros Hx Hy. unfold add, SFadd.
  destruct x as [[]|[]| |sx mx ex], y as [[]|[]| |sy my ey];
    try reflexivity; try assumption.
  unfold binary_normalize.
  destruct (cond_Zopp sx _ + cond_Zopp sy _); try reflexivity;
    apply binary_round_well_formed.
Qed.

(** *** The comparison of SpecFloat on well-formed doubles *)

Lemma canonical_exp_lt (m1 m2 : positive) (e1 e2 : Z) :
  fexp prec emax (Zpos (digits2_pos m1) + e1) = e1 ->
  fexp prec emax (Zpos (digits2_pos m2) + e2) = e2 ->
  e1 < e2 ->
  (value (Zpos m1) e1 < value (Zpos m2) e2)%Q.
Proof.
  intros Hc1 Hc2 Hlt.
  destruct (value_bounds m1 e1) as [_ Hhi1].
  destruct (value_bounds m2 e2) as [Hlo2 _].
  assert (Hp : (pow2 (Zpos (digits2_pos m1) + e1)
                <= pow2 (Zpos (digits2_pos m2) + e2 - 1))%Q).
  { apply pow2_le. unfold fexp, emin, prec, emax in *. lia. }
  lra.
Qed.

Lemma SFltb_lt_value (a b : spec_float) :
  valid_binary prec emax a = true ->
  valid_binary prec emax b = true ->
  SFltb a b = true -> lt_value a b.
Proof.
  intros Ha Hb. unfold SFltb, SFcompare.
  destruct a as [sa|sa| |sa ma ea], b as [sb|sb| |sb mb eb];
    cbn [lt_value]; try discriminate;
    try (destruct sa; try discriminate); try (destruct sb; try discriminate);
    try (intros _; split; reflexivity); try (intros _; reflexivity);
    rewrite ?to_Q_pos, ?to_Q_neg, ?to_Q_zero.
  all: try (intros _; pose proof (value_pos (Zpos ma) ea ltac:(lia)); lra).
  all: try (intros _; pose proof (value_pos (Zpos mb) eb ltac:(lia)); lra).
  all: destruct (well_formed_finite _ _ _ Ha) as [Hca _].
  all: destruct (well_formed_finite _ _ _ Hb) as [Hcb _].
  all: pose proof (value_pos (Zpos ma) ea ltac:(lia)) as Hapos.
  all: pose proof (value_pos (Zpos mb) eb ltac:(lia)) as Hbpos.
  all: try (intros _; lra).
  - (* both negative *)
    destruct (Z.compare_spec ea eb) as [Heq|Hlt|Hgt]; try discriminate.
    + subst eb. rewrite Pos.compare_cont_spec. cbn [Pos.switch_Eq].
      destruct (Pos.compare_spec ma mb) as [Heq|Hlt|Hgt]; try discriminate.
      intros _. pose proof (value_mono_lt (Zpos mb) (Zpos ma) ea ltac:(lia)).
      lra.
    + intros _. pose proof (canonical_exp_lt mb ma eb ea Hcb Hca ltac:(lia)).
      lra.
  - (* both positive *)
    destruct (Z.compare_spec ea eb) as [Heq|Hlt|Hgt]; try discriminate.
    + subst eb. rewrite Pos.compare_cont_spec. cbn [Pos.switch_Eq].
      destruct (Pos.compare_spec ma mb) as [Heq|Hlt|Hgt]; try discriminate.
      intros _. by apply value_mono_lt.
    + intros _. by apply canonical_exp_lt.
Qed.

Lemma SFltb_add_false (x y : spec_float) :
  valid_binary prec emax x = true ->
  valid_binary prec emax y = true ->
  not_negative y ->
  SFltb (add x y) x = false.
Proof.
  intros Hx Hy Hnn.
  destruct (SFltb (add x y) x) eqn:Hlt; [exfalso|reflexivity].
  apply SFltb_lt_value in Hlt; [|by apply add_well_formed|assumption].
  by apply (add_not_below x y).
Qed.

(** *** The loop in binary64 *)

Lemma nonneg_not_negative (x : spec_float) : nonneg x -> not_negative x.
Proof. unfold nonneg. by destruct x as [[]|[]| |[] m e]. Qed.

Lemma rate_map_entry_well_formed (r : WageRate.t spec_float) :
  well_formed_template r ->
  well_formed (Rate.base (rate_map_entry r))
  /\ well_formed (Rate.fringe (rate_map_entry r))
  /\ well_formed (Rate.apprentice_factor (rate_map_entry r)).
Proof.
  intros (Hb & Hf & Ha). unfold rate_map_entry. cbn.
  destruct (WageRate.base_rate r), (WageRate.fringe_rate r),
    (WageRate.apprentice_factor r); cbn; repeat split;
    try (by eauto); reflexivity.
Qed.

Lemma row_step_well_formed (rates : list (WageRate.t spec_float))
    (acc : Accumulators spec_float) (t : TimesheetEntry.t spec_float) :
  (forall r, r ∈ rates -> well_formed_template r) ->
  well_formed_row t ->
  well_formed_totals (totals acc) ->
  well_formed_totals (totals (row_step (build_rate_map rates) acc t)).
Proof.
  intros Hrates Ht (Hh & Hb & Hf & Hg). unfold row_step.
  destruct (build_rate_map rates !! TimesheetEntry.craft t) as [rm|] eqn:Hrm;
    [|by repeat split].
  destruct (build_rate_map_lookup_Some _ _ _ Hrm) as (r & Hin & _ & ->).
  destruct (rate_map_entry_well_formed r (Hrates r Hin)) as (Vb & Vf & Va).
  assert (Vh : well_formed (dict_get (TimesheetEntry.hours t) f_zero)).
  { destruct (TimesheetEntry.hours t) as [h|] eqn:Hh'; cbn;
      [by apply Ht|reflexivity]. }
  assert (Vfac : well_formed (if dict_get (TimesheetEntry.apprentice t) false
                        then Rate.apprentice_factor (rate_map_entry r)
                        else f_one)).
  { destruct (dict_get (TimesheetEntry.apprentice t) false);
      [assumption|reflexivity]. }
  cbn [totals Totals.hours Totals.base_pay Totals.fringe Totals.gross].
  unfold well_formed in *. cbn [f_add f_mul f64].
  repeat split; repeat (apply add_well_formed || apply mul_well_formed); assumption.
Qed.

Lemma accumulate_well_formed (rates : list (WageRate.t spec_float))
    (rows : list (TimesheetEntry.t spec_float)) :
  (forall r, r ∈ rates -> well_formed_template r) ->
  (forall t, t ∈ rows -> well_formed_row t) ->
  well_formed_totals (totals (accumulate rates rows)).
Proof.
  intros Hrates. induction rows as [|t rows IH] using rev_ind; intros Hrows.
  - by repeat split.
  - rewrite accumulate_snoc. apply row_step_well_formed; [assumption| |].
    + apply Hrows. apply elem_of_app. right. by left.
    + apply IH. intros t' Hin. apply Hrows. apply elem_of_app. by left.
Qed.

Lemma binary64_matched_row_monotone
    (rates : list (WageRate.t spec_float))
    (rows : list (TimesheetEntry.t spec_float))
    (t : TimesheetEntry.t spec_float) :
  (forall r x, r ∈ rates ->
     WageRate.base_rate r = Some x \/ WageRate.fringe_rate r = Some x
     \/ WageRate.apprentice_factor r = Some x ->
     well_formed x /\ nonneg x) ->
  (forall t' h, t' ∈ rows ++ [t] -> TimesheetEntry.hours t' = Some h -> well_formed h) ->
  (forall h, TimesheetEntry.hours t = Some h -> nonneg h) ->
  is_Some (build_rate_map rates !! TimesheetEntry.craft t) ->
  let before := totals (accumulate rates rows) in
  let after := totals (accumulate rates (rows ++ [t])) in
  SFltb (Totals.hours after) (Totals.hours before) = false
  /\ SFltb (Totals.base_pay after) (Totals.base_pay before) = false
  /\ SFltb (Totals.fringe after) (Totals.fringe before) = false
  /\ SFltb (Totals.gross after) (Totals.gross before) = false.
Proof.
  intros Hrates Hrows Hhours [rm Hrm] before after.
  assert (Hvt : forall r, r ∈ rates -> well_formed_template r).
  { intros r Hin. repeat split; intros x Hx; apply (Hrates r x Hin); tauto. }
  assert (Hvr : forall t', t' ∈ rows ++ [t] -> well_formed_row t').
  { intros t' Hin h Hh. by apply (Hrows t' h). }
  destruct (accumulate_well_formed rates rows Hvt
              ltac:(intros t' Hin; apply Hvr, elem_of_app; by left))
    as (Vh & Vb & Vf & Vg).
  fold before in Vh, Vb, Vf, Vg.
  destruct (build_rate_map_lookup_Some _ _ _ Hrm) as (r & Hin & _ & ->).
  destruct (rate_map_entry_well_formed r (Hvt r Hin)) as (Vrb & Vrf & Vra).
  assert (Nrb : not_negative (Rate.base (rate_map_entry r))).
  { unfold rate_map_entry. cbn.
    destruct (WageRate.base_rate r) as [x|] eqn:Hx; cbn; [|exact I].
    apply nonneg_not_negative, (Hrates r x Hin). tauto. }
  assert (Nrf : not_negative (Rate.fringe (rate_map_entry r))).
  { unfold rate_map_entry. cbn.
    destruct (WageRate.fringe_rate r) as [x|] eqn:Hx; cbn; [|exact I].
    apply nonneg_not_negative, (Hrates r x Hin). tauto. }
  assert (Nra : not_negative (Rate.apprentice_factor (rate_map_entry r))).
  { unfold rate_map_entry. cbn.
    destruct (WageRate.apprentice_factor r) as [x|] eqn:Hx; cbn; [|exact I].
    apply nonneg_not_negative, (Hrates r x Hin). tauto. }
  set (hours := dict_get (TimesheetEntry.hours t) f_zero).
  assert (Vhours : well_formed hours).
  { subst hours. destruct (TimesheetEntry.hours t) as [h|] eqn:Hh; cbn;
      [|reflexivity].
    apply (Hrows t h); [|assumption]. apply elem_of_app. right. by left. }
  assert (Nhours : not_negative hours).
  { subst hours. destruct (TimesheetEntry.hours t) as [h|] eqn:Hh; cbn;
      [|exact I]. by apply nonneg_not_negative, Hhours. }
  set (factor := if dict_get (TimesheetEntry.apprentice t) false
                 then Rate.apprentice_factor (rate_map_entry r) else f_one).
  assert (Vfac : well_formed factor).
  { subst factor. destruct (dict_get (TimesheetEntry.apprentice t) false);
      [assumption|reflexivity]. }
  assert (Nfac : not_negative factor).
  { subst factor. destruct (dict_get (TimesheetEntry.apprentice t) false);
      [assumption|exact I]. }
  subst after. rewrite accumulate_snoc, (row_step_matched _ _ _ _ Hrm).
  cbv zeta. fold hours. fold factor.
  cbn [totals Totals.hours Totals.base_pay Totals.fringe Totals.gross].
  fold before. unfold well_formed in *. cbn [f_add f_mul f64].
  repeat split; apply SFltb_add_false; try assumption;
    repeat (apply add_well_formed || apply mul_well_formed
            || apply add_not_negative || apply mul_not_negative);
    assumption.
Qed.

End Binary64Facts.

(** ** Facts about stored keys that hold [None] *)

Section RawFacts.
Context {F : Type} `{PyFloat F}.
Implicit Types (r : Raw.WageRateDoc F) (t : Raw.TimesheetEntryDoc F).

Lemma raw_float_get_of_option (v : option F) (default : F) :
  Raw.float_get (Raw.of_option v) default = inr (dict_get v default).
Proof. by destruct v. Qed.

Lemma raw_get_of_option {A} (v : option A) : Raw.get (Raw.of_option v) = v.
Proof. by destruct v. Qed.

Lemma raw_rate_map_entry_of_template (r : WageRate.t F) :
  Raw.rate_map_entry (Raw.of_template r) = inr (rate_map_entry r).
Proof.
  unfold Raw.rate_map_entry, Raw.of_template, rate_map_entry.
  cbn [Raw.wr_base_rate Raw.wr_fringe_rate Raw.wr_apprentice_factor].
  by rewrite !raw_float_get_of_option.
Qed.

Lemma raw_build_rate_map_snoc (rates : list (Raw.WageRateDoc F)) r :
  Raw.build_rate_map (rates ++ [r])
  = match Raw.build_rate_map rates with
    | inl e => inl e
    | inr rate_map =>
        match Raw.rate_map_entry r with
        | inl e => inl e
        | inr entry => inr (<[Raw.get (Raw.wr_craft r) := entry]> rate_map)
        end
    end.
Proof. unfold Raw.build_rate_map. by rewrite foldl_snoc. Qed.

Lemma raw_build_rate_map_of_template (rates : list (WageRate.t F)) :
  Raw.build_rate_map (Raw.of_template <$> rates) = inr (build_rate_map rates).
Proof.
  induction rates as [|r rates IH] using rev_ind; [done|].
  rewrite fmap_app. cbn [fmap list_fmap].
  rewrite raw_build_rate_map_snoc, IH, raw_rate_map_entry_of_template.
  rewrite build_rate_map_snoc. cbn [Raw.of_template Raw.wr_craft].
  by rewrite raw_get_of_option.
Qed.

Lemma raw_row_step_of_row (rate_map : gmap (option string) (Rate.t F))
    (acc : Accumulators F) (t : TimesheetEntry.t F) :
  Raw.row_step rate_map acc (Raw.of_row t) = inr (row_step rate_map acc t).
Proof.
  unfold Raw.row_step, Raw.of_row, row_step.
  cbn [Raw.ts_craft Raw.ts_hours Raw.ts_apprentice].
  rewrite raw_float_get_of_option, raw_get_of_option.
  assert (Happ : Raw.bool_get (Raw.of_option (TimesheetEntry.apprentice t))
                 = dict_get (TimesheetEntry.apprentice t) false)
    by (by destruct (TimesheetEntry.apprentice t)).
  rewrite Happ.
  by destruct (rate_map !! TimesheetEntry.craft t).
Qed.

(** A template one of whose three numbers is [None]. *)
Lemma raw_rate_map_entry_inl r :
  Raw.rate_map_entry r = inl Raw.TypeError
  ↔ Raw.wr_base_rate r = Raw.Null ∨ Raw.wr_fringe_rate r = Raw.Null
    ∨ Raw.wr_apprentice_factor r = Raw.Null.
Proof.
  unfold Raw.rate_map_entry.
  destruct (Raw.wr_base_rate r), (Raw.wr_fringe_rate r),
    (Raw.wr_apprentice_factor r); cbn; split; intros Hx;
    try discriminate; try tauto;
    destruct Hx as [Hx|[Hx|Hx]]; discriminate.
Qed.

Lemma raw_row_step_inl (rate_map : gmap (option string) (Rate.t F))
    (acc : Accumulators F) t :
  Raw.row_step rate_map acc t = inl Raw.TypeError
  ↔ Raw.ts_hours t = Raw.Null.
Proof.
  unfold Raw.row_step.
  destruct (Raw.ts_hours t); cbn;
    destruct (rate_map !! Raw.get (Raw.ts_craft t)); split; intros Hx;
    try discriminate; done.
Qed.

Lemma raw_build_rate_map_inl (rates : list (Raw.WageRateDoc F)) :
  Raw.build_rate_map rates = inl Raw.TypeError
  ↔ Exists (λ r, Raw.wr_base_rate r = Raw.Null
                 ∨ Raw.wr_fringe_rate r = Raw.Null
                 ∨ Raw.wr_apprentice_factor r = Raw.Null) rates.
Proof.
  induction rates as [|r rates IH] using rev_ind.
  - split; [discriminate|]. intros Hx. inversion Hx.
  - rewrite raw_build_rate_map_snoc, Exists_app, Exists_cons, <- IH.
    rewrite <- raw_rate_map_entry_inl.
    destruct (Raw.build_rate_map rates) as [[]|rate_map].
    + tauto.
    + destruct (Raw.rate_map_entry r) as [[]|entry].
      * tauto.
      * split; [discriminate|].
        intros [Hx|[Hx|Hx]]; [discriminate|discriminate|inversion Hx].
Qed.

Lemma raw_rows_snoc (rate_map : gmap (option string) (Rate.t F))
    (rows : list (Raw.TimesheetEntryDoc F)) t (start : Raw.exn + Accumulators F) :
  foldl (λ acc t, match acc with
                  | inl e => inl e
                  | inr a => Raw.row_step rate_map a t
                  end) start (rows ++ [t])
  = match foldl (λ acc t, match acc with
                          | inl e => inl e
                          | inr a => Raw.row_step rate_map a t
                          end) start rows with
    | inl e => inl e
    | inr a => Raw.row_step rate_map a t
    end.
Proof. by rewrite foldl_snoc. Qed.

Lemma raw_rows_inl (rate_map : gmap (option string) (Rate.t F))
    (rows : list (Raw.TimesheetEntryDoc F)) :
  (∃ e, foldl (λ acc t, match acc with
                        | inl e => inl e
                        | inr a => Raw.row_step rate_map a t
                        end) (inr initial) rows = inl e)
  ↔ Exists (λ t, Raw.ts_hours t = Raw.Null) rows.
Proof.
  induction rows as [|t rows IH] using rev_ind.
  - split; [by intros [e He]|]. intros Hx. inversion Hx.
  - rewrite raw_rows_snoc, Exists_app, Exists_cons, <- IH.
    destruct (foldl _ _ rows) as [e|a].
    + split; eauto.
    + rewrite <- (raw_row_step_inl rate_map a).
      split.
      * intros [[] He]. tauto.
      * intros [[e He]|[Hx|Hx]]; [discriminate|eauto|inversion Hx].
Qed.

End RawFacts.

(** ** Raw documents without [None], and the first reading *)

Section RawBridge.
Context {F : Type} `{PyFloat F}.
Implicit Types (r : Raw.WageRateDoc F) (t : Raw.TimesheetEntryDoc F).
Implicit Types (rates : list (Raw.WageRateDoc F)).
Implicit Types (rows : list (Raw.TimesheetEntryDoc F)).

Lemma raw_float_get_inr (v : Raw.field F) (default x : F) :
  Raw.float_get v default = inr x → x = dict_get (Raw.get v) default.
Proof. destruct v; cbn; intros Hx; by inversion Hx. Qed.

Lemma raw_float_get_ok (v : Raw.field F) (default : F) :
  v ≠ Raw.Null → Raw.float_get v default = inr (dict_get (Raw.get v) default).
Proof. by destruct v. Qed.

Lemma raw_rate_map_entry_ok r :
  Raw.template_without_None r →
  Raw.rate_map_entry r = inr (rate_map_entry (Raw.to_template r)).
Proof.
  intros (Hb & Hf & Ha). unfold Raw.rate_map_entry.
  by rewrite !raw_float_get_ok.
Qed.

Lemma raw_rate_map_entry_inr r entry :
  Raw.rate_map_entry r = inr entry →
  Raw.template_without_None r ∧ entry = rate_map_entry (Raw.to_template r).
Proof.
  unfold Raw.rate_map_entry, Raw.template_without_None, rate_map_entry,
    Raw.to_template.
  cbn [WageRate.base_rate WageRate.fringe_rate WageRate.apprentice_factor].
  destruct (Raw.wr_base_rate r), (Raw.wr_fringe_rate r),
    (Raw.wr_apprentice_factor r); cbn; intros Hx; try discriminate;
    injection Hx as <-; repeat split; done.
Qed.

Lemma raw_build_rate_map_ok rates :
  Forall Raw.template_without_None rates →
  Raw.build_rate_map rates = inr (build_rate_map (Raw.to_template <$> rates)).
Proof.
  induction rates as [|r rates IH] using rev_ind; intros Hall; [done|].
  apply Forall_app in Hall as [Hrates Hr]. rewrite Forall_singleton in Hr.
  rewrite raw_build_rate_map_snoc, IH by done.
  rewrite raw_rate_map_entry_ok by done.
  rewrite fmap_app. cbn [fmap list_fmap]. by rewrite build_rate_map_snoc.
Qed.

Lemma raw_build_rate_map_inr rates rate_map :
  Raw.build_rate_map rates = inr rate_map →
  Forall Raw.template_without_None rates
  ∧ rate_map = build_rate_map (Raw.to_template <$> rates).
Proof.
  revert rate_map. induction rates as [|r rates IH] using rev_ind;
    intros rate_map Hbuild.
  - split; [constructor|]. by inversion Hbuild.
  - rewrite raw_build_rate_map_snoc in Hbuild.
    destruct (Raw.build_rate_map rates) as [e|m]; [discriminate|].
    destruct (Raw.rate_map_entry r) as [e|entry] eqn:Hentry; [discriminate|].
    destruct (IH m eq_refl) as [Hall ->].
    destruct (raw_rate_map_entry_inr r entry Hentry) as [Hr ->].
    inversion Hbuild. split.
    + apply Forall_app. split; [done|by constructor].
    + rewrite fmap_app. cbn [fmap list_fmap]. by rewrite build_rate_map_snoc.
Qed.

Lemma raw_row_step_ok (rate_map : gmap (option string) (Rate.t F))
    (acc : Accumulators F) t :
  Raw.row_without_None t →
  Raw.row_step rate_map acc t = inr (row_step rate_map acc (Raw.to_row t)).
Proof.
  intros Ht. unfold Raw.row_step, row_step, Raw.to_row.
  cbn [TimesheetEntry.craft TimesheetEntry.hours TimesheetEntry.apprentice].
  rewrite raw_float_get_ok by done.
  assert (Happ : Raw.bool_get (Raw.ts_apprentice t)
                 = dict_get (Raw.get (Raw.ts_apprentice t)) false)
    by (by destruct (Raw.ts_apprentice t)).
  rewrite Happ. by destruct (rate_map !! Raw.get (Raw.ts_craft t)).
Qed.

Lemma raw_row_step_inr (rate_map : gmap (option string) (Rate.t F))
    (acc acc' : Accumulators F) t :
  Raw.row_step rate_map acc t = inr acc' →
  Raw.row_without_None t ∧ acc' = row_step rate_map acc (Raw.to_row t).
Proof.
  intros Hstep.
  assert (Ht : Raw.row_without_None t).
  { intros Hnull. apply (raw_row_step_inl rate_map acc) in Hnull.
    rewrite Hnull in Hstep. discriminate. }
  split; [exact Ht|]. rewrite raw_row_step_ok in Hstep by done.
  by inversion Hstep.
Qed.

Lemma raw_rows_ok (rate_map : gmap (option string) (Rate.t F)) rows :
  Forall Raw.row_without_None rows →
  foldl (λ acc t, match acc with
                  | inl e => inl e
                  | inr a => Raw.row_step rate_map a t
                  end) (inr initial) rows
  = inr (foldl (row_step rate_map) initial (Raw.to_row <$> rows)).
Proof.
  induction rows as [|t rows IH] using rev_ind; intros Hall; [done|].
  apply Forall_app in Hall as [Hrows Ht]. rewrite Forall_singleton in Ht.
  rewrite raw_rows_snoc, IH by done. rewrite raw_row_step_ok by done.
  rewrite fmap_app. cbn [fmap list_fmap]. by rewrite foldl_snoc.
Qed.

Lemma raw_rows_inr (rate_map : gmap (option string) (Rate.t F)) rows
    (acc : Accumulators F) :
  foldl (λ acc t, match acc with
                  | inl e => inl e
                  | inr a => Raw.row_step rate_map a t
                  end) (inr initial) rows = inr acc →
  Forall Raw.row_without_None rows
  ∧ acc = foldl (row_step rate_map) initial (Raw.to_row <$> rows).
Proof.
  revert acc. induction rows as [|t rows IH] using rev_ind; intros acc Hloop.
  - split; [constructor|]. by inversion Hloop.
  - rewrite raw_rows_snoc in Hloop.
    destruct (foldl _ _ rows) as [e|a]; [discriminate|].
    destruct (IH a eq_refl) as [Hall ->].
    destruct (raw_row_step_inr _ _ _ _ Hloop) as [Ht ->].
    split.
    + apply Forall_app. split; [done|by constructor].
    + rewrite fmap_app. cbn [fmap list_fmap]. by rewrite foldl_snoc.
Qed.

(** Without [None] the computation returns what the first reading
    returns. *)
Lemma raw_aggregate_ok rates rows :
  Forall Raw.template_without_None rates →
  Forall Raw.row_without_None rows →
  Raw.aggregate rates rows
  = inr (aggregate (Raw.to_template <$> rates) (Raw.to_row <$> rows)).
Proof.
  intros Hrates Hrows. unfold Raw.aggregate.
  rewrite raw_build_rate_map_ok by done. by rewrite raw_rows_ok.
Qed.

(** A result is always the one of the first reading, and there was no
    [None]. *)
Lemma raw_aggregate_inr rates rows (result : Totals.t F * list string) :
  Raw.aggregate rates rows = inr result →
  Forall Raw.template_without_None rates
  ∧ Forall Raw.row_without_None rows
  ∧ result = aggregate (Raw.to_template <$> rates) (Raw.to_row <$> rows).
Proof.
  unfold Raw.aggregate. intros Hagg.
  destruct (Raw.build_rate_map rates) as [e|rate_map] eqn:Hbuild;
    [discriminate|].
  destruct (raw_build_rate_map_inr _ _ Hbuild) as [Hrates ->].
  destruct (foldl _ _ rows) as [e|acc] eqn:Hloop; [discriminate|].
  destruct (raw_rows_inr _ _ _ Hloop) as [Hrows ->].
  inversion Hagg. by repeat split.
Qed.

(** With a [None] under a number, in a template or a row, it raises. *)
Lemma raw_aggregate_inl rates rows :
  ¬ (Forall Raw.template_without_None rates
     ∧ Forall Raw.row_without_None rows) →
  Raw.aggregate rates rows = inl Raw.TypeError.
Proof.
  intros Hnot. destruct (Raw.aggregate rates rows) as [[]|result] eqn:Hagg;
    [done|].
  destruct (raw_aggregate_inr _ _ _ Hagg) as (Hrates & Hrows & _).
  by destruct Hnot.
Qed.

(** Two computations agree when they meet [None] together and their first
    readings agree. *)
Lemma raw_aggregate_eq rates rates' rows rows' :
  (Forall Raw.template_without_None rates ∧ Forall Raw.row_without_None rows
   ↔ Forall Raw.template_without_None rates'
     ∧ Forall Raw.row_without_None rows') →
  aggregate (Raw.to_template <$> rates) (Raw.to_row <$> rows)
  = aggregate (Raw.to_template <$> rates') (Raw.to_row <$> rows') →
  Raw.aggregate rates rows = Raw.aggregate rates' rows'.
Proof.
  intros Hiff Hfirst.
  destruct (Raw.aggregate rates rows) as [[]|result] eqn:Hagg.
  - symmetry. apply raw_aggregate_inl. intros Hok. apply Hiff in Hok.
    destruct Hok as [Hrates Hrows].
    rewrite raw_aggregate_ok in Hagg by done. discriminate.
  - destruct (raw_aggregate_inr _ _ _ Hagg) as (Hrates & Hrows & ->).
    destruct (proj1 Hiff (conj Hrates Hrows)) as [Hrates' Hrows'].
    rewrite raw_aggregate_ok by done. by rewrite Hfirst.
Qed.

End RawBridge.

Section RawBridgeMore.
Context {F : Type} `{PyFloat F}.
Implicit Types (r : Raw.WageRateDoc F) (t : Raw.TimesheetEntryDoc F).
Implicit Types (rates : list (Raw.WageRateDoc F)).
Implicit Types (rows : list (Raw.TimesheetEntryDoc F)).

Lemma raw_build_rate_map_inl' rates :
  ¬ Forall Raw.template_without_None rates →
  Raw.build_rate_map rates = inl Raw.TypeError.
Proof.
  intros Hnot.
  destruct (Raw.build_rate_map rates) as [[]|rate_map] eqn:Hbuild; [done|].
  by destruct (raw_build_rate_map_inr _ _ Hbuild) as [Hall _].
Qed.

Lemma raw_build_rate_map_eq rates rates' :
  (Forall Raw.template_without_None rates
   ↔ Forall Raw.template_without_None rates') →
  build_rate_map (Raw.to_template <$> rates)
  = build_rate_map (Raw.to_template <$> rates') →
  Raw.build_rate_map rates = Raw.build_rate_map rates'.
Proof.
  intros Hiff Hfirst.
  destruct (Raw.build_rate_map rates) as [[]|rate_map] eqn:Hbuild.
  - symmetry. apply raw_build_rate_map_inl'. intros Hok. apply Hiff in Hok.
    rewrite raw_build_rate_map_ok in Hbuild by done. discriminate.
  - destruct (raw_build_rate_map_inr _ _ Hbuild) as [Hrates ->].
    rewrite raw_build_rate_map_ok by (by apply Hiff). by rewrite Hfirst.
Qed.

(** An absent key and its default are read alike. *)
Lemma raw_float_get_with_default (v : Raw.field F) (default : F) :
  Raw.float_get (Raw.with_default v default) default
  = Raw.float_get v default.
Proof. by destruct v. Qed.

Lemma raw_rate_map_entry_with_defaults r :
  Raw.rate_map_entry (Raw.template_with_defaults r) = Raw.rate_map_entry r.
Proof.
  unfold Raw.rate_map_entry, Raw.template_with_defaults.
  cbn [Raw.wr_base_rate Raw.wr_fringe_rate Raw.wr_apprentice_factor].
  by rewrite !raw_float_get_with_default.
Qed.

Lemma raw_build_rate_map_with_defaults rates :
  Raw.build_rate_map (Raw.template_with_defaults <$> rates)
  = Raw.build_rate_map rates.
Proof.
  induction rates as [|r rates IH] using rev_ind; [done|].
  rewrite fmap_app. cbn [fmap list_fmap].
  rewrite !raw_build_rate_map_snoc, IH, raw_rate_map_entry_with_defaults.
  done.
Qed.

Lemma raw_row_step_with_defaults
    (rate_map : gmap (option string) (Rate.t F)) (acc : Accumulators F) t :
  Raw.row_step rate_map acc (Raw.row_with_defaults t)
  = Raw.row_step rate_map acc t.
Proof.
  unfold Raw.row_step, Raw.row_with_defaults.
  cbn [Raw.ts_craft Raw.ts_hours Raw.ts_apprentice].
  rewrite raw_float_get_with_default.
  by destruct (Raw.ts_apprentice t).
Qed.

Lemma raw_aggregate_with_defaults rates rows :
  Raw.aggregate (Raw.template_with_defaults <$> rates)
                (Raw.row_with_defaults <$> rows)
  = Raw.aggregate rates rows.
Proof.
  unfold Raw.aggregate. rewrite raw_build_rate_map_with_defaults.
  destruct (Raw.build_rate_map rates) as [e|rate_map]; [done|].
  assert (Hloop : ∀ start,
            foldl (λ acc t, match acc with
                            | inl e => inl e
                            | inr a => Raw.row_step rate_map a t
                            end) start (Raw.row_with_defaults <$> rows)
            = foldl (λ acc t, match acc with
                              | inl e => inl e
                              | inr a => Raw.row_step rate_map a t
                              end) start rows).
  { induction rows as [|t rows IH]; intros start; [done|].
    cbn [fmap list_fmap foldl]. rewrite IH.
    destruct start as [e|a]; [done|]. by rewrite raw_row_step_with_defaults. }
  by rewrite Hloop.
Qed.

Lemma raw_to_template_craft r :
  WageRate.craft (Raw.to_template r) = Raw.get (Raw.wr_craft r).
Proof. done. Qed.

End RawBridgeMore.

(** ** Facts about the handler on raw documents *)

Section RawHandlerFacts.
Context {F : Type} `{PyFloat F}.

Lemma raw_generate_submission_not_found (req : GenerateRequest.t)
    (db : Raw.Collections F) :
  Raw.find_project (Raw.projects db) (GenerateRequest.project_id req) = None →
  Raw.generate_submission req db
  = (Raw.NotFound {| status_code := 404; detail := "Project not found" |}, db).
Proof.
  intros Hfind. unfold Raw.generate_submission, Raw.get_documents_project.
  by rewrite Hfind.
Qed.

Lemma raw_generate_submission_created (req : GenerateRequest.t)
    (db : Raw.Collections F) (proj : Raw.ProjectDoc F)
    (rates : list (Raw.WageRateDoc F)) (result : Totals.t F * list string) :
  Raw.find_project (Raw.projects db) (GenerateRequest.project_id req)
  = Some proj →
  Raw.iter_get (Raw.pr_wage_templates proj) = inr rates →
  Raw.aggregate rates
    (Raw.get_rows db (GenerateRequest.project_id req)
                  (GenerateRequest.week_ending req))
  = inr result →
  let sub :=
    {| Submission.project_id := GenerateRequest.project_id req;
       Submission.week_ending := GenerateRequest.week_ending req;
       Submission.totals := result.1;
       Submission.warnings := result.2;
       Submission.signer_name := None;
       Submission.signer_title := None;
       Submission.signed_at := None;
       Submission.status := "generated" |} in
  Raw.generate_submission req db
  = (Raw.Created (length (Raw.submissions db)) sub,
     {| Raw.projects := Raw.projects db;
        Raw.entries := Raw.entries db;
        Raw.submissions := Raw.submissions db ++ [sub] |}).
Proof.
  intros Hfind Hiter Hagg.
  unfold Raw.generate_submission, Raw.get_documents_project.
  rewrite Hfind, Hiter, Hagg. by destruct result.
Qed.

Lemma raw_generate_submission_raised (req : GenerateRequest.t)
    (db : Raw.Collections F) (proj : Raw.ProjectDoc F)
    (rates : list (Raw.WageRateDoc F)) (e : Raw.exn) :
  Raw.find_project (Raw.projects db) (GenerateRequest.project_id req)
  = Some proj →
  Raw.iter_get (Raw.pr_wage_templates proj) = inr rates →
  Raw.aggregate rates
    (Raw.get_rows db (GenerateRequest.project_id req)
                  (GenerateRequest.week_ending req))
  = inl e →
  Raw.generate_submission req db = (Raw.Raised e, db).
Proof.
  intros Hfind Hiter Hagg.
  unfold Raw.generate_submission, Raw.get_documents_project.
  by rewrite Hfind, Hiter, Hagg.
Qed.

Lemma raw_find_project_app (docs docs' : list (Raw.ProjectDoc F))
    (project_id : string) :
  Raw.find_project (docs ++ docs') project_id
  = match Raw.find_project docs project_id with
    | Some proj => Some proj
    | None => Raw.find_project docs' project_id
    end.
Proof.
  unfold Raw.find_project. induction docs as [|p docs IH]; [done|].
  simpl. by destruct (bool_decide (Raw.pr_id p = project_id)).
Qed.

Lemma raw_find_project_None (docs : list (Raw.ProjectDoc F))
    (project_id : string) :
  (∀ p, p ∈ docs → Raw.pr_id p ≠ project_id) →
  Raw.find_project docs project_id = None.
Proof.
  unfold Raw.find_project. induction docs as [|p docs IH]; intros Hall.
  - done.
  - simpl. rewrite bool_decide_eq_false_2 by (apply Hall; left).
    apply IH. intros p' Hin. apply Hall. by right.
Qed.

End RawHandlerFacts.

(** ** The claims *)

(** C1.  A matched row (its craft is a key of the rate lookup, with value
    [rm]) adds to the four accumulators exactly: its hours;
    [base * (apprentice_factor if apprentice else 1.0) * hours];
    [fringe * hours]; and the sum of these two pays; the warnings stay as
    they are.  This holds in any arithmetic.  In binary64, Scenario A (one
    Electrician template at 50 and 5, one row of 8 hours, not an apprentice)
    returns the totals 8.0, 400.0, 40.0, 440.0 and no warning, and an
    apprentice row of 10 hours on a rate of base 40 and factor 0.6 adds
    exactly 240.0 to [base_pay]. *)
Theorem C1_matched_row_contribution :
  (∀ (F : Type) (PF : PyFloat F) (rates : list (WageRate.t F))
     (rows : list (TimesheetEntry.t F)) (t : TimesheetEntry.t F)
     (rm : Rate.t F),
     build_rate_map rates !! TimesheetEntry.craft t = Some rm →
     let acc := accumulate rates rows in
     let hours := dict_get (TimesheetEntry.hours t) f_zero in
     let base_pay :=
       f_mul (f_mul (Rate.base rm)
                    (if dict_get (TimesheetEntry.apprentice t) false
                     then Rate.apprentice_factor rm else f_one))
             hours in
     let fringe_pay := f_mul (Rate.fringe rm) hours in
     accumulate rates (rows ++ [t])
     = {| totals :=
            {| Totals.hours := f_add (Totals.hours (totals acc)) hours;
               Totals.base_pay :=
                 f_add (Totals.base_pay (totals acc)) base_pay;
               Totals.fringe := f_add (Totals.fringe (totals acc)) fringe_pay;
               Totals.gross :=
                 f_add (Totals.gross (totals acc))
                       (f_add base_pay fringe_pay) |};
          warnings := warnings acc |})
  ∧ aggregate Scenario.templates_A Scenario.rows_A
    = ({| Totals.hours := Binary64.of_Z 8;
          Totals.base_pay := Binary64.of_Z 400;
          Totals.fringe := Binary64.of_Z 40;
          Totals.gross := Binary64.of_Z 440 |}, [])
  ∧ (∀ (rates : list (WageRate.t spec_float))
       (rows : list (TimesheetEntry.t spec_float))
       (t : TimesheetEntry.t spec_float) (rm : Rate.t spec_float),
       build_rate_map rates !! TimesheetEntry.craft t = Some rm →
       Rate.base rm = Binary64.of_Z 40 →
       Rate.apprentice_factor rm = Binary64.literal 6 1 →
       TimesheetEntry.hours t = Some (Binary64.of_Z 10) →
       TimesheetEntry.apprentice t = Some true →
       Totals.base_pay (totals (accumulate rates (rows ++ [t])))
       = Binary64.add (Totals.base_pay (totals (accumulate rates rows)))
                      (Binary64.of_Z 240)).
Proof.
  split; [|split].
  - intros F PF rates rows t rm Hrm. simpl.
    rewrite accumulate_snoc. by rewrite (row_step_matched _ _ _ rm).
  - by vm_compute.
  - intros rates rows t rm Hrm Hbase Hfactor Hhours Happrentice.
    rewrite accumulate_snoc, (row_step_matched _ _ _ rm) by done.
    rewrite Hbase, Hfactor, Hhours, Happrentice. simpl.
    f_equal.
Qed.

(** C1 at Scenario A: the Electrician row is matched, and the accumulators
    after it are those of the empty prefix plus its contribution. *)
Lemma C1_matched_row_contribution_witness :
  build_rate_map Scenario.templates_A !! Some "Electrician"
  = Some (rate_map_entry Scenario.electrician)
  ∧ accumulate Scenario.templates_A
      ([] ++ [Scenario.row "Electrician" (Binary64.of_Z 8) false])
    = {| totals :=
           {| Totals.hours :=
                Binary64.add (S754_zero false) (Binary64.of_Z 8);
              Totals.base_pay :=
                Binary64.add (S754_zero false)
                  (Binary64.mul
                     (Binary64.mul (Binary64.of_Z 50) (Binary64.of_Z 1))
                     (Binary64.of_Z 8));
              Totals.fringe :=
                Binary64.add (S754_zero false)
                  (Binary64.mul (Binary64.of_Z 5) (Binary64.of_Z 8));
              Totals.gross :=
                Binary64.add (S754_zero false)
                  (Binary64.add
                     (Binary64.mul
                        (Binary64.mul (Binary64.of_Z 50) (Binary64.of_Z 1))
                        (Binary64.of_Z 8))
                     (Binary64.mul (Binary64.of_Z 5) (Binary64.of_Z 8))) |};
         warnings := [] |}.
Proof.
  split.
  - reflexivity.
  - apply (proj1 C1_matched_row_contribution spec_float Binary64.f64
             Scenario.templates_A []
             (Scenario.row "Electrician" (Binary64.of_Z 8) false)
             (rate_map_entry Scenario.electrician)).
    reflexivity.
Defined.

(** C2.  A row whose craft is not a key of the rate lookup (whatever its
    hours, 0 included, and also when the craft is the empty string or the
    key is absent) appends the one warning
    ["Missing wage rate for craft '<craft>'"] and leaves the four totals
    untouched.  Hence the warnings returned are exactly those of the
    unmatched rows, one each, in the order of the rows and with repetitions
    kept, and the totals returned are those of the matched rows alone.  The
    craft is rendered as [str] does: a string as it is, the empty string as
    nothing, an absent key as [None]. *)
Theorem C2_unmatched_row_warning :
  ∀ (F : Type) (PF : PyFloat F) (rates : list (WageRate.t F))
    (rows : list (TimesheetEntry.t F)),
    (∀ t : TimesheetEntry.t F,
       build_rate_map rates !! TimesheetEntry.craft t = None →
       accumulate rates (rows ++ [t])
       = {| totals := totals (accumulate rates rows);
            warnings :=
              warnings (accumulate rates rows)
              ++ ["Missing wage rate for craft '"
                  +:+ py_str (TimesheetEntry.craft t) +:+ "'"] |})
    ∧ (aggregate rates rows).2
      = (λ t, "Missing wage rate for craft '"
              +:+ py_str (TimesheetEntry.craft t) +:+ "'")
        <$> filter
              (λ t, build_rate_map rates !! TimesheetEntry.craft t = None)
              rows
    ∧ (aggregate rates rows).1
      = (aggregate rates
           (filter
              (λ t, is_Some (build_rate_map rates !! TimesheetEntry.craft t))
              rows)).1
    ∧ (∀ s : string, py_str (Some s) = s)
    ∧ py_str (Some "") = ""
    ∧ py_str None = "None".
Proof.
  intros F PF rates rows. repeat split.
  - intros t Ht. rewrite accumulate_snoc. by rewrite row_step_unmatched.
  - unfold aggregate, accumulate. simpl.
    by rewrite foldl_row_step_warnings.
  - unfold aggregate, accumulate. simpl. f_equal.
    by apply foldl_row_step_totals.
Qed.

(** C2 on Scenario A's template: a row of 0 hours without a craft, after a
    matched row and a Plumber row. *)
Lemma C2_unmatched_row_warning_witness :
  let rows :=
    [Scenario.row "Plumber" (Binary64.of_Z 5) false;
     Scenario.row "Electrician" (Binary64.of_Z 8) false] in
  let t :=
    {| TimesheetEntry.project_id := None;
       TimesheetEntry.week_ending := None;
       TimesheetEntry.craft := None;
       TimesheetEntry.hours := Some (S754_zero false);
       TimesheetEntry.apprentice := None |} in
  build_rate_map Scenario.templates_A !! TimesheetEntry.craft t = None
  ∧ accumulate Scenario.templates_A (rows ++ [t])
    = {| totals := totals (accumulate Scenario.templates_A rows);
         warnings :=
           ["Missing wage rate for craft 'Plumber'";
            "Missing wage rate for craft 'None'"] |}.
Proof.
  split.
  - reflexivity.
  - exact (proj1 (C2_unmatched_row_warning spec_float Binary64.f64
                    Scenario.templates_A
                    [Scenario.row "Plumber" (Binary64.of_Z 5) false;
                     Scenario.row "Electrician" (Binary64.of_Z 8) false])
                 {| TimesheetEntry.project_id := None;
                    TimesheetEntry.week_ending := None;
                    TimesheetEntry.craft := None;
                    TimesheetEntry.hours := Some (S754_zero false);
                    TimesheetEntry.apprentice := None |}
                 eq_refl).
Defined.

(** C3, as the code has it.  Each of the four totals returned is
    [round(v, 2)] of its accumulator [v], and [round] breaks ties to the
    even neighbour, not away from zero.  In exact arithmetic the total is
    [n / 100] for the integer [n] nearest to [100 * v], the even one on a
    tie.  In binary64 a finite non-zero [v] gives the double obtained from
    that same [n / 100]; zeros, infinities and NaN are returned as they
    are. *)
Theorem C3_rounds_half_even :
  (∀ (rates : list (WageRate.t spec_float))
     (rows : list (TimesheetEntry.t spec_float)),
     let v := totals (accumulate rates rows) in
     (aggregate rates rows).1
     = {| Totals.hours := Binary64.round2 (Totals.hours v);
          Totals.base_pay := Binary64.round2 (Totals.base_pay v);
          Totals.fringe := Binary64.round2 (Totals.fringe v);
          Totals.gross := Binary64.round2 (Totals.gross v) |})
  ∧ (∀ (s : bool) (m : positive) (e : Z),
       ∃ n : Z,
         Binary64.round2 (S754_finite s m e) = Binary64.of_ratio s n 100
         ∧ Rounding.nearest_ties_even
             (100 * Binary64.to_Q (S754_finite s m e))%Q n)
  ∧ (∀ s : bool, Binary64.round2 (S754_zero s) = S754_zero s)
  ∧ (∀ s : bool, Binary64.round2 (S754_infinity s) = S754_infinity s)
  ∧ Binary64.round2 S754_nan = S754_nan
  ∧ (∀ (rates : list (WageRate.t Qc)) (rows : list (TimesheetEntry.t Qc)),
       let v := totals (accumulate rates rows) in
       (aggregate rates rows).1
       = {| Totals.hours := Exact.round2 (Totals.hours v);
            Totals.base_pay := Exact.round2 (Totals.base_pay v);
            Totals.fringe := Exact.round2 (Totals.fringe v);
            Totals.gross := Exact.round2 (Totals.gross v) |})
  ∧ (∀ q : Qc,
       ∃ n : Z,
         Exact.round2 q = Q2Qc (inject_Z n / 100)%Q
         ∧ Rounding.nearest_ties_even (100 * q)%Q n).
Proof.
  repeat split.
  - intros s m e.
    exists (Rounding.round_half_even
              (100 * Binary64.to_Q (S754_finite s m e))%Q).
    split; [reflexivity|apply round_half_even_spec].
  - intros q. exists (Rounding.round_half_even (100 * q)%Q).
    split; [reflexivity|apply round_half_even_spec].
Qed.

(** C3 fails as stated.  One Electrician row of 0.125 hours: the
    accumulator is exactly 1/8, half-way between 0.12 and 0.13; the handler
    returns 0.12, where rounding half away from zero gives 0.13. *)
Lemma C3_counterexample :
  let v := totals (accumulate Scenario.templates_A Scenario.rows_eighth) in
  Totals.hours v = Binary64.literal 125 3
  ∧ (Binary64.to_Q (Totals.hours v) == 1 # 8)%Q
  ∧ Totals.hours (aggregate Scenario.templates_A Scenario.rows_eighth).1
    = Binary64.literal 12 2
  ∧ Binary64.round2_half_away (Totals.hours v) = Binary64.literal 13 2
  ∧ Binary64.literal 12 2 ≠ Binary64.literal 13 2.
Proof.
  repeat split; try (by vm_compute).
Qed.

(** C4.  When the handler answers with a submission, its totals, which
    are also those of the document added to the store, are the aggregation
    of the templates of the project found (the first stored project with
    the requested identifier) over exactly the stored timesheet entries
    whose [project_id] and [week_ending] both equal the request's.  Entries
    of other projects or weeks contribute nothing: a store with the same
    projects and the same matching entries yields the same totals. *)
Theorem C4_totals_of_matching_entries :
  ∀ (F : Type) (PF : PyFloat F) (req : GenerateRequest.t) (db db' : Store.t F)
    (sub_id : nat) (sub : Submission.t F),
    generate_submission req db = (inr (sub_id, sub), db') →
    let matching (t : TimesheetEntry.t F) :=
      TimesheetEntry.project_id t = Some (GenerateRequest.project_id req)
      ∧ TimesheetEntry.week_ending t = Some (GenerateRequest.week_ending req) in
    ∃ proj : Project.t F,
      find_project (Store.project db) (GenerateRequest.project_id req)
      = Some proj
      ∧ proj ∈ Store.project db
      ∧ Project._id proj = GenerateRequest.project_id req
      ∧ Submission.totals sub
        = (aggregate (dict_get (Project.wage_templates proj) [])
                     (filter matching (Store.timesheetentry db))).1
      ∧ Store.submission db' = Store.submission db ++ [sub]
      ∧ (∀ db2 : Store.t F,
           Store.project db2 = Store.project db →
           filter matching (Store.timesheetentry db2)
           = filter matching (Store.timesheetentry db) →
           ∃ (sub_id2 : nat) (sub2 : Submission.t F) (db2' : Store.t F),
             generate_submission req db2 = (inr (sub_id2, sub2), db2')
             ∧ Submission.totals sub2 = Submission.totals sub).
Proof.
  intros F PF req db db' sub_id sub Hgen matching.
  destruct (find_project (Store.project db) (GenerateRequest.project_id req))
    as [proj|] eqn:Hfind.
  - pose proof (generate_submission_found req db proj Hfind) as Heq.
    simpl in Heq. rewrite Heq in Hgen.
    injection Hgen as _ <- <-.
    destruct (find_project_Some _ _ _ Hfind) as [Hin Hid].
    exists proj. repeat split; try done.
    intros db2 Hproj Hrows.
    assert (Hfind2 : find_project (Store.project db2)
                       (GenerateRequest.project_id req) = Some proj)
      by (by rewrite Hproj).
    pose proof (generate_submission_found req db2 proj Hfind2) as Heq2.
    simpl in Heq2. eexists _, _, _. split; [exact Heq2|].
    simpl. fold matching. by rewrite Hrows.
  - unfold generate_submission, get_documents_project in Hgen.
    rewrite Hfind in Hgen. discriminate.
Qed.

(** C4 on the scenario store: of its four entries, the one of project p2
    and the one of week 2024-01-14 are left out. *)
Lemma C4_totals_of_matching_entries_witness :
  generate_submission Scenario.request Scenario.db
  = (inr (0, Scenario.submission_A), Scenario.db_after)
  ∧ ∃ proj : Project.t spec_float,
      find_project (Store.project Scenario.db) "p1" = Some proj
      ∧ proj ∈ Store.project Scenario.db
      ∧ Project._id proj = "p1"
      ∧ Submission.totals Scenario.submission_A
        = (aggregate (dict_get (Project.wage_templates proj) [])
             (filter
                (λ t, TimesheetEntry.project_id t = Some "p1"
                      ∧ TimesheetEntry.week_ending t = Some "2024-01-07")
                (Store.timesheetentry Scenario.db))).1
      ∧ Store.submission Scenario.db_after
        = Store.submission Scenario.db ++ [Scenario.submission_A]
      ∧ (∀ db2 : Store.t spec_float,
           Store.project db2 = Store.project Scenario.db →
           filter
             (λ t, TimesheetEntry.project_id t = Some "p1"
                   ∧ TimesheetEntry.week_ending t = Some "2024-01-07")
             (Store.timesheetentry db2)
           = filter
               (λ t, TimesheetEntry.project_id t = Some "p1"
                     ∧ TimesheetEntry.week_ending t = Some "2024-01-07")
               (Store.timesheetentry Scenario.db) →
           ∃ (sub_id2 : nat) (sub2 : Submission.t spec_float)
             (db2' : Store.t spec_float),
             generate_submission Scenario.request db2
             = (inr (sub_id2, sub2), db2')
             ∧ Submission.totals sub2
               = Submission.totals Scenario.submission_A).
Proof.
  split.
  - by vm_compute.
  - apply (C4_totals_of_matching_entries spec_float Binary64.f64
             Scenario.request Scenario.db Scenario.db_after 0
             Scenario.submission_A).
    by vm_compute.
Defined.

(** C5.  When no stored project has the requested identifier, the handler
    answers with the error 404 "Project not found" and the store is left as
    it was: no submission is created, and the timesheet entries play no
    part in the answer. *)
Theorem C5_unknown_project_404 :
  ∀ (F : Type) (PF : PyFloat F) (req : GenerateRequest.t) (db : Store.t F),
    (∀ p : Project.t F,
       p ∈ Store.project db →
       Project._id p ≠ GenerateRequest.project_id req) →
    generate_submission req db
    = (inl {| status_code := 404; detail := "Project not found" |}, db).
Proof.
  intros F PF req db Hnone.
  unfold generate_submission, get_documents_project.
  by rewrite find_project_None.
Qed.

(** C5 on the scenario store, which has no project p9. *)
Lemma C5_unknown_project_404_witness :
  (∀ p : Project.t spec_float,
     p ∈ Store.project Scenario.db →
     Project._id p ≠ GenerateRequest.project_id Scenario.request_unknown)
  ∧ generate_submission Scenario.request_unknown Scenario.db
    = (inl {| status_code := 404; detail := "Project not found" |},
       Scenario.db).
Proof.
  assert (Hnone : ∀ p : Project.t spec_float,
            p ∈ Store.project Scenario.db →
            Project._id p
            ≠ GenerateRequest.project_id Scenario.request_unknown).
  { intros p Hin. apply list_elem_of_singleton in Hin. by subst p. }
  split; [exact Hnone|].
  exact (C5_unknown_project_404 spec_float Binary64.f64
           Scenario.request_unknown Scenario.db Hnone).
Defined.

(** C6.  When several templates name one craft, the rate lookup, once
    built, holds for that craft the base rate, fringe rate and apprentice
    factor of the last of them (each with its default when the key is
    absent).  A template followed by another of the same craft has no
    effect when none of its numbers is [None]: without it the lookup and
    the result are the same.  When one of its numbers is [None] it has an
    effect: line 120-122 converts it like any other template and the
    computation raises [TypeError].  So with the Electrician template
    stored for ["apprentice_factor": null] before the one at 60 and 6, a
    row of 8 hours raises, and without it the totals are 8.0, 480.0, 48.0
    and 528.0. *)
Theorem C6_last_template_wins :
  (∀ (F : Type) (PF : PyFloat F),
     (∀ (pre post : list (Raw.WageRateDoc F)) (r : Raw.WageRateDoc F)
        (rate_map : gmap (option string) (Rate.t F)),
        (∀ r' : Raw.WageRateDoc F,
           r' ∈ post → Raw.get (Raw.wr_craft r') ≠ Raw.get (Raw.wr_craft r)) →
        Raw.build_rate_map (pre ++ r :: post) = inr rate_map →
        rate_map !! Raw.get (Raw.wr_craft r)
        = Some {| Rate.base := dict_get (Raw.get (Raw.wr_base_rate r)) f_zero;
                  Rate.fringe :=
                    dict_get (Raw.get (Raw.wr_fringe_rate r)) f_zero;
                  Rate.apprentice_factor :=
                    dict_get (Raw.get (Raw.wr_apprentice_factor r)) f_0_6 |})
     ∧ (∀ (pre mid post : list (Raw.WageRateDoc F))
          (earlier later : Raw.WageRateDoc F)
          (rows : list (Raw.TimesheetEntryDoc F)),
          Raw.get (Raw.wr_craft earlier) = Raw.get (Raw.wr_craft later) →
          (Raw.template_without_None earlier →
           Raw.build_rate_map (pre ++ earlier :: mid ++ later :: post)
           = Raw.build_rate_map (pre ++ mid ++ later :: post)
           ∧ Raw.aggregate (pre ++ earlier :: mid ++ later :: post) rows
             = Raw.aggregate (pre ++ mid ++ later :: post) rows)
          ∧ (¬ Raw.template_without_None earlier →
             Raw.aggregate (pre ++ earlier :: mid ++ later :: post) rows
             = inl Raw.TypeError)))
  ∧ Raw.aggregate [ScenarioNone.electrician_None; ScenarioNone.electrician_later]
                  ScenarioNone.rows_A
    = inl Raw.TypeError
  ∧ Raw.aggregate [ScenarioNone.electrician_later] ScenarioNone.rows_A
    = inr ({| Totals.hours := Binary64.of_Z 8;
              Totals.base_pay := Binary64.of_Z 480;
              Totals.fringe := Binary64.of_Z 48;
              Totals.gross := Binary64.of_Z 528 |}, []).
Proof.
  split; [|split; by vm_compute].
  intros F PF. split.
  - intros pre post r rate_map Hpost Hbuild.
    destruct (raw_build_rate_map_inr _ _ Hbuild) as [_ ->].
    rewrite fmap_app. cbn [fmap list_fmap].
    rewrite <- raw_to_template_craft.
    rewrite build_rate_map_lookup_last; [done|].
    intros r' Hin. apply list_elem_of_fmap in Hin as (r0 & -> & Hin).
    rewrite !raw_to_template_craft. by apply Hpost.
  - intros pre mid post earlier later rows Hcraft.
    assert (Hfirst :
              build_rate_map
                (Raw.to_template <$> pre ++ earlier :: mid ++ later :: post)
              = build_rate_map
                  (Raw.to_template <$> pre ++ mid ++ later :: post)).
    { rewrite !fmap_app. cbn [fmap list_fmap]. rewrite !fmap_app.
      cbn [fmap list_fmap]. by apply build_rate_map_shadowed. }
    split.
    + intros Hearlier.
      assert (Hiff : Forall Raw.template_without_None
                       (pre ++ earlier :: mid ++ later :: post)
                     ↔ Forall Raw.template_without_None
                         (pre ++ mid ++ later :: post)).
      { rewrite !Forall_app, Forall_cons, !Forall_app. tauto. }
      split.
      * by apply raw_build_rate_map_eq.
      * apply raw_aggregate_eq; [tauto|].
        unfold aggregate, accumulate. by rewrite Hfirst.
    + intros Hnone. apply raw_aggregate_inl. intros [Hall _].
      apply Forall_app in Hall as [_ Hall].
      apply Forall_cons in Hall as [Hearlier _]. by apply Hnone.
Qed.

(** C7.  With no rows the four totals are 0.0 and there is no warning, in
    binary64 and in exact arithmetic, whenever no template holds [None]
    under a number.  The templates are converted before the rows are read
    (lines 116-123), so with a template that holds [None] the computation
    raises [TypeError] although there is no row: so for the Electrician
    template stored for ["apprentice_factor": null]. *)
Theorem C7_no_rows :
  (∀ rates : list (Raw.WageRateDoc spec_float),
     Forall Raw.template_without_None rates →
     Raw.aggregate rates []
     = inr ({| Totals.hours := S754_zero false;
               Totals.base_pay := S754_zero false;
               Totals.fringe := S754_zero false;
               Totals.gross := S754_zero false |}, []))
  ∧ (∀ rates : list (Raw.WageRateDoc Qc),
       Forall Raw.template_without_None rates →
       Raw.aggregate rates []
       = inr ({| Totals.hours := 0%Qc;
                 Totals.base_pay := 0%Qc;
                 Totals.fringe := 0%Qc;
                 Totals.gross := 0%Qc |}, []))
  ∧ (∀ (F : Type) (PF : PyFloat F) (rates : list (Raw.WageRateDoc F)),
       ¬ Forall Raw.template_without_None rates →
       Raw.aggregate rates [] = inl Raw.TypeError)
  ∧ Raw.aggregate [ScenarioNone.electrician_None] [] = inl Raw.TypeError.
Proof.
  split; [|split; [|split]].
  - intros rates Hrates. by rewrite raw_aggregate_ok by (done || constructor).
  - intros rates Hrates. rewrite raw_aggregate_ok by (done || constructor).
    f_equal. unfold aggregate, accumulate, round_totals. simpl.
    assert (Hzero : Exact.round2 0%Qc = 0%Qc)
      by (apply Qc_is_canon; reflexivity).
    by rewrite Hzero.
  - intros F PF rates Hnone. apply raw_aggregate_inl. by intros [Hall _].
  - by vm_compute.
Qed.

(** The identity of C8 is one of exact arithmetic only.  In binary64, with
    rates 0.1 and 0.2 and rows of 3 and 8 hours, the gross accumulator is
    3.3000000000000007 and the sum of the two others 3.3000000000000003;
    after [round(v, 2)] the totals agree again on this input. *)
Remark binary64_gross_regrouping :
  let v := totals (accumulate Scenario.templates_tenths Scenario.rows_tenths) in
  Totals.gross v = S754_finite false 7430939385161320 (-51)
  ∧ Binary64.add (Totals.base_pay v) (Totals.fringe v)
    = S754_finite false 7430939385161319 (-51)
  ∧ Totals.gross
      (aggregate Scenario.templates_tenths Scenario.rows_tenths).1
    = Binary64.literal 33 1.
Proof. by vm_compute. Qed.

(** C8.  In exact arithmetic, after any prefix of the rows the gross
    accumulator is the sum of the base-pay and fringe accumulators; so are
    the three accumulators when the loop ends. *)
Theorem C8_gross_is_base_plus_fringe :
  ∀ (rates : list (WageRate.t Qc)) (rows : list (TimesheetEntry.t Qc)),
    (∀ k : nat,
       let v := totals (accumulate rates (take k rows)) in
       Totals.gross v = (Totals.base_pay v + Totals.fringe v)%Qc)
    ∧ (let v := totals (accumulate rates rows) in
       Totals.gross v = (Totals.base_pay v + Totals.fringe v)%Qc).
Proof.
  intros rates rows. split; [intros k|];
    apply foldl_row_step_gross; simpl; ring.
Qed.

(** C9.  Documents that omit keys are read with fixed defaults, and
    nothing fails on them.  A row without ["hours"] is read as one with 0
    hours and a row without ["apprentice"] as one with [False]; a template
    without ["base_rate"] or ["fringe_rate"] as one with rate 0 and a
    template without ["apprentice_factor"] as one with 0.6.  Writing these
    defaults under every absent key changes nothing in what the
    computation does.  When every number is either absent or a number (no
    key holds [None]), the computation raises nothing and returns the
    totals and warnings of the aggregation with these defaults, and the
    handler, once the project is found, answers with a submission.  The
    defaults are the doubles 0.0 and 0.6 in binary64, the rationals 0 and
    6/10 in exact arithmetic. *)
Theorem C9_absent_keys_default :
  (∀ (F : Type) (PF : PyFloat F),
     (∀ (rate_map : gmap (option string) (Rate.t F)) (acc : Accumulators F)
        (craft : Raw.field string) (apprentice : Raw.field bool),
        Raw.row_step rate_map acc
          {| Raw.ts_craft := craft; Raw.ts_hours := Raw.Absent;
             Raw.ts_apprentice := apprentice |}
        = Raw.row_step rate_map acc
            {| Raw.ts_craft := craft; Raw.ts_hours := Raw.Value f_zero;
               Raw.ts_apprentice := apprentice |})
     ∧ (∀ (rate_map : gmap (option string) (Rate.t F)) (acc : Accumulators F)
          (craft : Raw.field string) (hours : Raw.field F),
          Raw.row_step rate_map acc
            {| Raw.ts_craft := craft; Raw.ts_hours := hours;
               Raw.ts_apprentice := Raw.Absent |}
          = Raw.row_step rate_map acc
              {| Raw.ts_craft := craft; Raw.ts_hours := hours;
                 Raw.ts_apprentice := Raw.Value false |})
     ∧ (∀ (craft : Raw.field string)
          (fringe_rate apprentice_factor : Raw.field F),
          Raw.rate_map_entry
            {| Raw.wr_craft := craft; Raw.wr_base_rate := Raw.Absent;
               Raw.wr_fringe_rate := fringe_rate;
               Raw.wr_apprentice_factor := apprentice_factor |}
          = Raw.rate_map_entry
              {| Raw.wr_craft := craft; Raw.wr_base_rate := Raw.Value f_zero;
                 Raw.wr_fringe_rate := fringe_rate;
                 Raw.wr_apprentice_factor := apprentice_factor |})
     ∧ (∀ (craft : Raw.field string)
          (base_rate apprentice_factor : Raw.field F),
          Raw.rate_map_entry
            {| Raw.wr_craft := craft; Raw.wr_base_rate := base_rate;
               Raw.wr_fringe_rate := Raw.Absent;
               Raw.wr_apprentice_factor := apprentice_factor |}
          = Raw.rate_map_entry
              {| Raw.wr_craft := craft; Raw.wr_base_rate := base_rate;
                 Raw.wr_fringe_rate := Raw.Value f_zero;
                 Raw.wr_apprentice_factor := apprentice_factor |})
     ∧ (∀ (craft : Raw.field string) (base_rate fringe_rate : Raw.field F),
          Raw.rate_map_entry
            {| Raw.wr_craft := craft; Raw.wr_base_rate := base_rate;
               Raw.wr_fringe_rate := fringe_rate;
               Raw.wr_apprentice_factor := Raw.Absent |}
          = Raw.rate_map_entry
              {| Raw.wr_craft := craft; Raw.wr_base_rate := base_rate;
                 Raw.wr_fringe_rate := fringe_rate;
                 Raw.wr_apprentice_factor := Raw.Value f_0_6 |})
     ∧ (∀ (rates : list (Raw.WageRateDoc F))
          (rows : list (Raw.TimesheetEntryDoc F)),
          Raw.aggregate rates rows
          = Raw.aggregate (Raw.template_with_defaults <$> rates)
                          (Raw.row_with_defaults <$> rows))
     ∧ (∀ (rates : list (Raw.WageRateDoc F))
          (rows : list (Raw.TimesheetEntryDoc F)),
          Forall Raw.template_without_None rates →
          Forall Raw.row_without_None rows →
          Raw.aggregate rates rows
          = inr (aggregate (Raw.to_template <$> rates) (Raw.to_row <$> rows)))
     ∧ (∀ (req : GenerateRequest.t) (db : Raw.Collections F)
          (proj : Raw.ProjectDoc F) (rates : list (Raw.WageRateDoc F)),
          Raw.find_project (Raw.projects db) (GenerateRequest.project_id req)
          = Some proj →
          Raw.iter_get (Raw.pr_wage_templates proj) = inr rates →
          Forall Raw.template_without_None rates →
          Forall Raw.row_without_None
            (Raw.get_rows db (GenerateRequest.project_id req)
                          (GenerateRequest.week_ending req)) →
          ∃ (sub_id : nat) (sub : Submission.t F) (db' : Raw.Collections F),
            Raw.generate_submission req db = (Raw.Created sub_id sub, db')))
  ∧ (f_zero : spec_float) = S754_zero false
  ∧ (f_0_6 : spec_float) = S754_finite false 5404319552844595 (-53)
  ∧ (Binary64.to_Q (f_0_6 : spec_float)
     == 5404319552844595 # 9007199254740992)%Q
  ∧ (f_zero : Qc) = Q2Qc 0
  ∧ (f_0_6 : Qc) = Q2Qc (6 # 10).
Proof.
  split; [|by vm_compute].
  intros F PF.
  split; [reflexivity|].
  split; [intros; unfold Raw.row_step; cbn; by destruct hours|].
  split; [reflexivity|].
  split; [intros; unfold Raw.rate_map_entry; cbn; by destruct base_rate|].
  split; [intros; unfold Raw.rate_map_entry; cbn;
          by destruct base_rate, fringe_rate|].
  split; [intros; symmetry; apply raw_aggregate_with_defaults|].
  split; [intros; by apply raw_aggregate_ok|].
  intros req db proj rates Hfind Hiter Hrates Hrows.
  pose proof (raw_generate_submission_created req db proj rates _ Hfind Hiter
                (raw_aggregate_ok _ _ Hrates Hrows)) as Heq.
  eexists _, _, _. exact Heq.
Qed.

(** C9 on the sparse documents: the computation returns, and the handler
    answers, with 10 hours at 50 * 0.6 and no fringe. *)
Lemma C9_absent_keys_default_witness :
  Raw.aggregate [ScenarioNone.electrician_sparse] ScenarioNone.rows_sparse
  = inr (aggregate (Raw.to_template <$> [ScenarioNone.electrician_sparse])
                   (Raw.to_row <$> ScenarioNone.rows_sparse))
  ∧ (∃ (sub_id : nat) (sub : Submission.t spec_float)
       (db' : Raw.Collections spec_float),
       Raw.generate_submission Scenario.request ScenarioNone.db_sparse
       = (Raw.Created sub_id sub, db'))
  ∧ Raw.aggregate [ScenarioNone.electrician_sparse] ScenarioNone.rows_sparse
    = inr ({| Totals.hours := Binary64.of_Z 10;
              Totals.base_pay := Binary64.of_Z 300;
              Totals.fringe := S754_zero false;
              Totals.gross := Binary64.of_Z 300 |}, []).
Proof.
  split; [|split].
  - apply (proj1 (proj2 (proj2 (proj2 (proj2 (proj2 (proj2
             (proj1 C9_absent_keys_default spec_float Binary64.f64))))))));
      repeat constructor; discriminate.
  - apply (proj2 (proj2 (proj2 (proj2 (proj2 (proj2 (proj2
             (proj1 C9_absent_keys_default spec_float Binary64.f64)))))))
             Scenario.request ScenarioNone.db_sparse
             {| Raw.pr_id := "p1";
                Raw.pr_wage_templates :=
                  Raw.Value [ScenarioNone.electrician_sparse] |}
             [ScenarioNone.electrician_sparse]).
    + reflexivity.
    + reflexivity.
    + repeat constructor; discriminate.
    + repeat constructor; discriminate.
  - by vm_compute.
Defined.

(** C10.  One more row whose craft is a key of the rate lookup leaves the
    warnings as they were, in any arithmetic, and, when the templates' base
    rates, fringe rates and apprentice factors and the row's hours are all
    non-negative, decreases none of the four unrounded totals, whatever the
    rows before it.  In binary64, where the stored numbers are well-formed
    doubles, no total after the row is less than before it in the IEEE 754
    comparison (rounding is monotone; a total that turns NaN is not less).
    In exact arithmetic each total before is at most the total after. *)
Theorem C10_matched_row_monotone :
  (∀ (F : Type) (PF : PyFloat F) (rates : list (WageRate.t F))
     (rows : list (TimesheetEntry.t F)) (t : TimesheetEntry.t F),
     is_Some (build_rate_map rates !! TimesheetEntry.craft t) →
     warnings (accumulate rates (rows ++ [t]))
     = warnings (accumulate rates rows))
  ∧ (∀ (rates : list (WageRate.t spec_float))
       (rows : list (TimesheetEntry.t spec_float))
       (t : TimesheetEntry.t spec_float),
       (∀ (r : WageRate.t spec_float) (x : spec_float),
          r ∈ rates →
          WageRate.base_rate r = Some x ∨ WageRate.fringe_rate r = Some x
          ∨ WageRate.apprentice_factor r = Some x →
          Binary64.well_formed x ∧ Binary64.nonneg x) →
       (∀ (t' : TimesheetEntry.t spec_float) (h : spec_float),
          t' ∈ rows ++ [t] →
          TimesheetEntry.hours t' = Some h → Binary64.well_formed h) →
       (∀ h, TimesheetEntry.hours t = Some h → Binary64.nonneg h) →
       is_Some (build_rate_map rates !! TimesheetEntry.craft t) →
       let before := totals (accumulate rates rows) in
       let after := totals (accumulate rates (rows ++ [t])) in
       SFltb (Totals.hours after) (Totals.hours before) = false
       ∧ SFltb (Totals.base_pay after) (Totals.base_pay before) = false
       ∧ SFltb (Totals.fringe after) (Totals.fringe before) = false
       ∧ SFltb (Totals.gross after) (Totals.gross before) = false)
  ∧ (∀ (rates : list (WageRate.t Qc)) (rows : list (TimesheetEntry.t Qc))
       (t : TimesheetEntry.t Qc),
       (∀ r : WageRate.t Qc,
          r ∈ rates →
          (∀ x, WageRate.base_rate r = Some x → (0 ≤ x)%Qc)
          ∧ (∀ x, WageRate.fringe_rate r = Some x → (0 ≤ x)%Qc)
          ∧ (∀ x, WageRate.apprentice_factor r = Some x → (0 ≤ x)%Qc)) →
       (∀ h, TimesheetEntry.hours t = Some h → (0 ≤ h)%Qc) →
       is_Some (build_rate_map rates !! TimesheetEntry.craft t) →
       let before := accumulate rates rows in
       let after := accumulate rates (rows ++ [t]) in
       (Totals.hours (totals before) ≤ Totals.hours (totals after))%Qc
       ∧ (Totals.base_pay (totals before)
          ≤ Totals.base_pay (totals after))%Qc
       ∧ (Totals.fringe (totals before) ≤ Totals.fringe (totals after))%Qc
       ∧ (Totals.gross (totals before) ≤ Totals.gross (totals after))%Qc
       ∧ warnings after = warnings before).
Proof.
  split; [|split].
  { intros F PF rates rows t [rm Hrm].
    by rewrite accumulate_snoc, (row_step_matched _ _ _ _ Hrm). }
  { exact Binary64Facts.binary64_matched_row_monotone. }
  intros rates rows t Hrates Hhours [rm Hrm] before after.
  destruct (build_rate_map_lookup_Some _ _ _ Hrm) as (r & Hin & _ & ->).
  destruct (Hrates r Hin) as (Hb & Hf & Ha).
  destruct (rate_map_entry_nonneg r Hb Hf Ha) as (Hbase & Hfringe & Hfactor).
  assert (Hh : (0 ≤ dict_get (TimesheetEntry.hours t) 0)%Qc).
  { destruct (TimesheetEntry.hours t) as [h|]; simpl; [by eauto|done]. }
  assert (Hf' : (0 ≤ if dict_get (TimesheetEntry.apprentice t) false
                     then Rate.apprentice_factor (rate_map_entry r)
                     else 1)%Qc).
  { destruct (dict_get (TimesheetEntry.apprentice t) false); [done|].
    by vm_compute. }
  subst before after.
  rewrite accumulate_snoc, (row_step_matched _ _ _ _ Hrm). simpl.
  repeat split.
  - by apply Qcle_plus_nonneg.
  - apply Qcle_plus_nonneg.
    by repeat apply Qcmult_nonneg_nonneg.
  - apply Qcle_plus_nonneg. by apply Qcmult_nonneg_nonneg.
  - apply Qcle_plus_nonneg. apply Qcplus_nonneg_nonneg.
    + by repeat apply Qcmult_nonneg_nonneg.
    + by apply Qcmult_nonneg_nonneg.
Qed.

(** C10 on the scenarios: after a Plumber row and an Electrician row of 8
    hours, an apprentice Electrician row of 10 hours, in binary64 and in
    exact arithmetic. *)
Lemma C10_matched_row_monotone_witness :
  (let before :=
     totals (accumulate Scenario.templates_A Scenario.rows_mixed) in
   let after :=
     totals (accumulate Scenario.templates_A
               (Scenario.rows_mixed ++ [Scenario.apprentice_row])) in
   SFltb (Totals.hours after) (Totals.hours before) = false
   ∧ SFltb (Totals.base_pay after) (Totals.base_pay before) = false
   ∧ SFltb (Totals.fringe after) (Totals.fringe before) = false
   ∧ SFltb (Totals.gross after) (Totals.gross before) = false)
  ∧ (let before := accumulate ScenarioExact.templates ScenarioExact.rows in
     let after :=
       accumulate ScenarioExact.templates
         (ScenarioExact.rows ++ [ScenarioExact.apprentice_row]) in
     (Totals.hours (totals before) ≤ Totals.hours (totals after))%Qc
     ∧ (Totals.base_pay (totals before)
        ≤ Totals.base_pay (totals after))%Qc
     ∧ (Totals.fringe (totals before) ≤ Totals.fringe (totals after))%Qc
     ∧ (Totals.gross (totals before) ≤ Totals.gross (totals after))%Qc
     ∧ warnings after = warnings before).
Proof.
  split.
  - apply (proj1 (proj2 C10_matched_row_monotone) Scenario.templates_A
             Scenario.rows_mixed Scenario.apprentice_row).
    + intros r x Hin Hx. apply list_elem_of_singleton in Hin. subst r.
      destruct Hx as [[= <-]|[[= <-]|[= <-]]]; split; reflexivity.
    + intros t' h Hin Hh. cbn in Hin.
      repeat (apply elem_of_cons in Hin as [->|Hin]);
        [| | |apply not_elem_of_nil in Hin; contradiction];
        injection Hh as <-; reflexivity.
    + intros h [= <-]. reflexivity.
    + exists (rate_map_entry Scenario.electrician). reflexivity.
  - apply (proj2 (proj2 C10_matched_row_monotone) ScenarioExact.templates
             ScenarioExact.rows ScenarioExact.apprentice_row).
    + intros r Hin. apply list_elem_of_singleton in Hin. subst r.
      repeat split; intros x [= <-]; by vm_compute.
    + intros h [= <-]. by vm_compute.
    + exists (rate_map_entry ScenarioExact.electrician). reflexivity.
Defined.

(** * Further properties of the handlers *)

(** ** More facts about the loop over the rows *)

Section LoopFacts.
Context {F : Type} `{PyFloat F}.
Implicit Types (rates : list (WageRate.t F)) (rows : list (TimesheetEntry.t F)).
Implicit Types (rate_map : gmap (option string) (Rate.t F)).
Implicit Types (acc : Accumulators F) (t : TimesheetEntry.t F).

Lemma filter_matched_unmatched_length rate_map rows :
  length (filter (λ t, rate_map !! TimesheetEntry.craft t = None) rows)
  + length (filter (λ t, is_Some (rate_map !! TimesheetEntry.craft t)) rows)
  = length rows.
Proof.
  induction rows as [|t rows IH]; [done|].
  destruct (rate_map !! TimesheetEntry.craft t) as [rm|] eqn:Hrm.
  - rewrite filter_cons_False by (rewrite Hrm; done).
    rewrite (filter_cons_True (λ t, is_Some _)) by (rewrite Hrm; eauto).
    simpl. lia.
  - rewrite filter_cons_True by done.
    rewrite (filter_cons_False (λ t, is_Some _))
      by (rewrite Hrm; by intros [? ?]).
    simpl. lia.
Qed.

(** The totals after a loop depend on the starting accumulators through
    their totals only. *)
Lemma foldl_row_step_totals_ext rate_map acc acc' rows :
  totals acc = totals acc' →
  totals (foldl (row_step rate_map) acc rows)
  = totals (foldl (row_step rate_map) acc' rows).
Proof.
  revert acc acc'. induction rows as [|t rows IH]; intros acc acc' Htot; simpl.
  - done.
  - apply IH. unfold row_step.
    destruct (rate_map !! TimesheetEntry.craft t); simpl; by rewrite ?Htot.
Qed.

(** The loop looks the rate map up at the crafts of the rows only. *)
Lemma foldl_row_step_agree rate_map rate_map' acc rows :
  (∀ t, t ∈ rows →
     rate_map !! TimesheetEntry.craft t = rate_map' !! TimesheetEntry.craft t) →
  foldl (row_step rate_map) acc rows = foldl (row_step rate_map') acc rows.
Proof.
  revert acc. induction rows as [|t rows IH]; intros acc Hagree; simpl.
  - done.
  - assert (Hstep : row_step rate_map acc t = row_step rate_map' acc t).
    { unfold row_step. rewrite (Hagree t) by left. done. }
    rewrite Hstep. apply IH. intros t' Hin. apply Hagree. by right.
Qed.

End LoopFacts.

(** X1.  The warnings and the matched rows account for every row: the
    number of warnings returned plus the number of rows whose craft is a
    key of the rate lookup is the number of rows, so there are never more
    warnings than rows, and as many exactly when no row is matched. *)
Theorem X1_warnings_count :
  ∀ (F : Type) (PF : PyFloat F) (rates : list (WageRate.t F))
    (rows : list (TimesheetEntry.t F)),
    let matched :=
      filter (λ t, is_Some (build_rate_map rates !! TimesheetEntry.craft t))
             rows in
    length (aggregate rates rows).2 + length matched = length rows
    ∧ length (aggregate rates rows).2 ≤ length rows
    ∧ (length (aggregate rates rows).2 = length rows ↔ matched = []).
Proof.
  intros F PF rates rows matched.
  assert (Hlen : length (aggregate rates rows).2 + length matched
                 = length rows).
  { unfold aggregate, accumulate. cbn [snd].
    rewrite foldl_row_step_warnings. cbn [warnings initial app].
    rewrite length_fmap. apply filter_matched_unmatched_length. }
  clearbody matched.
  split; [exact Hlen|]. split; [lia|].
  split.
  - intros Heq. apply length_zero_iff_nil. lia.
  - intros ->. cbn [length] in Hlen. lia.
Qed.

(** ** More facts of exact arithmetic *)

Lemma totals_plus_comm (a b : Totals.t Qc) :
  totals_plus a b = totals_plus b a.
Proof. unfold totals_plus. f_equal; ring. Qed.

Lemma totals_plus_assoc (a b c : Totals.t Qc) :
  totals_plus a (totals_plus b c) = totals_plus (totals_plus a b) c.
Proof. unfold totals_plus. simpl. f_equal; ring. Qed.

Lemma totals_plus_initial (a : Totals.t Qc) :
  totals_plus a (totals initial) = a.
Proof. destruct a. unfold totals_plus. simpl. f_equal; ring. Qed.

(** One step adds the contribution of its row. *)
Lemma row_step_totals_plus (rate_map : gmap (option string) (Rate.t Qc))
    (acc : Accumulators Qc) (t : TimesheetEntry.t Qc) :
  totals (row_step rate_map acc t)
  = totals_plus (totals acc) (totals (row_step rate_map initial t)).
Proof.
  unfold row_step.
  destruct (rate_map !! TimesheetEntry.craft t) as [rm|]; simpl.
  - unfold totals_plus. simpl. f_equal; ring.
  - by rewrite totals_plus_initial.
Qed.

Lemma foldl_row_step_totals_plus
    (rate_map : gmap (option string) (Rate.t Qc))
    (acc : Accumulators Qc) (rows : list (TimesheetEntry.t Qc)) :
  totals (foldl (row_step rate_map) acc rows)
  = totals_plus (totals acc) (totals (foldl (row_step rate_map) initial rows)).
Proof.
  induction rows as [|t rows IH] using rev_ind.
  - simpl. by rewrite totals_plus_initial.
  - rewrite !foldl_snoc.
    rewrite row_step_totals_plus, IH.
    rewrite (row_step_totals_plus _ (foldl _ initial rows)).
    by rewrite totals_plus_assoc.
Qed.

Lemma foldl_row_step_totals_perm
    (rate_map : gmap (option string) (Rate.t Qc))
    (rows rows' : list (TimesheetEntry.t Qc)) :
  rows ≡ₚ rows' →
  totals (foldl (row_step rate_map) initial rows)
  = totals (foldl (row_step rate_map) initial rows').
Proof.
  induction 1 as [|t l l' Hperm IH|t t' l|l1 l2 l3 _ IH1 _ IH2].
  - done.
  - simpl. rewrite (foldl_row_step_totals_plus _ _ l).
    rewrite (foldl_row_step_totals_plus _ _ l'). by rewrite IH.
  - simpl.
    rewrite (foldl_row_step_totals_plus _ (row_step _ (row_step _ _ _) _) l).
    rewrite (foldl_row_step_totals_plus _ (row_step _ (row_step _ initial t) _) l).
    f_equal.
    rewrite (row_step_totals_plus _ (row_step _ initial t')).
    rewrite (row_step_totals_plus _ (row_step _ initial t)).
    apply totals_plus_comm.
  - by rewrite IH1.
Qed.

(** X2.  The loop splits over a concatenation of the rows: the warnings of
    [rows1 ++ rows2] are those of [rows1] followed by those of [rows2], in
    any arithmetic, and in exact arithmetic each unrounded total is the sum
    of the two parts' totals. *)
Theorem X2_concatenation :
  (∀ (F : Type) (PF : PyFloat F) (rates : list (WageRate.t F))
     (rows1 rows2 : list (TimesheetEntry.t F)),
     (aggregate rates (rows1 ++ rows2)).2
     = (aggregate rates rows1).2 ++ (aggregate rates rows2).2)
  ∧ (∀ (rates : list (WageRate.t Qc)) (rows1 rows2 : list (TimesheetEntry.t Qc)),
       totals (accumulate rates (rows1 ++ rows2))
       = totals_plus (totals (accumulate rates rows1))
                     (totals (accumulate rates rows2))).
Proof.
  split.
  - intros F PF rates rows1 rows2. unfold aggregate, accumulate. cbn [snd].
    rewrite !foldl_row_step_warnings. cbn [warnings initial app].
    by rewrite filter_app, fmap_app.
  - intros rates rows1 rows2. unfold accumulate.
    rewrite foldl_app. apply foldl_row_step_totals_plus.
Qed.

(** X3.  In exact arithmetic the totals do not depend on the order of the
    rows: a permutation of the rows gives the same totals, unrounded and
    rounded, and a permutation of the warnings.  In binary64 they do: one
    Laborer template at 41.1 and rows of 5.0, 4.75 and 9.5 hours return the
    base pay 791.17, and the same rows in the order 5.0, 9.5, 4.75 return
    791.18. *)
Theorem X3_row_order :
  (∀ (rates : list (WageRate.t Qc)) (rows rows' : list (TimesheetEntry.t Qc)),
     rows ≡ₚ rows' →
     totals (accumulate rates rows) = totals (accumulate rates rows')
     ∧ (aggregate rates rows).1 = (aggregate rates rows').1
     ∧ (aggregate rates rows).2 ≡ₚ (aggregate rates rows').2)
  ∧ (ScenarioOrder.rows_a ≡ₚ ScenarioOrder.rows_b
     ∧ Totals.base_pay
         (aggregate [ScenarioOrder.laborer] ScenarioOrder.rows_a).1
       = Binary64.literal 79117 2
     ∧ Totals.base_pay
         (aggregate [ScenarioOrder.laborer] ScenarioOrder.rows_b).1
       = Binary64.literal 79118 2).
Proof.
  split.
  - intros rates rows rows' Hperm.
    assert (Htot : totals (accumulate rates rows)
                   = totals (accumulate rates rows'))
      by (by apply foldl_row_step_totals_perm).
    split; [exact Htot|]. split.
    + unfold aggregate. cbn [fst]. by rewrite Htot.
    + unfold aggregate, accumulate. cbn [snd].
      rewrite !foldl_row_step_warnings. cbn [warnings initial app].
      by rewrite Hperm.
  - split; [|split].
    + unfold ScenarioOrder.rows_a, ScenarioOrder.rows_b.
      apply perm_skip, perm_swap.
    + by vm_compute.
    + by vm_compute.
Qed.

(** X3 on the exact scenario rows, swapped. *)
Lemma X3_row_order_witness :
  totals (accumulate ScenarioExact.templates ScenarioExact.rows)
  = totals (accumulate ScenarioExact.templates
              (reverse ScenarioExact.rows))
  ∧ (aggregate ScenarioExact.templates ScenarioExact.rows).1
    = (aggregate ScenarioExact.templates (reverse ScenarioExact.rows)).1
  ∧ (aggregate ScenarioExact.templates ScenarioExact.rows).2
    ≡ₚ (aggregate ScenarioExact.templates (reverse ScenarioExact.rows)).2.
Proof.
  apply (proj1 X3_row_order ScenarioExact.templates ScenarioExact.rows
           (reverse ScenarioExact.rows)).
  apply perm_swap.
Defined.

(** ** More facts about the rate lookup *)

Lemma filter_none {A} (P : A → Prop) `{∀ x, Decision (P x)} (l : list A) :
  (∀ x, x ∈ l → ¬ P x) → filter P l = [].
Proof.
  induction l as [|x l IH]; intros Hnone; [done|].
  rewrite filter_cons_False by (apply Hnone; left).
  apply IH. intros y Hin. apply Hnone. by right.
Qed.

Lemma filter_eq_NoDup_length {A B} `{EqDecision B} (f : A → B) (c : B)
    (l : list A) :
  NoDup (f <$> l) → length (filter (λ x, f x = c) l) ≤ 1.
Proof.
  induction l as [|x l IH]; intros Hnd; [simpl; lia|].
  rewrite fmap_cons in Hnd. apply NoDup_cons in Hnd as [Hnotin Hnd].
  destruct (decide (f x = c)) as [Heq|Hne].
  - rewrite filter_cons_True by done.
    rewrite (filter_none (λ x, f x = c)); [simpl; lia|].
    intros y Hin Hy. apply Hnotin. rewrite Heq, <- Hy.
    by apply list_elem_of_fmap_2.
  - rewrite filter_cons_False by done. by apply IH.
Qed.

Lemma Permutation_short {A} (l k : list A) :
  l ≡ₚ k → length l ≤ 1 → l = k.
Proof.
  intros Hperm Hlen. destruct l as [|x [|y l]]; simpl in Hlen; try lia.
  - by apply Permutation_nil_l.
  - by apply Permutation_singleton_l.
Qed.

Section LookupFacts.
Context {F : Type} `{PyFloat F}.
Implicit Types (rates : list (WageRate.t F)) (rows : list (TimesheetEntry.t F)).

Lemma build_rate_map_perm rates rates' :
  NoDup (WageRate.craft <$> rates) →
  rates ≡ₚ rates' →
  build_rate_map rates = build_rate_map rates'.
Proof.
  intros Hnd Hperm. apply map_eq. intros craft.
  rewrite !build_rate_map_lookup. f_equal. f_equal.
  apply Permutation_short.
  - by rewrite Hperm.
  - by apply filter_eq_NoDup_length.
Qed.

End LookupFacts.

(** ** Unused templates and unread factors, in the first reading *)

Lemma filter_fmap {A B} (f : A → B) (P : B → Prop) `{∀ y, Decision (P y)}
    (l : list A) :
  filter P (f <$> l) = f <$> filter (λ x, P (f x)) l.
Proof.
  induction l as [|x l IH]; [done|]. cbn [fmap list_fmap].
  destruct (decide (P (f x))) as [Hx|Hx].
  - rewrite !filter_cons_True by done. cbn [fmap list_fmap]. by rewrite IH.
  - by rewrite !filter_cons_False by done.
Qed.

Section FirstReadingFacts.
Context {F : Type} `{PyFloat F}.
Implicit Types (rates : list (WageRate.t F)) (rows : list (TimesheetEntry.t F)).

Lemma aggregate_unused_templates rates rows :
  aggregate
    (filter (λ r, WageRate.craft r ∈ (TimesheetEntry.craft <$> rows)) rates)
    rows
  = aggregate rates rows.
Proof.
  unfold aggregate, accumulate.
  rewrite (foldl_row_step_agree _ (build_rate_map rates)); [done|].
  intros t Hin. rewrite !build_rate_map_lookup. f_equal. f_equal.
  assert (Hused : TimesheetEntry.craft t ∈ (TimesheetEntry.craft <$> rows))
    by (by apply list_elem_of_fmap_2).
  induction rates as [|r rates IH]; [done|].
  destruct (decide (WageRate.craft r = TimesheetEntry.craft t)) as [Heq|Hne].
  - rewrite (filter_cons_True (λ r, _ ∈ _)) by (by rewrite Heq).
    rewrite !(filter_cons_True (λ r, _ = _)) by done. by rewrite IH.
  - rewrite (filter_cons_False (λ r, _ = _) r rates) by done.
    destruct (decide (WageRate.craft r ∈ (TimesheetEntry.craft <$> rows))).
    + rewrite (filter_cons_True (λ r, _ ∈ _)) by done.
      by rewrite filter_cons_False.
    + by rewrite (filter_cons_False (λ r, _ ∈ _)).
Qed.

Lemma build_rate_map_same_rates rates rates' :
  Forall2 same_pay rates rates' →
  same_rates (build_rate_map rates) (build_rate_map rates').
Proof.
  unfold build_rate_map.
  assert (Hgen : ∀ m m', same_rates m m' →
            Forall2 same_pay rates rates' →
            same_rates
              (foldl (λ rate_map r, <[WageRate.craft r := rate_map_entry r]> rate_map)
                     m rates)
              (foldl (λ rate_map r, <[WageRate.craft r := rate_map_entry r]> rate_map)
                     m' rates')).
  { intros m m' Hm Hall. revert m m' Hm.
    induction Hall as [|r r' l l' (Hc & Hb & Hf) _ IH]; intros m m' Hm.
    - exact Hm.
    - simpl. apply IH. intros craft. rewrite <- Hc.
      destruct (decide (WageRate.craft r = craft)) as [->|Hne].
      + rewrite !lookup_insert_eq. constructor.
        unfold rate_map_entry. simpl. by rewrite Hb, Hf.
      + rewrite !lookup_insert_ne by done. apply Hm. }
  intros Hall. apply Hgen; [|exact Hall].
  intros craft. rewrite !lookup_empty. constructor.
Qed.

Lemma row_step_same_rates (m m' : gmap (option string) (Rate.t F))
    (acc : Accumulators F) (t : TimesheetEntry.t F) :
  same_rates m m' →
  dict_get (TimesheetEntry.apprentice t) false = false →
  row_step m acc t = row_step m' acc t.
Proof.
  intros Hm Happ. unfold row_step. rewrite Happ.
  destruct (Hm (TimesheetEntry.craft t)) as [e e' [Hb Hf]|]; [|done].
  by rewrite Hb, Hf.
Qed.

Lemma aggregate_same_pay rates rates' rows :
  Forall2 same_pay rates rates' →
  Forall (λ t, dict_get (TimesheetEntry.apprentice t) false = false) rows →
  aggregate rates rows = aggregate rates' rows.
Proof.
  intros Hrates Hrows.
  pose proof (build_rate_map_same_rates _ _ Hrates) as Hmaps.
  unfold aggregate, accumulate.
  assert (Hloop : ∀ acc,
            foldl (row_step (build_rate_map rates)) acc rows
            = foldl (row_step (build_rate_map rates')) acc rows).
  { induction Hrows as [|t rows Ht _ IH]; intros acc; simpl; [done|].
    rewrite (row_step_same_rates _ (build_rate_map rates')) by done.
    apply IH. }
  by rewrite Hloop.
Qed.

End FirstReadingFacts.

(** X4.  Templates that no row uses play no part in the result, unless
    one of them holds [None] under a number.  Dropping every template
    whose craft is the craft of no row leaves the outcome as it is when
    each dropped template is free of [None], and never changes a result
    that was returned.  But every template is converted, used or not
    (lines 117-123): with the Roofer template stored for
    ["apprentice_factor": null] beside the Electrician one, an Electrician
    row raises [TypeError], and without it the totals are 8.0, 400.0, 40.0
    and 440.0. *)
Theorem X4_unused_templates :
  (∀ (F : Type) (PF : PyFloat F) (rates : list (Raw.WageRateDoc F))
     (rows : list (Raw.TimesheetEntryDoc F)),
     let used (r : Raw.WageRateDoc F) :=
       Raw.get (Raw.wr_craft r) ∈ ((Raw.get ∘ Raw.ts_craft) <$> rows) in
     (Forall (λ r, used r ∨ Raw.template_without_None r) rates →
      Raw.aggregate (filter used rates) rows = Raw.aggregate rates rows)
     ∧ (∀ result : Totals.t F * list string,
          Raw.aggregate rates rows = inr result →
          Raw.aggregate (filter used rates) rows = inr result))
  ∧ Raw.aggregate [ScenarioNone.electrician; ScenarioNone.roofer_None]
                  ScenarioNone.rows_A
    = inl Raw.TypeError
  ∧ Raw.aggregate [ScenarioNone.electrician] ScenarioNone.rows_A
    = inr ({| Totals.hours := Binary64.of_Z 8;
              Totals.base_pay := Binary64.of_Z 400;
              Totals.fringe := Binary64.of_Z 40;
              Totals.gross := Binary64.of_Z 440 |}, []).
Proof.
  split; [|split; by vm_compute].
  intros F PF rates rows used.
  assert (Hkept : Forall (λ r, used r ∨ Raw.template_without_None r) rates →
                  Raw.aggregate (filter used rates) rows
                  = Raw.aggregate rates rows).
  { intros Hdropped. apply raw_aggregate_eq.
    - split; intros [Hrates Hrows]; (split; [|exact Hrows]).
      + rewrite Forall_forall in Hdropped. apply Forall_forall. intros r Hin.
        destruct (Hdropped r Hin) as [Hused|Hok]; [|exact Hok].
        rewrite Forall_forall in Hrates. apply Hrates.
        by apply list_elem_of_filter.
      + rewrite Forall_forall in Hrates. apply Forall_forall. intros r Hin.
        apply list_elem_of_filter in Hin as [_ Hin]. by apply Hrates.
    - rewrite <- (aggregate_unused_templates (Raw.to_template <$> rates)).
      f_equal. rewrite filter_fmap. f_equal.
      apply list_filter_iff. intros r. unfold used.
      rewrite <- list_fmap_compose. done. }
  split; [exact Hkept|].
  intros result Hres. rewrite Hkept; [exact Hres|].
  destruct (raw_aggregate_inr _ _ _ Hres) as (Hrates & _ & _).
  eapply Forall_impl; [exact Hrates|]. intros r Hr. by right.
Qed.

(** X4 on the Electrician template and a Roofer template that no row
    names. *)
Lemma X4_unused_templates_witness :
  Raw.aggregate
    (filter (λ r, Raw.get (Raw.wr_craft r)
                  ∈ ((Raw.get ∘ Raw.ts_craft) <$> ScenarioNone.rows_A))
            [ScenarioNone.electrician;
             ScenarioNone.template "Roofer" 40 4
               (Raw.Value (Binary64.literal 6 1))])
    ScenarioNone.rows_A
  = Raw.aggregate
      [ScenarioNone.electrician;
       ScenarioNone.template "Roofer" 40 4 (Raw.Value (Binary64.literal 6 1))]
      ScenarioNone.rows_A.
Proof.
  apply (proj1 (proj1 X4_unused_templates spec_float Binary64.f64
                  [ScenarioNone.electrician;
                   ScenarioNone.template "Roofer" 40 4
                     (Raw.Value (Binary64.literal 6 1))]
                  ScenarioNone.rows_A)).
  constructor; [|constructor; [|constructor]];
    right; repeat split; discriminate.
Defined.


(** X5.  When no two templates name the same craft, the order of the
    templates does not matter: a permutation of them gives the same rate
    lookup, hence the same totals and warnings. *)
Theorem X5_template_order :
  ∀ (F : Type) (PF : PyFloat F) (rates rates' : list (WageRate.t F))
    (rows : list (TimesheetEntry.t F)),
    NoDup (WageRate.craft <$> rates) →
    rates ≡ₚ rates' →
    build_rate_map rates = build_rate_map rates'
    ∧ aggregate rates rows = aggregate rates' rows.
Proof.
  intros F PF rates rates' rows Hnd Hperm.
  assert (Hmap : build_rate_map rates = build_rate_map rates')
    by (by apply build_rate_map_perm).
  split; [exact Hmap|].
  unfold aggregate, accumulate. by rewrite Hmap.
Qed.

(** X5 on the Electrician and the Laborer template, swapped. *)
Lemma X5_template_order_witness :
  build_rate_map [Scenario.electrician; ScenarioOrder.laborer]
  = build_rate_map [ScenarioOrder.laborer; Scenario.electrician]
  ∧ aggregate [Scenario.electrician; ScenarioOrder.laborer] Scenario.rows_mixed
    = aggregate [ScenarioOrder.laborer; Scenario.electrician]
        Scenario.rows_mixed.
Proof.
  apply (X5_template_order spec_float Binary64.f64
           [Scenario.electrician; ScenarioOrder.laborer]
           [ScenarioOrder.laborer; Scenario.electrician]
           Scenario.rows_mixed).
  - apply (bool_decide_unpack _). vm_compute. exact I.
  - apply perm_swap.
Defined.

(** X6.  For rows that are not apprentice rows the value of the apprentice
    factor does not matter, as long as it is not [None]: two template
    lists that agree, position by position, on craft, base rate and fringe
    rate, and none of whose factors is [None], give the same outcome for
    rows whose apprentice flag is false, absent or [None].  The factor is
    converted all the same (line 122): the Electrician template stored
    for ["apprentice_factor": null] makes a row that is not an apprentice
    row raise [TypeError], where the factor 0.6 gives 8.0, 400.0, 40.0 and
    440.0. *)
Theorem X6_factor_unused :
  (∀ (F : Type) (PF : PyFloat F) (rates rates' : list (Raw.WageRateDoc F))
     (rows : list (Raw.TimesheetEntryDoc F)),
     Forall2 Raw.same_pay rates rates' →
     Forall (λ r, Raw.wr_apprentice_factor r ≠ Raw.Null) rates →
     Forall (λ r, Raw.wr_apprentice_factor r ≠ Raw.Null) rates' →
     Forall (λ t, Raw.bool_get (Raw.ts_apprentice t) = false) rows →
     Raw.aggregate rates rows = Raw.aggregate rates' rows)
  ∧ Raw.same_pay ScenarioNone.electrician_None ScenarioNone.electrician
  ∧ Raw.aggregate [ScenarioNone.electrician_None] ScenarioNone.rows_A
    = inl Raw.TypeError
  ∧ Raw.aggregate [ScenarioNone.electrician] ScenarioNone.rows_A
    = inr ({| Totals.hours := Binary64.of_Z 8;
              Totals.base_pay := Binary64.of_Z 400;
              Totals.fringe := Binary64.of_Z 40;
              Totals.gross := Binary64.of_Z 440 |}, []).
Proof.
  split; [|split; [by repeat split|split; by vm_compute]].
  intros F PF rates rates' rows Hsame Hfac Hfac' Hrows.
  apply raw_aggregate_eq.
  - assert (Hiff : Forall Raw.template_without_None rates
                   ↔ Forall Raw.template_without_None rates').
    { clear Hrows. induction Hsame as [|r r' l l' (Hc & Hb & Hf) _ IH].
      - done.
      - apply Forall_cons in Hfac as [Hr Hfac].
        apply Forall_cons in Hfac' as [Hr' Hfac'].
        rewrite !Forall_cons, (IH Hfac Hfac').
        unfold Raw.template_without_None. rewrite Hb, Hf. tauto. }
    tauto.
  - apply aggregate_same_pay.
    + clear Hfac Hfac' Hrows.
      induction Hsame as [|r r' l l' (Hc & Hb & Hf) _ IH]; [constructor|].
      cbn [fmap list_fmap]. constructor; [|exact IH].
      unfold same_pay, Raw.to_template. cbn. by rewrite Hc, Hb, Hf.
    + clear Hsame Hfac Hfac'.
      induction Hrows as [|t rows Ht _ IH]; [constructor|].
      cbn [fmap list_fmap]. constructor; [|exact IH].
      unfold Raw.to_row. cbn. by destruct (Raw.ts_apprentice t).
Qed.

(** X6 on the Electrician template with the factors 0.6 and 1.0. *)
Lemma X6_factor_unused_witness :
  Raw.aggregate [ScenarioNone.electrician] ScenarioNone.rows_A
  = Raw.aggregate
      [ScenarioNone.template "Electrician" 50 5
         (Raw.Value (Binary64.of_Z 1))]
      ScenarioNone.rows_A.
Proof.
  apply (proj1 X6_factor_unused spec_float Binary64.f64).
  - constructor; [|constructor]. by repeat split.
  - repeat constructor. discriminate.
  - repeat constructor. discriminate.
  - repeat constructor.
Defined.

(** ** More facts about rounding, in exact arithmetic *)

Lemma round_half_even_inject_Z (q : Q) (n : Z) :
  (q == inject_Z n)%Q → Rounding.round_half_even q = n.
Proof.
  intros Hq. apply (nearest_ties_even_unique q).
  - apply round_half_even_spec.
  - split; [lra|]. intros [Ht|Ht]; lra.
Qed.

Lemma round_half_even_nonneg (q : Q) :
  (0 <= q)%Q → (0 <= Rounding.round_half_even q)%Z.
Proof.
  intros Hq. destruct (round_half_even_spec q) as [[Hlo Hhi] _].
  assert (Hlt : (-1 < Rounding.round_half_even q)%Z).
  { rewrite Zlt_Qlt. change (inject_Z (-1)) with (-1)%Q. lra. }
  lia.
Qed.

Lemma round2_value (q : Qc) :
  (100 * Exact.round2 q == inject_Z (Rounding.round_half_even (100 * q)))%Q.
Proof. unfold Exact.round2, Q2Qc. cbn [this]. rewrite Qred_correct. field. Qed.

Lemma round2_near (q : Qc) :
  (q - Q2Qc (1 # 200) ≤ Exact.round2 q)%Qc
  ∧ (Exact.round2 q ≤ q + Q2Qc (1 # 200))%Qc.
Proof.
  pose proof (round2_value q) as Hv.
  destruct (round_half_even_spec (100 * q)%Q) as [[Hlo Hhi] _].
  qc_to_q. split; lra.
Qed.

Lemma round2_idempotent (q : Qc) :
  Exact.round2 (Exact.round2 q) = Exact.round2 q.
Proof.
  unfold Exact.round2 at 1 3. f_equal. f_equal. f_equal.
  apply round_half_even_inject_Z, round2_value.
Qed.

Lemma round2_nonneg (q : Qc) : (0 ≤ q)%Qc → (0 ≤ Exact.round2 q)%Qc.
Proof.
  intros Hq. pose proof (round2_value q) as Hv.
  assert (Hn : (0 <= Rounding.round_half_even (100 * q))%Z).
  { apply round_half_even_nonneg. qc_to_q. change (this 0%Qc) with 0%Q in Hq.
    lra. }
  rewrite Zle_Qle in Hn. change (inject_Z 0) with 0%Q in Hn.
  qc_to_q. change (this 0%Qc) with 0%Q. lra.
Qed.

Lemma totals_eq_Qc (x y : Totals.t Qc) :
  (Totals.hours x == Totals.hours y)%Q →
  (Totals.base_pay x == Totals.base_pay y)%Q →
  (Totals.fringe x == Totals.fringe y)%Q →
  (Totals.gross x == Totals.gross y)%Q →
  x = y.
Proof.
  destruct x, y. simpl. intros ? ? ? ?. f_equal; by apply Qc_is_canon.
Qed.

(** X7.  In exact arithmetic [round(v, 2)] moves a value by at most half a
    cent, keeps a non-negative value non-negative, and returns a value
    that rounding again leaves alone; so each returned total lies within
    0.005 of its accumulator, and rounding the returned totals once more
    changes nothing. *)
Theorem X7_rounding_accuracy :
  (∀ q : Qc,
     (q - Q2Qc (1 # 200) ≤ Exact.round2 q)%Qc
     ∧ (Exact.round2 q ≤ q + Q2Qc (1 # 200))%Qc
     ∧ Exact.round2 (Exact.round2 q) = Exact.round2 q)
  ∧ (∀ (rates : list (WageRate.t Qc)) (rows : list (TimesheetEntry.t Qc)),
       let u := totals (accumulate rates rows) in
       let v := (aggregate rates rows).1 in
       (Totals.hours u - Q2Qc (1 # 200) ≤ Totals.hours v)%Qc
       ∧ (Totals.hours v ≤ Totals.hours u + Q2Qc (1 # 200))%Qc
       ∧ (Totals.base_pay u - Q2Qc (1 # 200) ≤ Totals.base_pay v)%Qc
       ∧ (Totals.base_pay v ≤ Totals.base_pay u + Q2Qc (1 # 200))%Qc
       ∧ (Totals.fringe u - Q2Qc (1 # 200) ≤ Totals.fringe v)%Qc
       ∧ (Totals.fringe v ≤ Totals.fringe u + Q2Qc (1 # 200))%Qc
       ∧ (Totals.gross u - Q2Qc (1 # 200) ≤ Totals.gross v)%Qc
       ∧ (Totals.gross v ≤ Totals.gross u + Q2Qc (1 # 200))%Qc
       ∧ round_totals v = v).
Proof.
  split.
  - intros q. destruct (round2_near q) as [Hlo Hhi].
    split; [exact Hlo|]. split; [exact Hhi|]. apply round2_idempotent.
  - intros rates rows u v. subst v. unfold aggregate. cbn [fst]. fold u.
    unfold round_totals at 1 2 3 4 5 6 7 8.
    cbn [Totals.hours Totals.base_pay Totals.fringe Totals.gross
         f_round2 Exact.exact].
    destruct (round2_near (Totals.hours u)) as [? ?].
    destruct (round2_near (Totals.base_pay u)) as [? ?].
    destruct (round2_near (Totals.fringe u)) as [? ?].
    destruct (round2_near (Totals.gross u)) as [? ?].
    repeat (split; [assumption|]).
    unfold round_totals.
    cbn [Totals.hours Totals.base_pay Totals.fringe Totals.gross
         f_round2 Exact.exact].
    by rewrite !round2_idempotent.
Qed.

(** X8.  The returned gross need not be the sum of the returned base pay
    and fringe, because the three are rounded separately.  In exact
    arithmetic the two differ by at most one cent.  One cent is reached:
    for one template at 1.0 and 1.0 and a row of 0.125 hours the handler
    returns base pay 0.12, fringe 0.12 and gross 0.25, in exact arithmetic
    and in binary64. *)
Theorem X8_rounded_gross :
  (∀ (rates : list (WageRate.t Qc)) (rows : list (TimesheetEntry.t Qc)),
     let v := (aggregate rates rows).1 in
     (Totals.base_pay v + Totals.fringe v - Q2Qc (1 # 100) ≤ Totals.gross v)%Qc
     ∧ (Totals.gross v ≤ Totals.base_pay v + Totals.fringe v + Q2Qc (1 # 100))%Qc)
  ∧ (aggregate [ScenarioCents.laborer_exact] ScenarioCents.rows_exact).1
    = {| Totals.hours := Q2Qc (12 # 100);
         Totals.base_pay := Q2Qc (12 # 100);
         Totals.fringe := Q2Qc (12 # 100);
         Totals.gross := Q2Qc (25 # 100) |}
  ∧ (aggregate [ScenarioCents.laborer] ScenarioCents.rows).1
    = {| Totals.hours := Binary64.literal 12 2;
         Totals.base_pay := Binary64.literal 12 2;
         Totals.fringe := Binary64.literal 12 2;
         Totals.gross := Binary64.literal 25 2 |}.
Proof.
  split; [|split].
  - intros rates rows v. subst v. unfold aggregate. cbn [fst].
    pose proof (foldl_row_step_gross (build_rate_map rates) initial rows
                  eq_refl) as Hg.
    cbv zeta in Hg. fold (accumulate rates rows) in Hg.
    set (u := totals (accumulate rates rows)) in *.
    unfold round_totals.
    cbn [Totals.hours Totals.base_pay Totals.fringe Totals.gross
         f_round2 Exact.exact].
    destruct (round2_near (Totals.base_pay u)) as [Hb1 Hb2].
    destruct (round2_near (Totals.fringe u)) as [Hf1 Hf2].
    destruct (round2_near (Totals.gross u)) as [Hg1 Hg2].
    pose proof (round2_value (Totals.base_pay u)) as Vb.
    pose proof (round2_value (Totals.fringe u)) as Vf.
    pose proof (round2_value (Totals.gross u)) as Vg.
    set (nb := Rounding.round_half_even (100 * Totals.base_pay u)) in *.
    set (nf := Rounding.round_half_even (100 * Totals.fringe u)) in *.
    set (ng := Rounding.round_half_even (100 * Totals.gross u)) in *.
    set (b := Exact.round2 (Totals.base_pay u)) in *.
    set (f := Exact.round2 (Totals.fringe u)) in *.
    set (g := Exact.round2 (Totals.gross u)) in *.
    assert (HgQ : (Totals.gross u == Totals.base_pay u + Totals.fringe u)%Q).
    { rewrite Hg. unfold Qcplus, Q2Qc. cbn [this]. apply Qred_correct. }
    clearbody b f g nb nf ng. clear Hg.
    qc_to_q.
    assert (Hup : (ng - nb - nf < 2)%Z).
    { rewrite Zlt_Qlt. unfold Z.sub. rewrite !inject_Z_plus, !inject_Z_opp.
      change (inject_Z 2) with 2%Q. lra. }
    assert (Hdn : (-2 < ng - nb - nf)%Z).
    { rewrite Zlt_Qlt. unfold Z.sub. rewrite !inject_Z_plus, !inject_Z_opp.
      change (inject_Z (-2)) with (-2)%Q. lra. }
    assert (Hup' : (ng - nb - nf <= 1)%Z) by lia.
    assert (Hdn' : (-1 <= ng - nb - nf)%Z) by lia.
    rewrite Zle_Qle in Hup', Hdn'. unfold Z.sub in Hup', Hdn'.
    rewrite !inject_Z_plus, !inject_Z_opp in Hup', Hdn'.
    change (inject_Z 1) with 1%Q in Hup'.
    change (inject_Z (-1)) with (-1)%Q in Hdn'.
    split; lra.
  - apply totals_eq_Qc; by vm_compute.
  - by vm_compute.
Qed.

(** ** Facts about documents that meet the constraints of schemas.py *)

Lemma round_half_even_mono (q q' : Q) :
  (q <= q')%Q →
  (Rounding.round_half_even q <= Rounding.round_half_even q')%Z.
Proof.
  intros Hq.
  destruct (round_half_even_spec q) as [[Hlo Hhi] He].
  destruct (round_half_even_spec q') as [[Hlo' Hhi'] He'].
  set (n := Rounding.round_half_even q) in *.
  set (n' := Rounding.round_half_even q') in *.
  assert (Hle : (n <= n' + 1)%Z).
  { rewrite Zle_Qle, inject_Z_plus. change (inject_Z 1) with 1%Q. lra. }
  destruct (Z.eq_dec n (n' + 1)%Z) as [Heq|Hne]; [exfalso|lia].
  clearbody n n'. subst n.
  rewrite inject_Z_plus in Hlo, He. change (inject_Z 1) with 1%Q in Hlo, He.
  assert (Hev : Z.even (n' + 1) = true) by (apply He; left; lra).
  assert (Hev' : Z.even n' = true) by (apply He'; right; lra).
  rewrite Z.even_add, Hev' in Hev. discriminate.
Qed.

Lemma round2_mono (q q' : Qc) :
  (q ≤ q')%Qc → (Exact.round2 q ≤ Exact.round2 q')%Qc.
Proof.
  intros Hq. pose proof (round2_value q) as Hv.
  pose proof (round2_value q') as Hv'.
  assert (Hn : (Rounding.round_half_even (100 * q)
                <= Rounding.round_half_even (100 * q'))%Z).
  { apply round_half_even_mono. qc_to_q. lra. }
  rewrite Zle_Qle in Hn. qc_to_q. lra.
Qed.

Lemma rate_map_entry_schema (r : WageRate.t Qc) :
  Schema.WageRate_ok r →
  (0 ≤ Rate.base (rate_map_entry r))%Qc
  ∧ (0 ≤ Rate.fringe (rate_map_entry r))%Qc
  ∧ (0 ≤ Rate.apprentice_factor (rate_map_entry r))%Qc
  ∧ (Rate.apprentice_factor (rate_map_entry r) ≤ 1)%Qc.
Proof.
  intros (Hb & Hf & Ha). unfold rate_map_entry. simpl.
  destruct (WageRate.base_rate r) as [b|], (WageRate.fringe_rate r) as [f|],
    (WageRate.apprentice_factor r) as [a|]; simpl; repeat split;
    try (by eauto); try (by apply (Ha a)); by vm_compute.
Qed.

Lemma build_rate_map_schema (rates : list (WageRate.t Qc))
    (craft : option string) (rm : Rate.t Qc) :
  Forall Schema.WageRate_ok rates →
  build_rate_map rates !! craft = Some rm →
  (0 ≤ Rate.base rm)%Qc ∧ (0 ≤ Rate.fringe rm)%Qc
  ∧ (0 ≤ Rate.apprentice_factor rm)%Qc ∧ (Rate.apprentice_factor rm ≤ 1)%Qc.
Proof.
  intros Hrates Hrm.
  destruct (build_rate_map_lookup_Some _ _ _ Hrm) as (r & Hin & _ & ->).
  apply rate_map_entry_schema. rewrite Forall_forall in Hrates. by apply Hrates.
Qed.

Lemma dict_get_hours_nonneg (t : TimesheetEntry.t Qc) :
  Schema.TimesheetEntry_ok t →
  (0 ≤ dict_get (TimesheetEntry.hours t) (f_zero : Qc))%Qc.
Proof.
  intros Ht. destruct (TimesheetEntry.hours t) as [h|] eqn:Hh; simpl.
  - by apply Ht.
  - by vm_compute.
Qed.

Lemma row_step_nonneg (rates : list (WageRate.t Qc))
    (acc : Accumulators Qc) (t : TimesheetEntry.t Qc) :
  Forall Schema.WageRate_ok rates →
  Schema.TimesheetEntry_ok t →
  Schema.Totals_nonneg (totals acc) →
  Schema.Totals_nonneg (totals (row_step (build_rate_map rates) acc t)).
Proof.
  intros Hrates Ht (Hh & Hb & Hf & Hg). unfold row_step.
  destruct (build_rate_map rates !! TimesheetEntry.craft t) as [rm|] eqn:Hrm;
    [|by repeat split].
  destruct (build_rate_map_schema _ _ _ Hrates Hrm) as (Rb & Rf & Ra0 & Ra1).
  pose proof (dict_get_hours_nonneg t Ht) as Hhours.
  set (hours := dict_get (TimesheetEntry.hours t) f_zero) in *.
  assert (Hfac : (0 ≤ (if dict_get (TimesheetEntry.apprentice t) false
                       then Rate.apprentice_factor rm else f_one))%Qc).
  { destruct (dict_get (TimesheetEntry.apprentice t) false);
      [assumption|by vm_compute]. }
  set (factor := if dict_get (TimesheetEntry.apprentice t) false
                 then Rate.apprentice_factor rm else f_one) in *.
  unfold Schema.Totals_nonneg.
  cbn [totals Totals.hours Totals.base_pay Totals.fringe Totals.gross
       f_add f_mul Exact.exact].
  clearbody hours factor.
  change (0%Qc : Q) with 0%Q in *.
  qc_to_q. change (this 0%Qc) with 0%Q in *.
  assert (H1 : (0 <= Rate.base rm * factor)%Q) by (by apply Qmult_le_0_compat).
  assert (H2 : (0 <= Rate.base rm * factor * hours)%Q)
    by (by apply Qmult_le_0_compat).
  assert (H3 : (0 <= Rate.fringe rm * hours)%Q) by (by apply Qmult_le_0_compat).
  repeat split; lra.
Qed.

Lemma accumulate_nonneg (rates : list (WageRate.t Qc))
    (rows : list (TimesheetEntry.t Qc)) :
  Forall Schema.WageRate_ok rates →
  Forall Schema.TimesheetEntry_ok rows →
  Schema.Totals_nonneg (totals (accumulate rates rows)).
Proof.
  intros Hrates. induction rows as [|t rows IH] using rev_ind; intros Hrows.
  - repeat split; by vm_compute.
  - apply Forall_app in Hrows as [Hrows Ht].
    rewrite Forall_singleton in Ht.
    rewrite accumulate_snoc.
    apply row_step_nonneg; [assumption|assumption|by apply IH].
Qed.

(** X9.  For templates and rows that meet the constraints of schemas.py
    (rates and hours not negative, apprentice factor between 0 and 1), in
    exact arithmetic no total is negative, before or after rounding, and
    neither the base pay nor the fringe exceeds the gross, before or after
    rounding. *)
Theorem X9_totals_nonneg :
  ∀ (rates : list (WageRate.t Qc)) (rows : list (TimesheetEntry.t Qc)),
    Forall Schema.WageRate_ok rates →
    Forall Schema.TimesheetEntry_ok rows →
    let u := totals (accumulate rates rows) in
    let v := (aggregate rates rows).1 in
    Schema.Totals_nonneg u
    ∧ (Totals.base_pay u ≤ Totals.gross u)%Qc
    ∧ (Totals.fringe u ≤ Totals.gross u)%Qc
    ∧ Schema.Totals_nonneg v
    ∧ (Totals.base_pay v ≤ Totals.gross v)%Qc
    ∧ (Totals.fringe v ≤ Totals.gross v)%Qc.
Proof.
  intros rates rows Hrates Hrows u v.
  pose proof (accumulate_nonneg rates rows Hrates Hrows) as Hu. fold u in Hu.
  pose proof (foldl_row_step_gross (build_rate_map rates) initial rows
                eq_refl) as Hg.
  cbv zeta in Hg. fold (accumulate rates rows) in Hg. fold u in Hg.
  destruct Hu as (Hh & Hb & Hf & Hgr).
  assert (Hbg : (Totals.base_pay u ≤ Totals.gross u)%Qc).
  { rewrite Hg. by apply Qcle_plus_nonneg. }
  assert (Hfg : (Totals.fringe u ≤ Totals.gross u)%Qc).
  { rewrite Hg, Qcplus_comm. by apply Qcle_plus_nonneg. }
  split; [by repeat split|]. split; [exact Hbg|]. split; [exact Hfg|].
  subst v. unfold aggregate. cbn [fst]. fold u.
  unfold Schema.Totals_nonneg, round_totals.
  cbn [Totals.hours Totals.base_pay Totals.fringe Totals.gross
       f_round2 Exact.exact].
  repeat split; try (by apply round2_nonneg); by apply round2_mono.
Qed.

(** X9 on the exact Electrician scenario. *)
Lemma X9_totals_nonneg_witness :
  let u := totals (accumulate ScenarioExact.templates ScenarioExact.rows) in
  let v := (aggregate ScenarioExact.templates ScenarioExact.rows).1 in
  Schema.Totals_nonneg u
  ∧ (Totals.base_pay u ≤ Totals.gross u)%Qc
  ∧ (Totals.fringe u ≤ Totals.gross u)%Qc
  ∧ Schema.Totals_nonneg v
  ∧ (Totals.base_pay v ≤ Totals.gross v)%Qc
  ∧ (Totals.fringe v ≤ Totals.gross v)%Qc.
Proof.
  apply (X9_totals_nonneg ScenarioExact.templates ScenarioExact.rows).
  - constructor; [|constructor].
    split; [|split]; intros x [= <-]; [| |split]; by vm_compute.
  - constructor; [|constructor; [|constructor]]; intros x [= <-]; by vm_compute.
Defined.

(** One step on a row and on the same row without its apprentice flag. *)
Lemma row_step_journeyman (rates : list (WageRate.t Qc))
    (acc acc' : Accumulators Qc) (t : TimesheetEntry.t Qc) :
  Forall Schema.WageRate_ok rates →
  Schema.TimesheetEntry_ok t →
  Totals.hours (totals acc) = Totals.hours (totals acc') →
  Totals.fringe (totals acc) = Totals.fringe (totals acc') →
  warnings acc = warnings acc' →
  (Totals.base_pay (totals acc) ≤ Totals.base_pay (totals acc'))%Qc →
  (Totals.gross (totals acc) ≤ Totals.gross (totals acc'))%Qc →
  let a := row_step (build_rate_map rates) acc t in
  let j := row_step (build_rate_map rates) acc' (journeyman t) in
  Totals.hours (totals a) = Totals.hours (totals j)
  ∧ Totals.fringe (totals a) = Totals.fringe (totals j)
  ∧ warnings a = warnings j
  ∧ (Totals.base_pay (totals a) ≤ Totals.base_pay (totals j))%Qc
  ∧ (Totals.gross (totals a) ≤ Totals.gross (totals j))%Qc.
Proof.
  intros Hrates Ht Hh Hf Hw Hb Hg a j. subst a j. unfold row_step.
  cbn [journeyman TimesheetEntry.craft TimesheetEntry.hours
       TimesheetEntry.apprentice].
  change (dict_get (Some false) false) with false. cbv iota.
  destruct (build_rate_map rates !! TimesheetEntry.craft t) as [rm|] eqn:Hrm.
  - destruct (build_rate_map_schema _ _ _ Hrates Hrm) as (Rb & Rf & Ra0 & Ra1).
    pose proof (dict_get_hours_nonneg t Ht) as Hhours.
    set (hours := dict_get (TimesheetEntry.hours t) f_zero) in *.
    assert (Hfac : (0 ≤ (if dict_get (TimesheetEntry.apprentice t) false
                         then Rate.apprentice_factor rm else f_one))%Qc
                   ∧ ((if dict_get (TimesheetEntry.apprentice t) false
                       then Rate.apprentice_factor rm else f_one) ≤ 1)%Qc).
    { destruct (dict_get (TimesheetEntry.apprentice t) false);
        [by split|split; by vm_compute]. }
    set (factor := if dict_get (TimesheetEntry.apprentice t) false
                   then Rate.apprentice_factor rm else f_one) in *.
    destruct Hfac as [Hfac0 Hfac1].
    cbn [totals warnings Totals.hours Totals.base_pay Totals.fringe
         Totals.gross f_add f_mul f_one Exact.exact].
    rewrite Hh, Hf, Hw.
    split; [done|]. split; [done|]. split; [done|].
    clearbody hours factor.
    qc_to_q. change (this 0%Qc) with 0%Q in *. change (this 1%Qc) with 1%Q in *.
    assert (H1 : (0 <= Rate.base rm * hours)%Q) by (by apply Qmult_le_0_compat).
    assert (H2 : (0 <= (Rate.base rm * hours) * (1 - factor))%Q).
    { apply Qmult_le_0_compat; [assumption|lra]. }
    split; lra.
  - cbn [totals warnings]. by rewrite Hw.
Qed.

(** X10.  An apprentice never costs more than a journeyman: for documents
    that meet the constraints of schemas.py, in exact arithmetic, clearing
    the apprentice flag of every row leaves the hours, the fringe and the
    warnings as they are and can only raise the base pay and the gross,
    before and after rounding. *)
Theorem X10_apprentice_discount :
  ∀ (rates : list (WageRate.t Qc)) (rows : list (TimesheetEntry.t Qc)),
    Forall Schema.WageRate_ok rates →
    Forall Schema.TimesheetEntry_ok rows →
    let a := accumulate rates rows in
    let j := accumulate rates (journeyman <$> rows) in
    let va := (aggregate rates rows).1 in
    let vj := (aggregate rates (journeyman <$> rows)).1 in
    (Totals.hours (totals a) = Totals.hours (totals j)
     ∧ Totals.fringe (totals a) = Totals.fringe (totals j)
     ∧ warnings a = warnings j
     ∧ (Totals.base_pay (totals a) ≤ Totals.base_pay (totals j))%Qc
     ∧ (Totals.gross (totals a) ≤ Totals.gross (totals j))%Qc)
    ∧ (Totals.hours va = Totals.hours vj
       ∧ Totals.fringe va = Totals.fringe vj
       ∧ (aggregate rates rows).2 = (aggregate rates (journeyman <$> rows)).2
       ∧ (Totals.base_pay va ≤ Totals.base_pay vj)%Qc
       ∧ (Totals.gross va ≤ Totals.gross vj)%Qc).
Proof.
  intros rates rows Hrates Hrows a j va vj.
  assert (Hloop :
            Totals.hours (totals a) = Totals.hours (totals j)
            ∧ Totals.fringe (totals a) = Totals.fringe (totals j)
            ∧ warnings a = warnings j
            ∧ (Totals.base_pay (totals a) ≤ Totals.base_pay (totals j))%Qc
            ∧ (Totals.gross (totals a) ≤ Totals.gross (totals j))%Qc).
  { subst a j. clear va vj.
    induction rows as [|t rows IH] using rev_ind.
    - repeat split; by vm_compute.
    - apply Forall_app in Hrows as [Hrows Ht].
      rewrite Forall_singleton in Ht.
      destruct (IH Hrows) as (Hh & Hf & Hw & Hb & Hg).
      rewrite fmap_app. cbn [fmap list_fmap]. rewrite !accumulate_snoc.
      by apply row_step_journeyman. }
  split; [exact Hloop|].
  destruct Hloop as (Hh & Hf & Hw & Hb & Hg).
  subst va vj. unfold aggregate. cbn [fst snd]. fold a j.
  unfold round_totals.
  cbn [Totals.hours Totals.base_pay Totals.fringe Totals.gross
       f_round2 Exact.exact].
  rewrite Hh, Hf, Hw.
  split; [done|]. split; [done|]. split; [done|].
  split; by apply round2_mono.
Qed.

(** X10 on the exact Electrician template and its apprentice row. *)
Lemma X10_apprentice_discount_witness :
  let rates := ScenarioExact.templates in
  let rows := [ScenarioExact.apprentice_row] in
  let a := accumulate rates rows in
  let j := accumulate rates (journeyman <$> rows) in
  let va := (aggregate rates rows).1 in
  let vj := (aggregate rates (journeyman <$> rows)).1 in
  (Totals.hours (totals a) = Totals.hours (totals j)
   ∧ Totals.fringe (totals a) = Totals.fringe (totals j)
   ∧ warnings a = warnings j
   ∧ (Totals.base_pay (totals a) ≤ Totals.base_pay (totals j))%Qc
   ∧ (Totals.gross (totals a) ≤ Totals.gross (totals j))%Qc)
  ∧ (Totals.hours va = Totals.hours vj
     ∧ Totals.fringe va = Totals.fringe vj
     ∧ (aggregate rates rows).2 = (aggregate rates (journeyman <$> rows)).2
     ∧ (Totals.base_pay va ≤ Totals.base_pay vj)%Qc
     ∧ (Totals.gross va ≤ Totals.gross vj)%Qc).
Proof.
  apply (X10_apprentice_discount ScenarioExact.templates
           [ScenarioExact.apprentice_row]).
  - constructor; [|constructor].
    split; [|split]; intros x [= <-]; [| |split]; by vm_compute.
  - constructor; [|constructor]. intros x [= <-]. by vm_compute.
Defined.

(** ** More facts of binary64: signs *)

Module Binary64SignFacts.
Import Binary64 Binary64Facts.

Lemma binary_round_aux_false_not_negative (M E : Z) (l : location) :
  not_negative (binary_round_aux prec emax false M E l).
Proof.
  unfold binary_round_aux.
  destruct (shr_fexp prec emax M E l) as [mrs' e'].
  destruct (shr_fexp prec emax _ e' loc_Exact) as [mrs'' e''].
  destruct (shr_m mrs'') as [|m|m]; [exact I| |exact I].
  destruct (e'' <=? emax - prec)%Z; exact I.
Qed.

Lemma div_not_negative (m d : positive) :
  not_negative (div (S754_finite false m 0) (S754_finite false d 0)).
Proof.
  unfold div, SFdiv.
  destruct (SFdiv_core_binary prec emax (Z.pos m) 0 (Z.pos d) 0) as [[mz ez] lz].
  apply binary_round_aux_false_not_negative.
Qed.

Lemma round2_not_negative (x : spec_float) :
  not_negative x → not_negative (round2 x).
Proof.
  destruct x as [s|s| |[] m e]; cbn [not_negative round2 round_to]; try tauto.
  intros _. unfold of_ratio.
  assert (Hn : (0 <= Rounding.round_half_even
                       (100 * to_Q (S754_finite false m e)))%Z).
  { apply round_half_even_nonneg. rewrite to_Q_pos.
    pose proof (value_pos (Z.pos m) e ltac:(lia)). lra. }
  destruct (Rounding.round_half_even _) as [|n|n]; [exact I| |lia].
  apply div_not_negative.
Qed.

Lemma row_step_not_negative (rates : list (WageRate.t spec_float))
    (acc : Accumulators spec_float) (t : TimesheetEntry.t spec_float) :
  (∀ r x, r ∈ rates →
     WageRate.base_rate r = Some x ∨ WageRate.fringe_rate r = Some x
     ∨ WageRate.apprentice_factor r = Some x →
     not_negative x) →
  (∀ h, TimesheetEntry.hours t = Some h → not_negative h) →
  not_negative (Totals.hours (totals acc))
  ∧ not_negative (Totals.base_pay (totals acc))
  ∧ not_negative (Totals.fringe (totals acc))
  ∧ not_negative (Totals.gross (totals acc)) →
  let acc' := row_step (build_rate_map rates) acc t in
  not_negative (Totals.hours (totals acc'))
  ∧ not_negative (Totals.base_pay (totals acc'))
  ∧ not_negative (Totals.fringe (totals acc'))
  ∧ not_negative (Totals.gross (totals acc')).
Proof.
  intros Hrates Ht (Hh & Hb & Hf & Hg) acc'. subst acc'. unfold row_step.
  destruct (build_rate_map rates !! TimesheetEntry.craft t) as [rm|] eqn:Hrm;
    [|by repeat split].
  destruct (build_rate_map_lookup_Some _ _ _ Hrm) as (r & Hin & _ & ->).
  assert (Nb : not_negative (Rate.base (rate_map_entry r))).
  { unfold rate_map_entry. cbn.
    destruct (WageRate.base_rate r) as [x|] eqn:Hx; cbn; [|exact I].
    apply (Hrates r x Hin). tauto. }
  assert (Nf : not_negative (Rate.fringe (rate_map_entry r))).
  { unfold rate_map_entry. cbn.
    destruct (WageRate.fringe_rate r) as [x|] eqn:Hx; cbn; [|exact I].
    apply (Hrates r x Hin). tauto. }
  assert (Na : not_negative (Rate.apprentice_factor (rate_map_entry r))).
  { unfold rate_map_entry. cbn.
    destruct (WageRate.apprentice_factor r) as [x|] eqn:Hx; cbn; [|exact I].
    apply (Hrates r x Hin). tauto. }
  assert (Nh : not_negative (dict_get (TimesheetEntry.hours t) f_zero)).
  { destruct (TimesheetEntry.hours t) as [h|] eqn:Hh'; cbn; [|exact I].
    by apply Ht. }
  assert (Nfac : not_negative
                   (if dict_get (TimesheetEntry.apprentice t) false
                    then Rate.apprentice_factor (rate_map_entry r)
                    else f_one)).
  { destruct (dict_get (TimesheetEntry.apprentice t) false);
      [assumption|exact I]. }
  cbn [totals Totals.hours Totals.base_pay Totals.fringe Totals.gross
       f_add f_mul f64].
  repeat split;
    repeat (apply add_not_negative || apply mul_not_negative); assumption.
Qed.

End Binary64SignFacts.

(** X11.  In binary64, when no rate, no apprentice factor and no hours of
    the documents is a negative number, no total is one, before or after
    rounding (a total can still be NaN or infinite). *)
Theorem X11_binary64_never_negative :
  ∀ (rates : list (WageRate.t spec_float))
    (rows : list (TimesheetEntry.t spec_float)),
    (∀ r x, r ∈ rates →
       WageRate.base_rate r = Some x ∨ WageRate.fringe_rate r = Some x
       ∨ WageRate.apprentice_factor r = Some x →
       Binary64.not_negative x) →
    (∀ t h, t ∈ rows → TimesheetEntry.hours t = Some h →
       Binary64.not_negative h) →
    let u := totals (accumulate rates rows) in
    let v := (aggregate rates rows).1 in
    (Binary64.not_negative (Totals.hours u)
     ∧ Binary64.not_negative (Totals.base_pay u)
     ∧ Binary64.not_negative (Totals.fringe u)
     ∧ Binary64.not_negative (Totals.gross u))
    ∧ (Binary64.not_negative (Totals.hours v)
       ∧ Binary64.not_negative (Totals.base_pay v)
       ∧ Binary64.not_negative (Totals.fringe v)
       ∧ Binary64.not_negative (Totals.gross v)).
Proof.
  intros rates rows Hrates Hrows u v.
  assert (Hu : Binary64.not_negative (Totals.hours u)
               ∧ Binary64.not_negative (Totals.base_pay u)
               ∧ Binary64.not_negative (Totals.fringe u)
               ∧ Binary64.not_negative (Totals.gross u)).
  { subst u. clear v. induction rows as [|t rows IH] using rev_ind.
    - by repeat split.
    - rewrite accumulate_snoc.
      apply Binary64SignFacts.row_step_not_negative; [assumption| |].
      + intros h Hh. apply (Hrows t h); [|assumption].
        apply elem_of_app. right. by left.
      + apply IH. intros t' h Hin. apply Hrows. apply elem_of_app. by left. }
  split; [exact Hu|]. destruct Hu as (Hh & Hb & Hf & Hg).
  subst v. unfold aggregate. cbn [fst]. fold u. unfold round_totals.
  cbn [Totals.hours Totals.base_pay Totals.fringe Totals.gross f_round2
       Binary64.f64].
  repeat split; by apply Binary64SignFacts.round2_not_negative.
Qed.

(** X11 on Scenario A with a Plumber row before the Electrician row. *)
Lemma X11_binary64_never_negative_witness :
  let u := totals (accumulate Scenario.templates_A Scenario.rows_mixed) in
  let v := (aggregate Scenario.templates_A Scenario.rows_mixed).1 in
  (Binary64.not_negative (Totals.hours u)
   ∧ Binary64.not_negative (Totals.base_pay u)
   ∧ Binary64.not_negative (Totals.fringe u)
   ∧ Binary64.not_negative (Totals.gross u))
  ∧ (Binary64.not_negative (Totals.hours v)
     ∧ Binary64.not_negative (Totals.base_pay v)
     ∧ Binary64.not_negative (Totals.fringe v)
     ∧ Binary64.not_negative (Totals.gross v)).
Proof.
  apply (X11_binary64_never_negative Scenario.templates_A Scenario.rows_mixed).
  - intros r x Hin Hx. apply list_elem_of_singleton in Hin. subst r.
    destruct Hx as [[= <-]|[[= <-]|[= <-]]]; by vm_compute.
  - intros t h Hin Hh. unfold Scenario.rows_mixed in Hin.
    apply elem_of_cons in Hin as [->|Hin];
      [|apply list_elem_of_singleton in Hin; subst t];
      injection Hh as <-; by vm_compute.
Defined.

(** X12.  Stored documents none of whose keys holds [None] never make the
    computation raise: read key by key, with [float(...)] applied to each
    number, the loops return exactly the totals and warnings of
    [aggregate], where an absent key stands for its default. *)
Theorem X12_without_None_no_error :
  ∀ (F : Type) (PF : PyFloat F) (rates : list (WageRate.t F))
    (rows : list (TimesheetEntry.t F)),
    Raw.aggregate (Raw.of_template <$> rates) (Raw.of_row <$> rows)
    = inr (aggregate rates rows).
Proof.
  intros F PF rates rows. unfold Raw.aggregate.
  rewrite raw_build_rate_map_of_template.
  assert (Hloop :
            foldl (λ acc t, match acc with
                            | inl e => inl e
                            | inr a => Raw.row_step (build_rate_map rates) a t
                            end) (inr initial) (Raw.of_row <$> rows)
            = inr (accumulate rates rows)).
  { induction rows as [|t rows IH] using rev_ind; [done|].
    rewrite fmap_app. cbn [fmap list_fmap].
    rewrite foldl_snoc, IH, raw_row_step_of_row.
    by rewrite accumulate_snoc. }
  by rewrite Hloop.
Qed.

(** X13.  The computation raises [TypeError] exactly when a template holds
    [None] under ["base_rate"], ["fringe_rate"] or ["apprentice_factor"],
    or a row holds [None] under ["hours"]: the defaults 0 and 0.6 stand
    for absent keys only.  A template with [None] makes it raise even when
    there is no row and when no row names its craft; a row with [None]
    hours makes it raise even when its craft has no rate.  [None] under
    ["craft"] or ["apprentice"] never does. *)
Theorem X13_TypeError_on_None :
  ∀ (F : Type) (PF : PyFloat F) (rates : list (Raw.WageRateDoc F))
    (rows : list (Raw.TimesheetEntryDoc F)),
    Raw.aggregate rates rows = inl Raw.TypeError
    ↔ Exists (λ r, Raw.wr_base_rate r = Raw.Null
                   ∨ Raw.wr_fringe_rate r = Raw.Null
                   ∨ Raw.wr_apprentice_factor r = Raw.Null) rates
      ∨ Exists (λ t, Raw.ts_hours t = Raw.Null) rows.
Proof.
  intros F PF rates rows. unfold Raw.aggregate.
  rewrite <- raw_build_rate_map_inl.
  destruct (Raw.build_rate_map rates) as [[]|rate_map]; [tauto|].
  rewrite <- (raw_rows_inl rate_map).
  destruct (foldl _ _ rows) as [[]|acc].
  - split; eauto.
  - split; [discriminate|].
    intros [Hx|[e Hx]]; discriminate.
Qed.

(** ** Facts about the queries by optional parameters *)

Lemma truthy_Some (s : string) : truthy (Some s) = true ↔ s ≠ "".
Proof. unfold truthy. apply bool_decide_eq_true. Qed.

(** What the filter built from the two parameters asks of a document. *)
Lemma query_filter_spec {D : Type} (field : D → string → option string)
    (d : D) (project_id week_ending : option string) :
  map_Forall (λ k v, field d k = Some v) (query_filter project_id week_ending)
  ↔ (truthy project_id = true → field d "project_id" = project_id)
    ∧ (truthy week_ending = true → field d "week_ending" = week_ending).
Proof.
  unfold query_filter.
  destruct project_id as [p|], week_ending as [w|];
    try destruct (truthy (Some p)) eqn:Hp;
    try destruct (truthy (Some w)) eqn:Hw;
    cbn [truthy];
    repeat (rewrite map_Forall_insert
              by (rewrite ?lookup_insert_ne by done; apply lookup_empty));
    (split;
     [intros Hx; split; intros Hy; try discriminate; tauto
     |intros [Hx1 Hx2]; repeat split;
      try (by apply Hx1); try (by apply Hx2); apply map_Forall_empty]).
Qed.

Lemma get_documents_query_filter {D : Type}
    (field : D → string → option string) (docs : list D)
    (project_id week_ending : option string) :
  get_documents field docs (query_filter project_id week_ending)
  = filter (λ d, (truthy project_id = true → field d "project_id" = project_id)
                 ∧ (truthy week_ending = true
                    → field d "week_ending" = week_ending))
           docs.
Proof.
  unfold get_documents. apply list_filter_iff. intros d.
  apply query_filter_spec.
Qed.

Lemma get_documents_app {D : Type} (field : D → string → option string)
    (docs docs' : list D) (filt : gmap string string) :
  get_documents field (docs ++ docs') filt
  = get_documents field docs filt ++ get_documents field docs' filt.
Proof. unfold get_documents. apply filter_app. Qed.

Lemma filter_all {A} (P : A → Prop) `{∀ x, Decision (P x)} (l : list A) :
  (∀ x, x ∈ l → P x) → filter P l = l.
Proof.
  induction l as [|x l IH]; intros Hall; [done|].
  rewrite filter_cons_True by (apply Hall; left).
  f_equal. apply IH. intros y Hin. apply Hall. by right.
Qed.

Lemma filter_all_singleton {A} (P : A → Prop) `{∀ x, Decision (P x)} (x : A) :
  P x → filter P [x] = [x].
Proof. intros Hx. by rewrite filter_cons_True. Qed.

(** X14.  The two list handlers return the stored documents that agree
    with each parameter that is given and not empty: a parameter that is
    absent or the empty string restricts nothing.  So without parameters,
    or with empty ones, every stored document is returned; and with two
    non-empty parameters [list_timesheets] returns the very rows that
    [generate_submission] reads for that project and week. *)
Theorem X14_list_queries :
  ∀ (F : Type) (db : Store.t F) (project_id week_ending : option string),
    list_timesheets db project_id week_ending
    = filter (λ t, (truthy project_id = true
                    → TimesheetEntry.project_id t = project_id)
                   ∧ (truthy week_ending = true
                      → TimesheetEntry.week_ending t = week_ending))
             (Store.timesheetentry db)
    ∧ list_submissions db project_id week_ending
      = filter (λ s, (truthy project_id = true
                      → Some (Submission.project_id s) = project_id)
                     ∧ (truthy week_ending = true
                        → Some (Submission.week_ending s) = week_ending))
               (Store.submission db)
    ∧ (truthy project_id = false → truthy week_ending = false →
       list_timesheets db project_id week_ending = Store.timesheetentry db
       ∧ list_submissions db project_id week_ending = Store.submission db)
    ∧ (∀ p w, project_id = Some p → week_ending = Some w →
       p ≠ "" → w ≠ "" →
       list_timesheets db project_id week_ending
       = get_documents_timesheetentry db p w).
Proof.
  intros F db project_id week_ending.
  assert (Ht : list_timesheets db project_id week_ending
               = filter (λ t, (truthy project_id = true
                               → TimesheetEntry.project_id t = project_id)
                              ∧ (truthy week_ending = true
                                 → TimesheetEntry.week_ending t = week_ending))
                        (Store.timesheetentry db)).
  { unfold list_timesheets. apply get_documents_query_filter. }
  assert (Hs : list_submissions db project_id week_ending
               = filter (λ s, (truthy project_id = true
                               → Some (Submission.project_id s) = project_id)
                              ∧ (truthy week_ending = true
                                 → Some (Submission.week_ending s)
                                   = week_ending))
                        (Store.submission db)).
  { unfold list_submissions. apply get_documents_query_filter. }
  split; [exact Ht|]. split; [exact Hs|]. split.
  - intros Hp Hw. rewrite Ht, Hs. rewrite Hp, Hw.
    split; apply filter_all; intros x _; split; discriminate.
  - intros p w -> -> Hp Hw. rewrite Ht.
    unfold get_documents_timesheetentry. apply list_filter_iff. intros t.
    rewrite <- truthy_Some in Hp, Hw. tauto.
Qed.

(** ** Facts about the writing handlers *)

Section WritingFacts.
Context {F : Type} `{PyFloat F}.

Lemma upload_loop (entries : list (TimesheetEntry.t F)) (ids : list nat)
    (db : Store.t F) :
  foldl (λ '(ids, db) entry,
           let '(id, db') := create_document_timesheetentry db entry in
           (ids ++ [id], db'))
        (ids, db) entries
  = (ids ++ seq (length (Store.timesheetentry db)) (length entries),
     Store.mk (Store.project db) (Store.timesheetentry db ++ entries)
              (Store.submission db)).
Proof.
  revert ids db. induction entries as [|entry entries IH]; intros ids db.
  - simpl. rewrite !app_nil_r. by destruct db.
  - cbn [foldl]. unfold create_document_timesheetentry at 2.
    rewrite IH. cbn [Store.timesheetentry Store.project Store.submission].
    rewrite length_app, <- !app_assoc. cbn [length app seq].
    by rewrite Nat.add_1_r.
Qed.

Lemma upload_timesheets_spec (entries : list (TimesheetEntry.t F))
    (db : Store.t F) :
  upload_timesheets entries db
  = ((length entries,
      seq (length (Store.timesheetentry db)) (length entries)),
     Store.mk (Store.project db) (Store.timesheetentry db ++ entries)
              (Store.submission db)).
Proof.
  unfold upload_timesheets. rewrite upload_loop. cbn [app].
  by rewrite length_seq.
Qed.

Lemma generate_submission_not_found (req : GenerateRequest.t) (db : Store.t F) :
  find_project (Store.project db) (GenerateRequest.project_id req) = None →
  generate_submission req db
  = (inl {| status_code := 404; detail := "Project not found" |}, db).
Proof.
  intros Hfind. unfold generate_submission, get_documents_project.
  by rewrite Hfind.
Qed.

(** A successful call, and the same request on the same projects and
    entries whatever the stored submissions. *)
Lemma generate_submission_again (req : GenerateRequest.t) (db : Store.t F)
    (proj : Project.t F) :
  find_project (Store.project db) (GenerateRequest.project_id req) = Some proj →
  ∃ sub,
    generate_submission req db
    = (inr (length (Store.submission db), sub),
       {| Store.project := Store.project db;
          Store.timesheetentry := Store.timesheetentry db;
          Store.submission := Store.submission db ++ [sub] |})
    ∧ ∀ subs,
        generate_submission req
          {| Store.project := Store.project db;
             Store.timesheetentry := Store.timesheetentry db;
             Store.submission := subs |}
        = (inr (length subs, sub),
           {| Store.project := Store.project db;
              Store.timesheetentry := Store.timesheetentry db;
              Store.submission := subs ++ [sub] |}).
Proof.
  intros Hfind. eexists. split.
  - apply (generate_submission_found req db proj Hfind).
  - intros subs.
    apply (generate_submission_found req
             {| Store.project := Store.project db;
                Store.timesheetentry := Store.timesheetentry db;
                Store.submission := subs |} proj Hfind).
Qed.

(** The response depends on the projects and the timesheet entries only,
    and on the number of stored submissions. *)
Lemma generate_submission_response (req : GenerateRequest.t)
    (db db' : Store.t F) :
  find_project (Store.project db') (GenerateRequest.project_id req)
  = find_project (Store.project db) (GenerateRequest.project_id req) →
  get_documents_timesheetentry db' (GenerateRequest.project_id req)
                               (GenerateRequest.week_ending req)
  = get_documents_timesheetentry db (GenerateRequest.project_id req)
                                 (GenerateRequest.week_ending req) →
  length (Store.submission db') = length (Store.submission db) →
  (generate_submission req db').1 = (generate_submission req db).1.
Proof.
  intros Hfind Hrows Hlen. unfold generate_submission, get_documents_project.
  rewrite Hfind.
  destruct (find_project (Store.project db) (GenerateRequest.project_id req))
    as [proj|]; [|done].
  rewrite Hrows.
  destruct (aggregate _ _) as [tot warn].
  unfold create_document_submission. cbn [fst]. by rewrite Hlen.
Qed.

End WritingFacts.

(** X15.  [upload_timesheets] stores every entry of the payload, in the
    order of the payload, after the entries already stored, and touches no
    other collection; it reports as many insertions as there are entries,
    with one identifier each, no two the same; and a later
    [list_timesheets] returns what it returned before followed by the new
    entries that pass its filter. *)
Theorem X15_upload_timesheets :
  ∀ (F : Type) (entries : list (TimesheetEntry.t F)) (db : Store.t F),
    let response := (upload_timesheets entries db).1 in
    let db' := (upload_timesheets entries db).2 in
    response.1 = length entries
    ∧ length response.2 = length entries
    ∧ NoDup response.2
    ∧ Store.timesheetentry db' = Store.timesheetentry db ++ entries
    ∧ Store.project db' = Store.project db
    ∧ Store.submission db' = Store.submission db
    ∧ ∀ project_id week_ending,
        list_timesheets db' project_id week_ending
        = list_timesheets db project_id week_ending
          ++ filter (λ t, (truthy project_id = true
                           → TimesheetEntry.project_id t = project_id)
                          ∧ (truthy week_ending = true
                             → TimesheetEntry.week_ending t = week_ending))
                    entries.
Proof.
  intros F entries db response db'. subst response db'.
  rewrite upload_timesheets_spec. cbn [fst snd].
  split; [done|]. split; [apply length_seq|]. split; [apply NoDup_seq|].
  split; [done|]. split; [done|]. split; [done|].
  intros project_id week_ending.
  unfold list_timesheets at 1. cbn [Store.timesheetentry].
  rewrite get_documents_app. f_equal. apply get_documents_query_filter.
Qed.

(** X16.  Uploading entries and then generating: the rows read for the
    request are the matching entries stored before followed by the
    matching entries of the payload; so a payload without an entry of the
    requested project and week changes nothing in the response. *)
Theorem X16_upload_then_generate :
  ∀ (F : Type) (PF : PyFloat F) (entries : list (TimesheetEntry.t F))
    (db : Store.t F) (req : GenerateRequest.t),
    let db' := (upload_timesheets entries db).2 in
    let matching :=
      filter (λ t, TimesheetEntry.project_id t
                   = Some (GenerateRequest.project_id req)
                   ∧ TimesheetEntry.week_ending t
                     = Some (GenerateRequest.week_ending req)) in
    get_documents_timesheetentry db' (GenerateRequest.project_id req)
                                 (GenerateRequest.week_ending req)
    = matching (Store.timesheetentry db) ++ matching entries
    ∧ (matching entries = [] →
       (generate_submission req db').1 = (generate_submission req db).1).
Proof.
  intros F PF entries db req db' matching. subst db'.
  rewrite upload_timesheets_spec. cbn [snd].
  assert (Hrows :
            get_documents_timesheetentry
              {| Store.project := Store.project db;
                 Store.timesheetentry := Store.timesheetentry db ++ entries;
                 Store.submission := Store.submission db |}
              (GenerateRequest.project_id req) (GenerateRequest.week_ending req)
            = matching (Store.timesheetentry db) ++ matching entries).
  { unfold get_documents_timesheetentry. cbn [Store.timesheetentry].
    apply filter_app. }
  split; [exact Hrows|]. intros Hnone.
  apply generate_submission_response; [done| |done].
  rewrite Hrows, Hnone. by rewrite app_nil_r.
Qed.

(** X16 on the scenario store and one entry of project p2. *)
Lemma X16_upload_then_generate_witness :
  (generate_submission Scenario.request
     (upload_timesheets
        [Scenario.entry "p2" "2024-01-07" "Electrician" (Binary64.of_Z 6)]
        Scenario.db).2).1
  = (generate_submission Scenario.request Scenario.db).1.
Proof.
  apply (proj2 (X16_upload_then_generate spec_float Binary64.f64
           [Scenario.entry "p2" "2024-01-07" "Electrician" (Binary64.of_Z 6)]
           Scenario.db Scenario.request)).
  apply filter_none. intros t Hin [Hp _].
  apply list_elem_of_singleton in Hin. subst t. discriminate.
Defined.

(** X17.  Nothing keeps the handler from generating the same submission
    twice: when a call succeeds, the same request on the store it leaves
    succeeds again with the same content and the next identifier, and the
    store then holds the submission twice; projects and timesheet entries
    are as before. *)
Theorem X17_generate_twice :
  ∀ (F : Type) (PF : PyFloat F) (req : GenerateRequest.t) (db db' : Store.t F)
    (sub_id : nat) (sub : Submission.t F),
    generate_submission req db = (inr (sub_id, sub), db') →
    sub_id = length (Store.submission db)
    ∧ db' = {| Store.project := Store.project db;
               Store.timesheetentry := Store.timesheetentry db;
               Store.submission := Store.submission db ++ [sub] |}
    ∧ generate_submission req db'
      = (inr (S sub_id, sub),
         {| Store.project := Store.project db;
            Store.timesheetentry := Store.timesheetentry db;
            Store.submission := Store.submission db ++ [sub; sub] |}).
Proof.
  intros F PF req db db' sub_id sub Hgen.
  destruct (find_project (Store.project db) (GenerateRequest.project_id req))
    as [proj|] eqn:Hfind.
  - destruct (generate_submission_again req db proj Hfind)
      as (sub0 & Hfirst & Hagain).
    rewrite Hfirst in Hgen. injection Hgen as <- <- <-.
    split; [done|]. split; [done|].
    rewrite Hagain, length_app, <- app_assoc. cbn [length app].
    by rewrite Nat.add_1_r.
  - rewrite generate_submission_not_found in Hgen by done. discriminate.
Qed.

(** X17 on the scenario store. *)
Lemma X17_generate_twice_witness :
  0 = length (Store.submission Scenario.db)
  ∧ Scenario.db_after
    = {| Store.project := Store.project Scenario.db;
         Store.timesheetentry := Store.timesheetentry Scenario.db;
         Store.submission :=
           Store.submission Scenario.db ++ [Scenario.submission_A] |}
  ∧ generate_submission Scenario.request Scenario.db_after
    = (inr (1, Scenario.submission_A),
       {| Store.project := Store.project Scenario.db;
          Store.timesheetentry := Store.timesheetentry Scenario.db;
          Store.submission :=
            Store.submission Scenario.db
            ++ [Scenario.submission_A; Scenario.submission_A] |}).
Proof.
  apply (X17_generate_twice spec_float Binary64.f64 Scenario.request
           Scenario.db Scenario.db_after 0 Scenario.submission_A).
  by vm_compute.
Defined.

(** X18.  A generated submission can be listed afterwards: after a
    successful call, [list_submissions] with the project and week of the
    request, or without parameters, returns what it returned before
    followed by the new submission, which has the status "generated" and
    no signer; a failed call (404) leaves the listing as it was. *)
Theorem X18_generate_then_list :
  ∀ (F : Type) (PF : PyFloat F) (req : GenerateRequest.t) (db : Store.t F),
    let response := (generate_submission req db).1 in
    let db' := (generate_submission req db).2 in
    (∀ sub_id sub, response = inr (sub_id, sub) →
       list_submissions db' (Some (GenerateRequest.project_id req))
                        (Some (GenerateRequest.week_ending req))
       = list_submissions db (Some (GenerateRequest.project_id req))
                          (Some (GenerateRequest.week_ending req)) ++ [sub]
       ∧ list_submissions db' None None
         = list_submissions db None None ++ [sub]
       ∧ Submission.status sub = "generated"
       ∧ Submission.signer_name sub = None
       ∧ Submission.signer_title sub = None
       ∧ Submission.signed_at sub = None)
    ∧ (∀ e, response = inl e →
       ∀ project_id week_ending,
         list_submissions db' project_id week_ending
         = list_submissions db project_id week_ending).
Proof.
  intros F PF req db response db'. subst response db'.
  assert (Hlist : ∀ (sub : Submission.t F) p w,
            (truthy p = true → Some (Submission.project_id sub) = p) →
            (truthy w = true → Some (Submission.week_ending sub) = w) →
            list_submissions
              {| Store.project := Store.project db;
                 Store.timesheetentry := Store.timesheetentry db;
                 Store.submission := Store.submission db ++ [sub] |} p w
            = list_submissions db p w ++ [sub]).
  { intros sub p w Hp Hw. unfold list_submissions. cbn [Store.submission].
    rewrite get_documents_app. f_equal.
    rewrite get_documents_query_filter. by apply filter_all_singleton. }
  destruct (find_project (Store.project db) (GenerateRequest.project_id req))
    as [proj|] eqn:Hfind.
  - rewrite (generate_submission_found req db proj Hfind). cbv zeta.
    cbn [fst snd]. split; [|intros e He; discriminate].
    intros sub_id sub Hresp. injection Hresp as _ <-.
    split; [by apply Hlist|]. split; [apply Hlist; discriminate|done].
  - rewrite generate_submission_not_found by done. cbn [fst snd].
    split; [intros sub_id sub Hresp; discriminate|done].
Qed.

(** X19.  Signing never changes a submission.  Whatever sign requests are
    served, in whatever number and for whatever submission identifier
    (none is checked), the projects, the timesheet entries and the
    submissions stay as they were, so every listing returns what it
    returned before, with each status still "generated"; each call
    appends one signature record, of type "statement_of_compliance", with
    the fields of its request and the time of the call. *)
Theorem X19_signing_never_changes_submissions :
  ∀ (F : Type) (db : Db.t F) (calls : list (string * SignRequest.t)),
    let db' :=
      foldl (λ db call, (sign_submission call.1 call.2 db).2) db calls in
    Db.store db' = Db.store db
    ∧ (∀ project_id week_ending,
         list_submissions (Db.store db') project_id week_ending
         = list_submissions (Db.store db) project_id week_ending)
    ∧ Db.signature db'
      = Db.signature db
        ++ ((λ call,
               {| Signature.submission_id := SignRequest.submission_id call.2;
                  Signature.signer_name := SignRequest.signer_name call.2;
                  Signature.signer_title := SignRequest.signer_title call.2;
                  Signature.signed_at := call.1;
                  Signature.type := "statement_of_compliance" |}) <$> calls)
    ∧ (∀ utcnow req,
         (sign_submission utcnow req db').1
         = (length (Db.signature db) + length calls, "signed")).
Proof.
  intros F db calls db'.
  assert (Hloop :
            Db.store db' = Db.store db
            ∧ Db.signature db'
              = Db.signature db
                ++ ((λ call,
                       {| Signature.submission_id :=
                            SignRequest.submission_id call.2;
                          Signature.signer_name := SignRequest.signer_name call.2;
                          Signature.signer_title :=
                            SignRequest.signer_title call.2;
                          Signature.signed_at := call.1;
                          Signature.type := "statement_of_compliance" |})
                    <$> calls)).
  { subst db'. induction calls as [|call calls IH] using rev_ind.
    - simpl. by rewrite app_nil_r.
    - rewrite foldl_snoc, fmap_app. destruct IH as [IHstore IHsig].
      unfold sign_submission at 1 3. cbn [snd Db.store Db.signature].
      split; [exact IHstore|]. rewrite IHsig. by rewrite <- app_assoc. }
  destruct Hloop as [Hstore Hsig].
  split; [exact Hstore|]. split; [intros p w; by rewrite Hstore|].
  split; [exact Hsig|].
  intros utcnow req. unfold sign_submission. cbn [fst].
  by rewrite Hsig, length_app, length_fmap.
Qed.

Section RawCreateFacts.
Context {F : Type} `{PyFloat F}.

(** The response depends on the project found, the rows read and the
    number of stored submissions. *)
Lemma raw_generate_submission_response (req : GenerateRequest.t)
    (db db' : Raw.Collections F) :
  Raw.find_project (Raw.projects db') (GenerateRequest.project_id req)
  = Raw.find_project (Raw.projects db) (GenerateRequest.project_id req) →
  Raw.entries db' = Raw.entries db →
  length (Raw.submissions db') = length (Raw.submissions db) →
  (Raw.generate_submission req db').1 = (Raw.generate_submission req db).1.
Proof.
  intros Hfind Hentries Hlen.
  unfold Raw.generate_submission, Raw.get_documents_project, Raw.get_rows,
    Raw.get_documents_timesheetentry.
  rewrite Hfind, Hentries.
  destruct (Raw.find_project (Raw.projects db) _) as [proj|]; [|done].
  destruct (Raw.iter_get (Raw.pr_wage_templates proj)) as [e|rates]; [done|].
  destruct (Raw.aggregate rates _) as [e|[tot warn]]; [done|].
  unfold Raw.create_document_submission. cbn [fst]. by rewrite Hlen.
Qed.

Lemma stored_template_without_None (m : Raw.WageRateModel F) :
  Raw.template_without_None (Raw.stored_template m)
  ↔ Raw.m_apprentice_factor m ≠ None.
Proof.
  unfold Raw.template_without_None, Raw.stored_template.
  cbn [Raw.wr_base_rate Raw.wr_fringe_rate Raw.wr_apprentice_factor].
  destruct (Raw.m_apprentice_factor m); split; try done.
  - intros (_ & _ & Hx). done.
Qed.

End RawCreateFacts.

(** X20.  A created project can be used at once, unless one of its
    templates was sent with ["apprentice_factor": null], which the schema
    accepts.  [create_project] appends the project to the stored ones and
    returns its identifier.  A later [generate_submission] for another
    project answers as before.  One for the new project, when no stored
    project had its identifier, answered 404 before; now, if every
    template has a factor and no row read holds [None] hours, it creates
    the submission with the totals and warnings of the payload's templates
    over the entries already stored for that project and week; and if
    some template has the factor [None], it raises [TypeError] and stores
    nothing. *)
Theorem X20_create_project_then_generate :
  ∀ (F : Type) (PF : PyFloat F) (new_id : string)
    (wage_templates : list (Raw.WageRateModel F)) (db : Raw.Collections F)
    (req : GenerateRequest.t),
    let response := (Raw.create_project new_id wage_templates db).1 in
    let db' := (Raw.create_project new_id wage_templates db).2 in
    let rows :=
      Raw.get_rows db new_id (GenerateRequest.week_ending req) in
    response = new_id
    ∧ Raw.list_projects db'
      = Raw.list_projects db
        ++ [{| Raw.pr_id := new_id;
               Raw.pr_wage_templates :=
                 Raw.Value (Raw.stored_template <$> wage_templates) |}]
    ∧ Raw.entries db' = Raw.entries db
    ∧ Raw.submissions db' = Raw.submissions db
    ∧ (GenerateRequest.project_id req ≠ new_id →
       (Raw.generate_submission req db').1 = (Raw.generate_submission req db).1)
    ∧ (GenerateRequest.project_id req = new_id →
       (∀ p, p ∈ Raw.projects db → Raw.pr_id p ≠ new_id) →
       (Raw.generate_submission req db).1
       = Raw.NotFound {| status_code := 404; detail := "Project not found" |}
       ∧ (Forall (λ m, Raw.m_apprentice_factor m ≠ None) wage_templates →
          Forall Raw.row_without_None rows →
          let result :=
            aggregate (Raw.to_template <$> (Raw.stored_template <$> wage_templates))
                      (Raw.to_row <$> rows) in
          (Raw.generate_submission req db').1
          = Raw.Created (length (Raw.submissions db))
              {| Submission.project_id := new_id;
                 Submission.week_ending := GenerateRequest.week_ending req;
                 Submission.totals := result.1;
                 Submission.warnings := result.2;
                 Submission.signer_name := None;
                 Submission.signer_title := None;
                 Submission.signed_at := None;
                 Submission.status := "generated" |})
       ∧ (Exists (λ m, Raw.m_apprentice_factor m = None) wage_templates →
          Raw.generate_submission req db'
          = (Raw.Raised Raw.TypeError, db'))).
Proof.
  intros F PF new_id wage_templates db req response db' rows.
  subst response db'.
  unfold Raw.create_project, Raw.create_document_project, Raw.list_projects.
  cbn [fst snd Raw.projects Raw.entries Raw.submissions].
  split; [done|]. split; [done|]. split; [done|]. split; [done|].
  split.
  - intros Hne. apply raw_generate_submission_response; [|done|done].
    cbn [Raw.projects]. rewrite raw_find_project_app.
    destruct (Raw.find_project (Raw.projects db) _); [done|].
    unfold Raw.find_project. simpl.
    by rewrite bool_decide_eq_false_2 by (by intros ->).
  - intros Heq Hfresh.
    assert (Hnone : Raw.find_project (Raw.projects db)
                      (GenerateRequest.project_id req) = None).
    { apply raw_find_project_None. by rewrite Heq. }
    split; [by rewrite raw_generate_submission_not_found|].
    set (proj := {| Raw.pr_id := new_id;
                    Raw.pr_wage_templates :=
                      Raw.Value (Raw.stored_template <$> wage_templates) |}).
    set (db' := {| Raw.projects := Raw.projects db ++ [proj];
                   Raw.entries := Raw.entries db;
                   Raw.submissions := Raw.submissions db |}).
    assert (Hfind : Raw.find_project (Raw.projects db')
                      (GenerateRequest.project_id req) = Some proj).
    { subst db'. cbn [Raw.projects]. rewrite raw_find_project_app, Hnone.
      unfold Raw.find_project. simpl. by rewrite bool_decide_eq_true_2. }
    assert (Hiter : Raw.iter_get (Raw.pr_wage_templates proj)
                    = inr (Raw.stored_template <$> wage_templates)) by done.
    assert (Hrows : Raw.get_rows db' (GenerateRequest.project_id req)
                      (GenerateRequest.week_ending req) = rows)
      by (by rewrite Heq).
    split.
    + intros Hfactors Hhours.
      assert (Hagg : Raw.aggregate (Raw.stored_template <$> wage_templates)
                       (Raw.get_rows db' (GenerateRequest.project_id req)
                          (GenerateRequest.week_ending req))
                     = inr (aggregate
                              (Raw.to_template
                               <$> (Raw.stored_template <$> wage_templates))
                              (Raw.to_row <$> rows))).
      { rewrite Hrows. apply raw_aggregate_ok; [|done].
        apply Forall_fmap. eapply Forall_impl; [exact Hfactors|].
        intros m Hm. by apply stored_template_without_None. }
      rewrite (raw_generate_submission_created req db' proj _ _ Hfind Hiter Hagg).
      cbv zeta. cbn [fst]. by rewrite Heq.
    + intros Hnull.
      apply (raw_generate_submission_raised req db' proj _ _ Hfind Hiter).
      apply raw_aggregate_inl. intros [Hall _].
      apply Exists_exists in Hnull as (m & Hin & Hm).
      rewrite Forall_fmap, Forall_forall in Hall.
      specialize (Hall m Hin). cbn in Hall.
      by apply stored_template_without_None in Hall.
Qed.

(** X20 on the scenario store, which holds one entry of 3 hours for
    project p2 and no project p2: the project created with the factor 0.6
    gets the totals 3.0, 150.0, 15.0 and 165.0, the one created with the
    factor [None] gets a [TypeError]. *)
Lemma X20_create_project_then_generate_witness :
  (Raw.generate_submission ScenarioNone.request_p2 ScenarioNone.db).1
  = Raw.NotFound {| status_code := 404; detail := "Project not found" |}
  ∧ (Raw.generate_submission ScenarioNone.request_p2
       (Raw.create_project "p2" ScenarioNone.payload ScenarioNone.db).2).1
    = Raw.Created 0
        {| Submission.project_id := "p2";
           Submission.week_ending := "2024-01-07";
           Submission.totals :=
             {| Totals.hours := Binary64.of_Z 3;
                Totals.base_pay := Binary64.of_Z 150;
                Totals.fringe := Binary64.of_Z 15;
                Totals.gross := Binary64.of_Z 165 |};
           Submission.warnings := [];
           Submission.signer_name := None;
           Submission.signer_title := None;
           Submission.signed_at := None;
           Submission.status := "generated" |}
  ∧ Raw.generate_submission ScenarioNone.request_p2
      (Raw.create_project "p2" ScenarioNone.payload_None ScenarioNone.db).2
    = (Raw.Raised Raw.TypeError,
       (Raw.create_project "p2" ScenarioNone.payload_None ScenarioNone.db).2).
Proof.
  assert (Hfresh : ∀ p : Raw.ProjectDoc spec_float,
            p ∈ Raw.projects ScenarioNone.db → Raw.pr_id p ≠ "p2").
  { intros p Hin. apply list_elem_of_singleton in Hin. subst p. discriminate. }
  pose proof (proj2 (proj2 (proj2 (proj2 (proj2
                (X20_create_project_then_generate spec_float Binary64.f64
                   "p2" ScenarioNone.payload ScenarioNone.db
                   ScenarioNone.request_p2))))) eq_refl Hfresh)
    as (Hbefore & Hcreated & _).
  pose proof (proj2 (proj2 (proj2 (proj2 (proj2
                (X20_create_project_then_generate spec_float Binary64.f64
                   "p2" ScenarioNone.payload_None ScenarioNone.db
                   ScenarioNone.request_p2))))) eq_refl Hfresh)
    as (_ & _ & Hraised).
  split; [exact Hbefore|]. split.
  - rewrite Hcreated.
    + by vm_compute.
    + repeat constructor. discriminate.
    + repeat constructor; discriminate.
  - apply Hraised. constructor. reflexivity.
Defined.

(** ** The keys of the rate lookup *)

Lemma build_rate_map_lookup_None {F : Type} `{PyFloat F}
    (rates : list (WageRate.t F)) (craft : option string) :
  build_rate_map rates !! craft = None
  ↔ craft ∉ (WageRate.craft <$> rates).
Proof.
  rewrite build_rate_map_lookup, fmap_None, last_None.
  split.
  - intros Hnil Hin. apply list_elem_of_fmap in Hin as (r & -> & Hin).
    assert (Hr : r ∈ filter (λ r', WageRate.craft r' = WageRate.craft r) rates)
      by (by apply list_elem_of_filter).
    rewrite Hnil in Hr. by apply not_elem_of_nil in Hr.
  - intros Hnotin. apply filter_none. intros r Hin Hcraft.
    apply Hnotin. rewrite <- Hcraft. by apply list_elem_of_fmap_2.
Qed.

(** X21.  The warnings depend on the crafts alone, not on any number:
    there is one warning for each row whose value of ["craft"] is the
    value of ["craft"] of no template, in the order of the rows.  A row
    without the key is matched by a template without the key, since both
    read as [None]; with no such template it yields the warning for craft
    'None'. *)
Theorem X21_warnings_by_craft :
  ∀ (F : Type) (PF : PyFloat F) (rates : list (WageRate.t F))
    (rows : list (TimesheetEntry.t F)),
    (aggregate rates rows).2
    = (missing_rate_warning ∘ TimesheetEntry.craft)
      <$> filter (λ t, TimesheetEntry.craft t ∉ (WageRate.craft <$> rates)) rows
    ∧ (∀ t : TimesheetEntry.t F, TimesheetEntry.craft t = None →
       (None ∈ (WageRate.craft <$> rates) → (aggregate rates [t]).2 = [])
       ∧ (None ∉ (WageRate.craft <$> rates)
          → (aggregate rates [t]).2 = ["Missing wage rate for craft 'None'"])).
Proof.
  intros F PF rates rows.
  assert (Hwarn : ∀ rows',
            (aggregate rates rows').2
            = (missing_rate_warning ∘ TimesheetEntry.craft)
              <$> filter (λ t, TimesheetEntry.craft t
                               ∉ (WageRate.craft <$> rates)) rows').
  { intros rows'. unfold aggregate, accumulate. cbn [snd].
    rewrite foldl_row_step_warnings. cbn [warnings initial app]. f_equal.
    apply list_filter_iff. intros t. apply build_rate_map_lookup_None. }
  split; [apply Hwarn|].
  intros t Hcraft. rewrite Hwarn. split.
  - intros Hin. rewrite filter_cons_False by (rewrite Hcraft; tauto).
    by rewrite filter_nil.
  - intros Hnotin. rewrite filter_cons_True by (by rewrite Hcraft).
    rewrite filter_nil. cbn [fmap list_fmap compose]. by rewrite Hcraft.
Qed.

(** ** The handler on raw documents and the first reading *)

Section RawRefinement.
Context {F : Type} `{PyFloat F}.

Lemma raw_aggregate_of_first (rates : list (WageRate.t F))
    (rows : list (TimesheetEntry.t F)) :
  Raw.aggregate (Raw.of_template <$> rates) (Raw.of_row <$> rows)
  = inr (aggregate rates rows).
Proof.
  unfold Raw.aggregate. rewrite raw_build_rate_map_of_template.
  assert (Hloop :
            foldl (λ acc t, match acc with
                            | inl e => inl e
                            | inr a => Raw.row_step (build_rate_map rates) a t
                            end) (inr initial) (Raw.of_row <$> rows)
            = inr (accumulate rates rows)).
  { induction rows as [|t rows IH] using rev_ind; [done|].
    rewrite fmap_app. cbn [fmap list_fmap].
    rewrite foldl_snoc, IH, raw_row_step_of_row.
    by rewrite accumulate_snoc. }
  by rewrite Hloop.
Qed.

Lemma raw_find_project_of_project (projects : list (Project.t F))
    (project_id : string) :
  Raw.find_project (Raw.of_project <$> projects) project_id
  = Raw.of_project <$> find_project projects project_id.
Proof.
  unfold Raw.find_project, find_project.
  induction projects as [|p projects IH]; [done|].
  cbn [fmap list_fmap List.find Raw.of_project Raw.pr_id].
  by destruct (bool_decide (Project._id p = project_id)).
Qed.

Lemma raw_of_option_Value {A} (v : option A) (a : A) :
  Raw.of_option v = Raw.Value a ↔ v = Some a.
Proof. destruct v; cbn; split; intros Hx; by inversion Hx. Qed.

Lemma raw_get_rows_of_store (db : Store.t F) (project_id week_ending : string) :
  Raw.get_rows (Raw.of_store db) project_id week_ending
  = Raw.of_row <$> get_documents_timesheetentry db project_id week_ending.
Proof.
  unfold Raw.get_rows, Raw.get_documents_timesheetentry,
    get_documents_timesheetentry, Raw.of_store.
  cbn [Raw.entries]. rewrite filter_fmap, <- list_fmap_compose.
  rewrite (list_filter_iff _ (λ t, TimesheetEntry.project_id t = Some project_id
                                   ∧ TimesheetEntry.week_ending t
                                     = Some week_ending)).
  - done.
  - intros t. cbn [Raw.of_entry Raw.en_project_id Raw.en_week_ending].
    by rewrite !raw_of_option_Value.
Qed.

Lemma raw_iter_get_of_project (proj : Project.t F) :
  Raw.iter_get (Raw.pr_wage_templates (Raw.of_project proj))
  = inr (Raw.of_template <$> dict_get (Project.wage_templates proj) []).
Proof.
  unfold Raw.of_project. cbn [Raw.pr_wage_templates].
  by destruct (Project.wage_templates proj).
Qed.

End RawRefinement.

(** X22.  On a store no key of which holds [None] the handler raises
    nothing and does what the first reading says: read key by key,
    [generate_submission] answers 404 or creates the submission exactly as
    the handler of the first reading does on the same store, and leaves
    the same store. *)
Theorem X22_handler_without_None :
  ∀ (F : Type) (PF : PyFloat F) (req : GenerateRequest.t) (db : Store.t F),
    Raw.generate_submission req (Raw.of_store db)
    = (Raw.of_response (generate_submission req db).1,
       Raw.of_store (generate_submission req db).2).
Proof.
  intros F PF req db.
  unfold Raw.generate_submission, Raw.get_documents_project,
    generate_submission, get_documents_project.
  change (Raw.projects (Raw.of_store db))
    with (Raw.of_project <$> Store.project db).
  rewrite raw_find_project_of_project.
  destruct (find_project (Store.project db) (GenerateRequest.project_id req))
    as [proj|]; [|done].
  cbn [fmap option_fmap option_map].
  rewrite raw_iter_get_of_project, raw_get_rows_of_store.
  rewrite raw_aggregate_of_first.
  destruct (aggregate _ _) as [tot warn].
  unfold create_document_submission, Raw.create_document_submission.
  cbn [fst snd Raw.of_response]. unfold Raw.of_store.
  cbn [Raw.projects Raw.entries Raw.submissions Store.project
       Store.timesheetentry Store.submission].
  done.
Qed.
